(** * Shape/texture bias evaluation (main.py): decisions, totals, triplets

    A shallow embedding of the decision-aggregation and triplet-similarity
    code of [main.py].

    Conventions of the embedding.
    - A Python exception is a [Raise e] result; a normal return is [Ok v].
    - A float that the code only stores and compares (a class value, a dot
      product, a cosine, a distance) is a rational [Q]: every finite float
      is one, and [>] and [<] on finite floats are the order of [Q].
    - The 2-way softmax of the restricted decision is taken over the real
      numbers [R].
    - The floats that [generate_fake_triplets] adds, divides and compares
      (the magnitudes and their statistics, the coordinates of the fake
      vectors) are IEEE 754 doubles, as in Python and numpy: the primitive
      floats, with their own arithmetic.
    - Calls into numpy, torch and scipy whose arithmetic plays no role or
      is not fixed by the source ([np.dot], [np.linalg.norm],
      [CosineSimilarity], [cdist], [spatial.distance.cosine], the softmax
      of the embeddings, the random generators) are parameters of the
      sections that use them.
    - A pandas row is a finite map from column names to cells where the set
      of columns matters, and a record where the schema is fixed. *)

From Stdlib Require Import PrimFloat.
From Stdlib Require Uint63.
From Stdlib Require Import ZArith QArith Qreals Reals Lra Lia.
From stdpp Require Import base option list gmap strings.

Local Open Scope Z_scope.

(** ** Exceptions *)

Inductive exn : Set :=
  | KeyError
  | IndexError
  | ValueError
  | TypeError
  | ZeroDivisionError.

Inductive result (A : Type) : Type :=
  | Ok (a : A)
  | Raise (e : exn).
Arguments Ok {A} a.
Arguments Raise {A} e.

#[global] Instance result_ret : MRet result := @Ok.
#[global] Instance result_bind : MBind result :=
  fun A B k m =>
    match m with
    | Ok a => k a
    | Raise e => Raise e
    end.

(** ** Python list and string primitives *)

(** [l.index(x)]: the first position of [x], [ValueError] when absent. *)
Fixpoint index (x : string) (l : list string) : result nat :=
  match l with
  | [] => Raise ValueError
  | y :: l' => if decide (y = x) then Ok O else i ← index x l'; Ok (S i)
  end.

(** [l[i]] for [i >= 0]: [IndexError] out of range. *)
Definition getitem {A : Type} (l : list A) (i : nat) : result A :=
  match l !! i with
  | Some a => Ok a
  | None => Raise IndexError
  end.

(** [s[-4:]] and [s[:-4]]. *)
Definition last4 (s : string) : string :=
  String.substring (String.length s - 4) 4 s.
Definition drop_last4 (s : string) : string :=
  String.substring 0 (String.length s - 4) s.

(** ** Comparison of floats (as rationals) *)

(** [x > y] *)
Definition Qgtb (x y : Q) : bool := negb (Qle_bool x y).
(** [x < y] *)
Definition Qltb (x y : Q) : bool := Qgtb y x.

(** ** Decision Reducer: the restricted decision of the [__main__] loop *)

(** [nn.Softmax(dim=0)] on a vector. *)
Definition softmax (xs : list R) : list R :=
  let total := fold_right Rplus 0%R (map exp xs) in
  map (fun x => (exp x / total)%R) xs.

Section DecisionReducer.
Variable shape_categories : list string.

(** Lines 968-974: [decision_restricted]. *)
Definition decision_restricted (class_values : list Q) (shape texture : string)
  : result string :=
  shape_idx ← index shape shape_categories;
  texture_idx ← index texture shape_categories;
  cs ← getitem class_values shape_idx;
  ct ← getitem class_values texture_idx;
  let decision_idx := if Qgtb cs ct then shape_idx else texture_idx in
  getitem shape_categories decision_idx.

(** Lines 975-976: [restricted_class_values]. *)
Definition restricted_class_values (class_values : list Q) (shape texture : string)
  : result (list R) :=
  shape_idx ← index shape shape_categories;
  texture_idx ← index texture shape_categories;
  cs ← getitem class_values shape_idx;
  ct ← getitem class_values texture_idx;
  Ok (softmax [Q2R cs; Q2R ct]).

(** The score the vector gives a label. *)
Definition score (class_values : list Q) (label : string) : result Q :=
  i ← index label shape_categories;
  getitem class_values i.
End DecisionReducer.

(** The sixteen categories in the order of the data set (the docstring of
    [plot_class_values] gives the ends: airplane, bear, ..., oven, truck). *)
Definition geirhos_categories : list string :=
  ["airplane"; "bear"; "bicycle"; "bird"; "boat"; "bottle"; "car"; "cat";
   "chair"; "clock"; "dog"; "elephant"; "keyboard"; "knife"; "oven"; "truck"]%string.

(** ** Dictionaries and loops *)

(** [d[k]] *)
Definition dict_get `{Countable K} {V : Type} (d : gmap K V) (k : K) : result V :=
  match d !! k with
  | Some v => Ok v
  | None => Raise KeyError
  end.

(** [d[k] += v], that is [d[k] = d[k] + v]. *)
Definition dict_add (d : gmap string Z) (k : string) (v : Z) : result (gmap string Z) :=
  x ← dict_get d k;
  Ok (<[k := x + v]> d).

(** [sum(d.values())] *)
Definition sum_values (d : gmap string Z) : Z :=
  map_fold (fun _ v acc => v + acc) 0 d.

(** A [for] loop whose body may raise. *)
Fixpoint for_each {S A : Type} (body : S -> A -> result S) (s : S) (l : list A)
  : result S :=
  match l with
  | [] => Ok s
  | a :: l' => s' ← body s a; for_each body s' l'
  end.

(** ** Aggregator: [calculate_totals] *)

(** A row of a per-shape table written by [csv_class_values], with the
    columns that [calculate_totals] reads. *)
Record DecisionRow : Set := {
  Shape : string;
  Shape_Decision : Z;
  Texture_Decision : Z;
  Neither : Z;
  Restricted_Shape_Decision : Z;
  Restricted_Texture_Decision : Z
}.

(** A row of [totals.csv]. *)
Record TotalsRow : Set := {
  Shape_Category : string;
  Number_Shape_Decisions : Z;
  Number_Texture_Decisions : Z;
  Number_Neither : Z;
  Number_Restricted_Shape_Decisions : Z;
  Number_Restricted_Texture_Decisions : Z;
  Total_Number_Stimuli : Z
}.

(** The five running dictionaries of [calculate_totals]. *)
Record totals_dicts : Type := {
  shape_dict : gmap string Z;
  texture_dict : gmap string Z;
  neither_dict : gmap string Z;
  restricted_shape_dict : gmap string Z;
  restricted_texture_dict : gmap string Z
}.

(** Lines 156-161: every category starts at 0. *)
Definition zero_dict (shape_categories : list string) : gmap string Z :=
  foldl (fun d shape => <[shape := 0]> d) ∅ shape_categories.

Definition init_totals (shape_categories : list string) : totals_dicts :=
  {| shape_dict := zero_dict shape_categories;
     texture_dict := zero_dict shape_categories;
     neither_dict := zero_dict shape_categories;
     restricted_shape_dict := zero_dict shape_categories;
     restricted_texture_dict := zero_dict shape_categories |}.

(** Lines 170-175: one row of one table. *)
Definition totals_row_step (shape : string) (d : totals_dicts) (row : DecisionRow)
  : result totals_dicts :=
  if decide (Restricted_Shape_Decision row ≠ Restricted_Texture_Decision row) then
    sd ← dict_add (shape_dict d) shape (Shape_Decision row);
    td ← dict_add (texture_dict d) shape (Texture_Decision row);
    nd ← dict_add (neither_dict d) shape (Neither row);
    rsd ← dict_add (restricted_shape_dict d) shape (Restricted_Shape_Decision row);
    rtd ← dict_add (restricted_texture_dict d) shape (Restricted_Texture_Decision row);
    Ok {| shape_dict := sd; texture_dict := td; neither_dict := nd;
          restricted_shape_dict := rsd; restricted_texture_dict := rtd |}
  else Ok d.

(** Line 164: files that are not per-shape tables are skipped. *)
Definition skipped (filename : string) : bool :=
  bool_decide (last4 filename ≠ ".csv"%string)
  || bool_decide (filename = "totals.csv"%string).

(** [df['Shape'][0]] *)
Definition first_shape (df : list DecisionRow) : result string :=
  match df with
  | [] => Raise KeyError
  | row :: _ => Ok (Shape row)
  end.

(** Lines 163-175: one file of the result directory. *)
Definition totals_file_step (d : totals_dicts) (file : string * list DecisionRow)
  : result totals_dicts :=
  if skipped file.1 then Ok d
  else
    shape ← first_shape file.2;
    for_each (totals_row_step shape) d file.2.

(** Lines 190-198: the row of one category; an unset row of [result_df]
    (all NaN) is [None]. *)
Definition totals_write_step (shape_categories : list string) (d : totals_dicts)
    (result_df : list (option TotalsRow)) (shape : string)
  : result (list (option TotalsRow)) :=
  shape_idx ← index shape shape_categories;
  s ← dict_get (shape_dict d) shape;
  t ← dict_get (texture_dict d) shape;
  n ← dict_get (neither_dict d) shape;
  rs ← dict_get (restricted_shape_dict d) shape;
  rt ← dict_get (restricted_texture_dict d) shape;
  Ok (<[shape_idx :=
          Some {| Shape_Category := shape;
                  Number_Shape_Decisions := s;
                  Number_Texture_Decisions := t;
                  Number_Neither := n;
                  Number_Restricted_Shape_Decisions := rs;
                  Number_Restricted_Texture_Decisions := rt;
                  Total_Number_Stimuli := s + t + n |}]> result_df).

(** Lines 212-220: the final row. *)
Definition totals_final_row (d : totals_dicts) : TotalsRow :=
  {| Shape_Category := "total";
     Number_Shape_Decisions := sum_values (shape_dict d);
     Number_Texture_Decisions := sum_values (texture_dict d);
     Number_Neither := sum_values (neither_dict d);
     Number_Restricted_Shape_Decisions := sum_values (restricted_shape_dict d);
     Number_Restricted_Texture_Decisions := sum_values (restricted_texture_dict d);
     Total_Number_Stimuli :=
       sum_values (neither_dict d) + sum_values (texture_dict d)
       + sum_values (shape_dict d) |}.

(** [calculate_totals]: the directory is the list of its files, each with
    the table read from it; the value is the table written to
    [totals.csv]. *)
Definition calculate_totals (shape_categories : list string)
    (result_dir : list (string * list DecisionRow))
  : result (list (option TotalsRow)) :=
  d ← for_each totals_file_step (init_totals shape_categories) result_dir;
  let result_df := replicate (length shape_categories + 1) None in
  result_df ← for_each (totals_write_step shape_categories d) result_df shape_categories;
  let idx := length shape_categories in
  Ok (<[idx := Some (totals_final_row d)]> result_df).

(** ** Aggregator: [calculate_proportions] *)

Record Proportions : Set := {
  shape_texture : Q;
  texture_shape : Q;
  shape_all : Q;
  texture_all : Q;
  shape_restricted : Q;
  texture_restricted : Q
}.

(** [a / b] on Python integers. *)
Definition truediv (a b : Z) : result Q :=
  if decide (b = 0) then Raise ZeroDivisionError
  else Ok (inject_Z a / inject_Z b)%Q.

(** [int(series)]: defined on a series of one element only. *)
Definition int_of_series (s : list Z) : result Z :=
  match s with
  | [x] => Ok x
  | _ => Raise TypeError
  end.

(** [df.loc[df['Shape Category'] == 'total']] *)
Definition total_rows (df : list (option TotalsRow)) : list TotalsRow :=
  filter (fun r => Shape_Category r = "total"%string) (omap (fun r => r) df).

(** Lines 233-252; the value is the six proportions written to
    [proportions.txt]. *)
Definition calculate_proportions (df : list (option TotalsRow)) : result Proportions :=
  let row := total_rows df in
  shape ← int_of_series (Number_Shape_Decisions <$> row);
  texture ← int_of_series (Number_Texture_Decisions <$> row);
  total ← int_of_series (Total_Number_Stimuli <$> row);
  rs ← int_of_series (Number_Restricted_Shape_Decisions <$> row);
  shape_restricted ← truediv rs total;
  rt ← int_of_series (Number_Restricted_Texture_Decisions <$> row);
  texture_restricted ← truediv rt total;
  shape_texture ← truediv shape (shape + texture);
  texture_shape ← truediv texture (shape + texture);
  shape_all ← truediv shape total;
  texture_all ← truediv texture total;
  Ok {| shape_texture := shape_texture; texture_shape := texture_shape;
        shape_all := shape_all; texture_all := texture_all;
        shape_restricted := shape_restricted;
        texture_restricted := texture_restricted |}.

(** ** Similarity tables *)

(** A cell of a similarity table. [vec] is the type of the arrays that the
    fake table stores in its [Anchor] and match columns. *)
Inductive cell (vec : Type) : Type :=
  | CNaN
  | CInt (z : Z)
  | CNum (q : Q)
  | CStr (s : string)
  | CVec (v : vec).
Arguments CNaN {vec}.
Arguments CInt {vec} z.
Arguments CNum {vec} q.
Arguments CStr {vec} s.
Arguments CVec {vec} v.

(** [pd.DataFrame(index=..., columns=columns)]: a row of NaN cells. *)
Definition nan_row {vec : Type} (columns : list string) : gmap string (cell vec) :=
  foldr (fun c r => <[c := CNaN]> r) ∅ columns.

(** [int(row[col])] *)
Definition int_of_cell {vec : Type} (c : cell vec) : result Z :=
  match c with
  | CInt z => Ok z
  | CNum q => Ok (Z.quot (Qnum q) (Zpos (Qden q)))
  | CNaN => Raise ValueError
  | CStr _ => Raise ValueError
  | CVec _ => Raise TypeError
  end.

(** The two cells of a shape/texture indicator pair. *)
Definition closer_pair (shape_closer : bool) : Z * Z :=
  if shape_closer then (1, 0) else (0, 1).

(** What the triplet collaborator [GeirhosTriplets] hands to [triplets]. *)
Record GeirhosTriplets : Type := {
  images : list string;
  shape_classes : gmap string (string * string);
  triplets_by_image : gmap string (list (string * string * string))
}.

(** The pairwise similarity cache [sim_dict], and the log of the pairs for
    which the similarities were computed (a ghost field: one entry per
    execution of lines 713-715 or 728-730). *)
Record sim_state : Type := {
  sim_dict : gmap (string * string) (Q * Q * Q);
  computed : list (string * string)
}.

Definition empty_sim_state : sim_state :=
  {| sim_dict := ∅; computed := [] |}.

Definition columns_triplets : list string :=
  ["Model"; "Anchor"; "Anchor Shape"; "Anchor Texture"; "Shape Match";
   "Texture Match"; "Shape Dot"; "Shape Cos"; "Shape ED";
   "Texture Dot"; "Texture Cos"; "Texture ED"; "Shape Dot Closer";
   "Shape Cos Closer"; "Shape ED Closer";
   "Texture Dot Closer"; "Texture Cos Closer"; "Texture ED Closer"]%string.

(** The column list of [generate_fake_triplets]; the comma that is missing
    in the source after ['Texture Cos'] joins two names. *)
Definition columns_fake : list string :=
  ["Model"; "Anchor"; "Shape Match"; "Texture Match";
   "Shape Dot"; "Shape Cos"; "Texture Dot"; "Texture CosShape Dot Closer";
   "Shape Cos Closer"; "Texture Dot Closer"; "Texture Cos Closer"]%string.

Section Similarity.
Variable vec : Type.
(** [np.dot], [torch.nn.CosineSimilarity(dim=0)], [torch.cdist] on two
    unsqueezed vectors, [scipy.spatial.distance.cosine]. *)
Variables np_dot cosx cdist spatial_distance_cosine : vec -> vec -> Q.

Local Abbreviation row := (gmap string (cell vec)).

(** *** Triplet Similarity Engine: [triplets] *)

(** Lines 703-716 (and 718-731): the similarities of a pair, from the
    cache under either order, else computed and stored. *)
Definition lookup_or_compute (st : sim_state) (anchor other : string)
    (anchor_output other_output : vec) : result (Q * Q * Q * sim_state) :=
  if bool_decide ((anchor, other) ∈ dom (sim_dict st))
     || bool_decide ((other, anchor) ∈ dom (sim_dict st))
  then
    match sim_dict st !! (anchor, other) with
    | Some v => Ok (v, st)
    | None => v ← dict_get (sim_dict st) (other, anchor); Ok (v, st)
    end
  else
    let v := (np_dot anchor_output other_output,
              cosx anchor_output other_output,
              cdist other_output anchor_output) in
    Ok (v, {| sim_dict := <[(anchor, other) := v]> (sim_dict st);
              computed := computed st ++ [(anchor, other)] |}).

(** Lines 751-771: the six indicator cells. *)
Definition set_closer (shape_v texture_v : Q * Q * Q) (r : row) : row :=
  let '(shape_dot, shape_cos, shape_ed) := shape_v in
  let '(texture_dot, texture_cos, texture_ed) := texture_v in
  let dot := closer_pair (Qgtb shape_dot texture_dot) in
  let r := <["Texture Dot Closer" := CInt dot.2]> (<["Shape Dot Closer" := CInt dot.1]> r) in
  let cos := closer_pair (Qgtb shape_cos texture_cos) in
  let r := <["Texture Cos Closer" := CInt cos.2]> (<["Shape Cos Closer" := CInt cos.1]> r) in
  let ed := closer_pair (Qltb shape_ed texture_ed) in
  <["Texture ED Closer" := CInt ed.2]> (<["Shape ED Closer" := CInt ed.1]> r).

(** Lines 744-749: the six measure cells. *)
Definition set_measures (shape_v texture_v : Q * Q * Q) (r : row) : row :=
  let '(shape_dot, shape_cos, shape_ed) := shape_v in
  let '(texture_dot, texture_cos, texture_ed) := texture_v in
  <["Texture ED" := CNum texture_ed]> (
  <["Texture Cos" := CNum texture_cos]> (
  <["Texture Dot" := CNum texture_dot]> (
  <["Shape ED" := CNum shape_ed]> (
  <["Shape Cos" := CNum shape_cos]> (
  <["Shape Dot" := CNum shape_dot]> r))))).

(** Lines 691-771: the row of a triplet, given the similarities of its
    two legs. *)
Definition triplet_row (base : row) (shape_match texture_match : string)
    (shape_v texture_v : Q * Q * Q) : row :=
  set_closer shape_v texture_v (
  set_measures shape_v texture_v (
  <["Texture Match" := CStr (drop_last4 texture_match)]> (
  <["Shape Match" := CStr (drop_last4 shape_match)]> base))).

(** Lines 686-771: one triplet of an anchor. *)
Definition triplet_step (embeddings : gmap string vec) (anchor : string) (base : row)
    (acc : list row * sim_state) (triplet : string * string * string)
  : result (list row * sim_state) :=
  let shape_match := triplet.1.2 in
  let texture_match := triplet.2 in
  anchor_output ← dict_get embeddings anchor;
  shape_output ← dict_get embeddings shape_match;
  texture_output ← dict_get embeddings texture_match;
  s ← lookup_or_compute acc.2 anchor shape_match anchor_output shape_output;
  t ← lookup_or_compute s.2 anchor texture_match anchor_output texture_output;
  Ok (acc.1 ++ [triplet_row base shape_match texture_match s.1 t.1], t.2).

(** Lines 676-773: one anchor; the table is written to
    [anchor[:-4] + '.csv'] in the similarity directory. *)
Definition anchor_step (model_type : string) (embeddings : gmap string vec)
    (t : GeirhosTriplets)
    (acc : list (string * list row) * sim_state) (anchor : string)
  : result (list (string * list row) * sim_state) :=
  anchor_triplets ← dict_get (triplets_by_image t) anchor;
  spec ← dict_get (shape_classes t) anchor;
  let base : row :=
    <["Anchor Texture" := CStr spec.2]> (
    <["Anchor Shape" := CStr spec.1]> (
    <["Model" := CStr model_type]> (
    <["Anchor" := CStr (drop_last4 anchor)]> (nan_row columns_triplets)))) in
  df ← for_each (triplet_step embeddings anchor base) ([], acc.2) anchor_triplets;
  Ok (acc.1 ++ [(drop_last4 anchor +:+ ".csv", df.1)], df.2).

(** [triplets]: the tables written, in the order of writing, and the
    final cache. *)
Definition triplets (model_type : string) (embeddings : gmap string vec)
    (t : GeirhosTriplets) : result (list (string * list row) * sim_state) :=
  for_each (anchor_step model_type embeddings t) ([], empty_sim_state) (images t).

(** *** Null-Model Generator: the row of a fake triplet *)

(** Lines 469-495 of [generate_fake_triplets]. *)
Definition fake_row (anchor shape_match texture_match : vec) : row :=
  let r : row := nan_row columns_fake in
  let r := <["Texture Match" := CVec texture_match]> (
           <["Shape Match" := CVec shape_match]> (
           <["Anchor" := CVec anchor]> r)) in
  let shape_dot := np_dot anchor shape_match in
  let shape_cos := spatial_distance_cosine anchor shape_match in
  let texture_dot := np_dot anchor texture_match in
  let texture_cos := spatial_distance_cosine anchor texture_match in
  let r := <["Texture Cos" := CNum texture_cos]> (
           <["Texture Dot" := CNum texture_dot]> (
           <["Shape Cos" := CNum shape_cos]> (
           <["Shape Dot" := CNum shape_dot]> r))) in
  let dot := closer_pair (Qgtb shape_dot texture_dot) in
  let r := <["Texture Dot Closer" := CInt dot.2]> (<["Shape Dot Closer" := CInt dot.1]> r) in
  let cos := closer_pair (Qgtb shape_cos texture_cos) in
  <["Texture Cos Closer" := CInt cos.2]> (<["Shape Cos Closer" := CInt cos.1]> r).

(** *** Similarity Totals Aggregator: [calculate_similarity_totals] *)

Definition row_get (r : row) (col : string) : result (cell vec) :=
  dict_get r col.

Record closer_flags : Set := {
  shape_dot_closer : Z;
  shape_cos_closer : Z;
  shape_ed_closer : Z;
  texture_dot_closer : Z;
  texture_cos_closer : Z;
  texture_ed_closer : Z
}.

(** Lines 552-557. *)
Definition read_flags (r : row) : result closer_flags :=
  sd ← row_get r "Shape Dot Closer" ≫= int_of_cell;
  sc ← row_get r "Shape Cos Closer" ≫= int_of_cell;
  se ← row_get r "Shape ED Closer" ≫= int_of_cell;
  td ← row_get r "Texture Dot Closer" ≫= int_of_cell;
  tc ← row_get r "Texture Cos Closer" ≫= int_of_cell;
  te ← row_get r "Texture ED Closer" ≫= int_of_cell;
  Ok {| shape_dot_closer := sd; shape_cos_closer := sc; shape_ed_closer := se;
        texture_dot_closer := td; texture_cos_closer := tc;
        texture_ed_closer := te |}.

(** The counters of the proportions mode. *)
Record closer_sums : Set := {
  shape_dot : Z;
  shape_cos : Z;
  shape_ed : Z;
  texture_dot : Z;
  texture_cos : Z;
  texture_ed : Z;
  num_rows : Z
}.

(** The counters of the matrix mode. *)
Record closer_matrix : Set := {
  m0_0 : Z;
  m0_1 : Z;
  m1_0 : Z;
  m1_1 : Z
}.

(** Lines 560-566. *)
Definition sums_step (s : closer_sums) (f : closer_flags) : closer_sums :=
  {| shape_dot := shape_dot s + shape_dot_closer f;
     shape_cos := shape_cos s + shape_cos_closer f;
     shape_ed := shape_ed s + shape_ed_closer f;
     texture_dot := texture_dot s + texture_dot_closer f;
     texture_cos := texture_cos s + texture_cos_closer f;
     texture_ed := texture_ed s + texture_ed_closer f;
     num_rows := num_rows s + 1 |}.

(** Lines 569-578. *)
Definition matrix_step (m : closer_matrix) (f : closer_flags) : closer_matrix :=
  if decide (shape_dot_closer f = 1) then
    if decide (shape_cos_closer f = 1) then
      {| m0_0 := m0_0 m + 1; m0_1 := m0_1 m; m1_0 := m1_0 m; m1_1 := m1_1 m |}
    else if decide (texture_cos_closer f = 1) then
      {| m0_0 := m0_0 m; m0_1 := m0_1 m; m1_0 := m1_0 m + 1; m1_1 := m1_1 m |}
    else m
  else if decide (texture_dot_closer f = 1) then
    if decide (shape_cos_closer f = 1) then
      {| m0_0 := m0_0 m; m0_1 := m0_1 m + 1; m1_0 := m1_0 m; m1_1 := m1_1 m |}
    else if decide (texture_cos_closer f = 1) then
      {| m0_0 := m0_0 m; m0_1 := m0_1 m; m1_0 := m1_0 m; m1_1 := m1_1 m + 1 |}
    else m
  else m.

(** Lines 546-548: the derived tables of the directory are skipped. *)
Definition derived (file : string) : bool :=
  bool_decide (file = "averages.csv"%string)
  || bool_decide (file = "proportions.csv"%string)
  || bool_decide (file = "matrix.csv"%string).

(** The six proportions of [proportions.csv]. *)
Record closer_proportions : Set := {
  Shape_Dot_Closer : Q;
  Shape_Cos_Closer : Q;
  Shape_ED_Closer : Q;
  Texture_Dot_Closer : Q;
  Texture_Cos_Closer : Q;
  Texture_ED_Closer : Q
}.

Inductive similarity_totals : Set :=
  | ProportionsTable (p : closer_proportions)
  | MatrixTable (m : closer_matrix).

(** Lines 544-578 with [matrix=False]. *)
Definition sums_file_step (s : closer_sums) (file : string * list row)
  : result closer_sums :=
  if derived file.1 then Ok s
  else for_each (fun s r => f ← read_flags r; Ok (sums_step s f)) s file.2.

(** Lines 544-578 with [matrix=True]. *)
Definition matrix_file_step (m : closer_matrix) (file : string * list row)
  : result closer_matrix :=
  if derived file.1 then Ok m
  else for_each (fun m r => f ← read_flags r; Ok (matrix_step m f)) m file.2.

(** [calculate_similarity_totals]: [sim_dir] is the list of the [.csv]
    files of the similarity directory, names relative to it. *)
Definition calculate_similarity_totals (matrix : bool)
    (sim_dir : list (string * list row)) : result similarity_totals :=
  if negb matrix then
    s ← for_each sums_file_step
          {| shape_dot := 0; shape_cos := 0; shape_ed := 0; texture_dot := 0;
             texture_cos := 0; texture_ed := 0; num_rows := 0 |} sim_dir;
    sd ← truediv (shape_dot s) (num_rows s);
    sc ← truediv (shape_cos s) (num_rows s);
    se ← truediv (shape_ed s) (num_rows s);
    td ← truediv (texture_dot s) (num_rows s);
    tc ← truediv (texture_cos s) (num_rows s);
    te ← truediv (texture_ed s) (num_rows s);
    Ok (ProportionsTable
          {| Shape_Dot_Closer := sd; Shape_Cos_Closer := sc; Shape_ED_Closer := se;
             Texture_Dot_Closer := td; Texture_Cos_Closer := tc;
             Texture_ED_Closer := te |})
  else
    m ← for_each matrix_file_step
          {| m0_0 := 0; m0_1 := 0; m1_0 := 0; m1_1 := 0 |} sim_dir;
    Ok (MatrixTable m).
End Similarity.

Arguments lookup_or_compute {vec} np_dot cosx cdist st anchor other anchor_output other_output.
Arguments set_closer {vec} shape_v texture_v r.
Arguments set_measures {vec} shape_v texture_v r.
Arguments triplet_row {vec} base shape_match texture_match shape_v texture_v.
Arguments triplet_step {vec} np_dot cosx cdist embeddings anchor base acc triplet.
Arguments anchor_step {vec} np_dot cosx cdist model_type embeddings t acc anchor.
Arguments triplets {vec} np_dot cosx cdist model_type embeddings t.
Arguments fake_row {vec} np_dot spatial_distance_cosine anchor shape_match texture_match.
Arguments row_get {vec} r col.
Arguments read_flags {vec} r.
Arguments sums_file_step {vec} s file.
Arguments matrix_file_step {vec} m file.
Arguments calculate_similarity_totals {vec} matrix sim_dir.

(** *** The cache and the indicators, as the specification words them *)

(** Two keys that name the same unordered pair. *)
Definition same_pair (p q : string * string) : Prop :=
  p = q \/ p = (q.2, q.1).

(** The similarities were computed at most once per unordered pair. *)
Definition computed_once (log : list (string * string)) : Prop :=
  forall i j p q, log !! i = Some p -> log !! j = Some q -> same_pair p q -> i = j.

(** What the cache holds for a pair, under either order. *)
Definition cached (st : sim_state) (a b : string) : option (Q * Q * Q) :=
  match sim_dict st !! (a, b) with
  | Some v => Some v
  | None => sim_dict st !! (b, a)
  end.

(** The lookups of a run, one after the other: each is a pair of names
    with the embeddings of the two. *)
Definition run_lookups {vec : Type} (np_dot cosx cdist : vec -> vec -> Q)
    (st : sim_state) (lookups : list (string * string * vec * vec)) : result sim_state :=
  for_each (fun st q =>
              r ← lookup_or_compute np_dot cosx cdist st q.1.1.1 q.1.1.2 q.1.2 q.2;
              Ok r.2) st lookups.

(** Exactly one of the two indicators of a pair is 1, the other is 0. *)
Definition exactly_one (shape_closer texture_closer : Z) : Prop :=
  shape_closer = 1 /\ texture_closer = 0 \/ shape_closer = 0 /\ texture_closer = 1.

Definition complementary (f : closer_flags) : Prop :=
  exactly_one (shape_dot_closer f) (texture_dot_closer f) /\
  exactly_one (shape_cos_closer f) (texture_cos_closer f) /\
  exactly_one (shape_ed_closer f) (texture_ed_closer f).

(** A row whose six indicator cells read as complementary flags. *)
Definition complementary_row {vec : Type} (r : gmap string (cell vec)) : Prop :=
  exists f, read_flags r = Ok f /\ complementary f.

(** The rows that [calculate_similarity_totals] reads from a directory. *)
Definition table_rows {vec : Type} (sim_dir : list (string * list (gmap string (cell vec))))
  : list (gmap string (cell vec)) :=
  file ← sim_dir; if derived file.1 then [] else file.2.

(** The row is counted in exactly one cell of the matrix. *)
Definition counted_in_one_cell (m m' : closer_matrix) : Prop :=
  m0_0 m' + m0_1 m' + m1_0 m' + m1_1 m' = m0_0 m + m0_1 m + m1_0 m + m1_1 m + 1 /\
  m0_0 m <= m0_0 m' /\ m0_1 m <= m0_1 m' /\ m1_0 m <= m1_0 m' /\ m1_1 m <= m1_1 m'.

(** ** Null-Model Generator: the vectors of [generate_fake_triplets] *)

(** [float(n)] for a count [n]; exact below 2^53. *)
Definition float_of_nat (n : nat) : float :=
  PrimFloat.of_uint63 (Uint63.of_Z (Z.of_nat n)).

(** [min(a, b)] of Python: [b] when [b < a], else [a]. *)
Definition py_min (a b : float) : float := if (b <? a)%float then b else a.

(** The running statistics of lines 404-418; [math.inf] is [infinity]. *)
Record magnitude_stats : Set := {
  avg : float;
  num_embeddings : nat;
  min_e : float;
  max_e : float
}.

(** Lines 456-458: [(mag * l) / current_mag], coordinate by coordinate,
    for a product, a quotient and a norm. *)
Definition rescale_with {A : Type} (mul div : A -> A -> A) (norm : list A -> A)
    (mag : A) (l : list A) : list A :=
  let current_mag := norm l in
  map (fun x => div (mul mag x) current_mag) l.

(** A loop that is still running when its fuel is spent has no result
    ([None]); [and_then] runs the next step after a normal return. *)
Definition and_then {A B : Type} (m : option (result A))
    (k : A -> option (result B)) : option (result B) :=
  match m with
  | None => None
  | Some (Raise e) => Some (Raise e)
  | Some (Ok a) => k a
  end.

Section NullModel.
(** [np.linalg.norm] on a list of doubles (the order of its sum is that of
    the BLAS in use); the value of the [k]-th call of [random.random()];
    the value that the [k]-th call of [np.random.normal(loc, scale)]
    returns when it returns. *)
Variable np_linalg_norm : list float -> float.
Variable random_random : nat -> float.
Variable normal_draws : float -> float -> nat -> float.
Variables np_dot spatial_distance_cosine : list float -> list float -> Q.

(** Lines 412-418: one embedding. *)
Definition stats_step (s : magnitude_stats) (embedding : list float) : magnitude_stats :=
  let mag := np_linalg_norm embedding in
  {| avg := (avg s + mag)%float;
     num_embeddings := S (num_embeddings s);
     min_e := if (mag <? min_e s)%float then mag else min_e s;
     max_e := if (max_e s <? mag)%float then mag else max_e s |}.

(** Lines 404-420; the mean replaces the sum in [avg] at the end. *)
Definition magnitude_statistics (embeddings : list (list float)) : magnitude_stats :=
  let s := foldl stats_step
             {| avg := 0; num_embeddings := 0; min_e := infinity; max_e := 0 |}
             embeddings in
  {| avg := (avg s / float_of_nat (num_embeddings s))%float;
     num_embeddings := num_embeddings s;
     min_e := min_e s;
     max_e := max_e s |}.

(** Lines 456-458 in doubles: the vector scaled towards magnitude [mag]. *)
Definition rescale (mag : float) (l : list float) : list float :=
  rescale_with PrimFloat.mul PrimFloat.div np_linalg_norm mag l.

(** [np.random.normal(loc, scale)]: numpy raises [ValueError] on a scale
    with the sign bit set (that is no NaN). *)
Definition np_random_normal (loc scale : float) (k : nat) : result float :=
  if PrimFloat.get_sign scale then Raise ValueError
  else Ok (normal_draws loc scale k).

(** The number of calls made so far to each generator. *)
Record rng : Set := {
  uniform_calls : nat;
  normal_calls : nat
}.

(** Lines 449-450: [size] uniform coordinates. *)
Fixpoint draw_coordinates (size u : nat) : list float :=
  match size with
  | O => []
  | S size' => random_random u :: draw_coordinates size' (S u)
  end.

(** Lines 452-454: the magnitude is redrawn while it is negative.
    [None]: the loop is still running after [fuel] draws. *)
Fixpoint draw_magnitude (fuel : nat) (loc scale : float) (k : nat)
  : option (result (float * nat)) :=
  match fuel with
  | O => None
  | S fuel' =>
      match np_random_normal loc scale k with
      | Raise e => Some (Raise e)
      | Ok mag =>
          if (mag <? 0)%float then draw_magnitude fuel' loc scale (S k)
          else Some (Ok (mag, S k))
      end
  end.

(** Lines 447-459: one vector. *)
Definition fake_vector (fuel size : nat) (loc scale : float) (g : rng)
  : option (result (list float * rng)) :=
  let l := draw_coordinates size (uniform_calls g) in
  and_then (draw_magnitude fuel loc scale (normal_calls g)) (fun m =>
  Some (Ok (rescale m.1 l,
            {| uniform_calls := (uniform_calls g + size)%nat; normal_calls := m.2 |}))).

(** Lines 438-495: one fake triplet and its row. *)
Definition fake_triplet (fuel size : nat) (loc scale : float) (g : rng)
  : option (result (gmap string (cell (list float)) * rng)) :=
  and_then (fake_vector fuel size loc scale g) (fun a =>
  and_then (fake_vector fuel size loc scale a.2) (fun s =>
  and_then (fake_vector fuel size loc scale s.2) (fun t =>
  Some (Ok (fake_row np_dot spatial_distance_cosine a.1 s.1 t.1, t.2))))).

(** Lines 438-495: the rows of [n] triplets, all of one table. *)
Fixpoint fake_rows (fuel size : nat) (loc scale : float) (n : nat) (g : rng)
  : option (result (list (gmap string (cell (list float))))) :=
  match n with
  | O => Some (Ok [])
  | S n' =>
      and_then (fake_triplet fuel size loc scale g) (fun r =>
      and_then (fake_rows fuel size loc scale n' r.2) (fun rs =>
      Some (Ok (r.1 :: rs))))
  end.

(** [generate_fake_triplets] up to the table written to [fake.csv];
    [embeddings] are the values of the embedding dictionary. *)
Definition generate_fake_triplets (fuel : nat) (embeddings : list (list float)) (n : nat)
  : option (result (list (gmap string (cell (list float))))) :=
  match embeddings with
  | [] => Some (Raise IndexError)
  | first :: _ =>
      let size := length first in
      let s := magnitude_statistics embeddings in
      let scale := (py_min (avg s - min_e s) (max_e s - avg s) / 2)%float in
      fake_rows fuel size (avg s) scale n {| uniform_calls := 0; normal_calls := 0 |}
  end.

(** A vector of the generator: the uniform coordinates of some call,
    scaled by the first draw of a run of normal draws that is not
    negative. *)
Definition produced (loc scale : float) (size : nat) (v : list float) : Prop :=
  exists u k j,
    (forall i, (i < j)%nat -> (normal_draws loc scale (k + i) <? 0)%float = true) /\
    (normal_draws loc scale (k + j) <? 0)%float = false /\
    v = rescale (normal_draws loc scale (k + j)) (draw_coordinates size u).
End NullModel.

(** The Euclidean norm over the real numbers. *)
Definition sumsq (v : list R) : R := fold_right (fun x acc => x * x + acc)%R 0%R v.
Definition norm (v : list R) : R := sqrt (sumsq v).

(** ** The totals as the specification words them *)

(** The rows of the tables of the directory that [calculate_totals] reads,
    each with the shape category of its table. *)
Definition tagged_rows (result_dir : list (string * list DecisionRow))
  : list (string * DecisionRow) :=
  file ← result_dir;
  if skipped file.1 then []
  else match file.2 with
       | [] => []
       | first :: _ => (fun row => (Shape first, row)) <$> file.2
       end.

(** The rows counted for a shape category: those of its tables whose
    restricted-shape indicator differs from the restricted-texture one. *)
Definition counted_rows (shape : string) (result_dir : list (string * list DecisionRow))
  : list DecisionRow :=
  snd <$> filter (fun p => p.1 = shape /\
                          Restricted_Shape_Decision p.2 ≠ Restricted_Texture_Decision p.2)
            (tagged_rows result_dir).

Definition Zsum (l : list Z) : Z := foldr Z.add 0 l.

(** The per-category rows of a totals table: all but the last. *)
Definition category_rows (shape_categories : list string)
    (result_df : list (option TotalsRow)) : list TotalsRow :=
  omap (fun r => r) (take (length shape_categories) result_df).

(** A dictionary that holds [g c] at every category [c] and nothing else. *)
Definition dict_is (cats : list string) (g : string -> Z) (d : gmap string Z) : Prop :=
  forall c, d !! c = if decide (c ∈ cats) then Some (g c) else None.

(** The sum of a column over the counted rows of a category, on tagged
    rows. *)
Definition counted (col : DecisionRow -> Z) (c : string)
    (rows : list (string * DecisionRow)) : Z :=
  Zsum (col <$> (snd <$> filter (fun p => p.1 = c /\
           Restricted_Shape_Decision p.2 ≠ Restricted_Texture_Decision p.2) rows)).

(** The five dictionaries hold the counts [F column category]. *)
Definition dicts_are (cats : list string) (F : (DecisionRow -> Z) -> string -> Z)
    (d : totals_dicts) : Prop :=
  dict_is cats (F Shape_Decision) (shape_dict d) /\
  dict_is cats (F Texture_Decision) (texture_dict d) /\
  dict_is cats (F Neither) (neither_dict d) /\
  dict_is cats (F Restricted_Shape_Decision) (restricted_shape_dict d) /\
  dict_is cats (F Restricted_Texture_Decision) (restricted_texture_dict d).

(** The body of the row loop, on a tagged row. *)
Definition tagged_step (d : totals_dicts) (p : string * DecisionRow) : result totals_dicts :=
  totals_row_step p.1 d p.2.

(** Every table that is read has a first row, and its shape is a category. *)
Definition tables_of_categories (cats : list string)
    (result_dir : list (string * list DecisionRow)) : Prop :=
  Forall (fun file => skipped file.1 = false ->
            exists first rest, file.2 = first :: rest /\ Shape first ∈ cats) result_dir.

(** The row of [totals.csv] of a category whose counts are given by [F]. *)
Definition row_of (F : (DecisionRow -> Z) -> string -> Z) (shape : string) : TotalsRow :=
  {| Shape_Category := shape;
     Number_Shape_Decisions := F Shape_Decision shape;
     Number_Texture_Decisions := F Texture_Decision shape;
     Number_Neither := F Neither shape;
     Number_Restricted_Shape_Decisions := F Restricted_Shape_Decision shape;
     Number_Restricted_Texture_Decisions := F Restricted_Texture_Decision shape;
     Total_Number_Stimuli :=
       F Shape_Decision shape + F Texture_Decision shape + F Neither shape |}.

(** ** Sample inputs *)

Definition decision_row (shape : string) (sd td n rs rt : Z) : DecisionRow :=
  {| Shape := shape; Shape_Decision := sd; Texture_Decision := td; Neither := n;
     Restricted_Shape_Decision := rs; Restricted_Texture_Decision := rt |}.

(** A result directory with two tables; the third row of [cat.csv] is a
    stimulus whose texture is its shape, so both restricted indicators
    are 1. *)
Definition sample_result_dir : list (string * list DecisionRow) :=
  [("cat.csv", [decision_row "cat" 1 0 0 1 0;
                decision_row "cat" 0 0 1 0 1;
                decision_row "cat" 1 1 0 1 1]);
   ("totals.csv", []);
   ("truck.csv", [decision_row "truck" 0 1 0 0 1]);
   ("proportions.txt", [])]%string.

Definition totals_row (category : string) (s t n rs rt total : Z) : TotalsRow :=
  {| Shape_Category := category;
     Number_Shape_Decisions := s; Number_Texture_Decisions := t; Number_Neither := n;
     Number_Restricted_Shape_Decisions := rs; Number_Restricted_Texture_Decisions := rt;
     Total_Number_Stimuli := total |}.

(** A totals table of two categories: 80 shape and 20 texture decisions. *)
Definition sample_totals : list (option TotalsRow) :=
  [Some (totals_row "cat" 50 10 0 52 8 60);
   Some (totals_row "truck" 30 10 0 31 9 40);
   Some (totals_row "total" 80 20 0 83 17 100)]%string.

(** A totals table of a run without any shape or texture decision. *)
Definition sample_totals_neither : list (option TotalsRow) :=
  [Some (totals_row "cat" 0 0 3 2 1 3);
   Some (totals_row "total" 0 0 3 2 1 3)]%string.

(** The invariant of the cache: the log lists the keys of the dictionary,
    and no unordered pair was computed twice. *)
Definition cache_inv (st : sim_state) : Prop :=
  (forall p, p ∈ computed st <-> is_Some (sim_dict st !! p)) /\
  computed_once (computed st).

(** The states that a run of lookups reaches from the empty cache. *)
Definition reached {vec : Type} (np_dot cosx cdist : vec -> vec -> Q) (st : sim_state)
  : Prop :=
  exists lookups, run_lookups np_dot cosx cdist empty_sim_state lookups = Ok st.

(** A row of a triplet that holds what the cache holds for its two legs. *)
Definition row_of_cache {vec : Type} (st : sim_state) (r : gmap string (cell vec)) : Prop :=
  exists base anchor shape_match texture_match shape_v texture_v,
    r = triplet_row base shape_match texture_match shape_v texture_v /\
    cached st anchor shape_match = Some shape_v /\
    cached st anchor texture_match = Some texture_v.

(** The row is counted in no cell of the matrix: one of its two pairs of
    indicators names no side. *)
Definition dropped (f : closer_flags) : Prop :=
  shape_dot_closer f = 1 /\ shape_cos_closer f ≠ 1 /\ texture_cos_closer f ≠ 1
  \/ shape_dot_closer f ≠ 1 /\ texture_dot_closer f = 1 /\
     shape_cos_closer f ≠ 1 /\ texture_cos_closer f ≠ 1
  \/ shape_dot_closer f ≠ 1 /\ texture_dot_closer f ≠ 1.

(** The row names a winner for the dot product and one for the cosine. *)
Definition names_winners (f : closer_flags) : Prop :=
  (shape_dot_closer f = 1 \/ texture_dot_closer f = 1) /\
  (shape_cos_closer f = 1 \/ texture_cos_closer f = 1).

(** The counters of the proportions mode add up: each pair of sums is the
    number of rows. *)
Definition sums_add_up (s : closer_sums) : Prop :=
  shape_dot s + texture_dot s = num_rows s /\
  shape_cos s + texture_cos s = num_rows s /\
  shape_ed s + texture_ed s = num_rows s.

Definition matrix_total (m : closer_matrix) : Z :=
  m0_0 m + m0_1 m + m1_0 m + m1_1 m.

(** The library results for three sample vectors: 0 is the anchor, 1 its
    shape match, 2 its texture match. The shape leg has dot product 5,
    cosine similarity 9/10 and distance 2; the texture leg has 3, 1/2
    and 1. The cosine distance of scipy is 1 minus the similarity. *)
Definition sample_dot (u v : nat) : Q :=
  match u, v with
  | 0%nat, 1%nat | 1%nat, 0%nat => 5
  | 0%nat, 2%nat | 2%nat, 0%nat => 3
  | _, _ => 0
  end.

Definition sample_cosx (u v : nat) : Q :=
  match u, v with
  | 0%nat, 1%nat | 1%nat, 0%nat => 9 # 10
  | 0%nat, 2%nat | 2%nat, 0%nat => 1 # 2
  | _, _ => 0
  end.

Definition sample_cdist (u v : nat) : Q :=
  match u, v with
  | 0%nat, 1%nat | 1%nat, 0%nat => 2
  | 0%nat, 2%nat | 2%nat, 0%nat => 1
  | _, _ => 0
  end.

Definition sample_spatial_distance_cosine (u v : nat) : Q :=
  1 - sample_cosx u v.

(** Two anchors with one triplet each; the shape leg of the second anchor
    is the shape leg of the first in the other order. *)
Definition sample_triplets : GeirhosTriplets :=
  {| images := ["cat1-truck1.png"; "cat2-dog1.png"];
     shape_classes :=
       {[ "cat1-truck1.png" := ("cat1", "truck1");
          "cat2-dog1.png" := ("cat2", "dog1") ]};
     triplets_by_image :=
       {[ "cat1-truck1.png" :=
            [("cat1-truck1.png", "cat2-dog1.png", "bird1-truck2.png")];
          "cat2-dog1.png" :=
            [("cat2-dog1.png", "cat1-truck1.png", "bird2-dog3.png")] ]} |}%string.

Definition sample_embeddings : gmap string nat :=
  {[ "cat1-truck1.png" := 0%nat; "cat2-dog1.png" := 1%nat;
     "bird1-truck2.png" := 2%nat; "bird2-dog3.png" := 3%nat ]}%string.

(** A table with one row whose cosine indicators are both 0. *)
Definition sample_degenerate_dir : list (string * list (gmap string (cell nat))) :=
  [("cat1-truck1.csv",
    [ {[ "Shape Dot Closer" := CInt 1; "Texture Dot Closer" := CInt 0;
         "Shape Cos Closer" := CInt 0; "Texture Cos Closer" := CInt 0;
         "Shape ED Closer" := CInt 0; "Texture ED Closer" := CInt 1 ]} ])]%string.

(** ** The magnitudes, as the specification words them *)

(** The sum of a list of doubles, in the order of the list. *)
Definition float_sum (l : list float) : float := foldl PrimFloat.add 0%float l.

(** The empirical mean of a list of magnitudes. *)
Definition mean (l : list float) : float :=
  (float_sum l / float_of_nat (length l))%float.

(** The smallest magnitude, as a running minimum from [math.inf] keeps it,
    and the largest, as a running maximum from 0 does. *)
Definition least (l : list float) : float :=
  foldl (fun m x => if (x <? m)%float then x else m) infinity l.
Definition greatest (l : list float) : float :=
  foldl (fun m x => if (m <? x)%float then x else m) 0%float l.

(** Sample generators: [np.linalg.norm] as the square root of the sum of
    the squares (on one coordinate, whatever the BLAS); every uniform draw
    is 7/10; the first normal draw is -1 and is rejected, the later ones
    are 3. *)
Definition sample_norm (v : list float) : float :=
  PrimFloat.sqrt (foldl (fun acc x => acc + x * x)%float 0%float v).
Definition sample_random_random (k : nat) : float := (7 / 10)%float.
Definition sample_normal_draws (loc scale : float) (k : nat) : float :=
  match k with
  | O => (-1)%float
  | S _ => 3%float
  end.

(** Embeddings of one coordinate: two of magnitudes 5 and 10, and three of
    magnitude 1/10. *)
Definition sample_magnitudes : list (list float) := [[5%float]; [10%float]].
Definition sample_equal_magnitudes : list (list float) :=
  [[(1 / 10)%float]; [(1 / 10)%float]; [(1 / 10)%float]].

(** ** The indices that [plot_class_values] highlights *)

(** [max(l)] for a non-empty list: the first of the largest elements. *)
Fixpoint max_from (best : Q) (l : list Q) : Q :=
  match l with
  | [] => best
  | x :: l' => max_from (if Qgtb x best then x else best) l'
  end.

Definition py_max (l : list Q) : result Q :=
  match l with
  | [] => Raise ValueError
  | x :: l' => Ok (max_from x l')
  end.

(** [l.index(x)] on floats: the first position whose value equals [x]. *)
Fixpoint index_float (x : Q) (l : list Q) : result nat :=
  match l with
  | [] => Raise ValueError
  | y :: l' => if Qeq_bool y x then Ok O else i ← index_float x l'; Ok (S i)
  end.

(** Lines 37-40 of [plot_class_values]: the index and the name of the
    decision bar, and the indices of the shape and texture bars. *)
Definition plot_indices (categories : list string) (class_values : list Q)
    (shape texture : string) : result (nat * string * nat * nat) :=
  m ← py_max class_values;
  decision_idx ← index_float m class_values;
  decision ← getitem categories decision_idx;
  shape_idx ← index shape categories;
  texture_idx ← index texture categories;
  Ok (decision_idx, decision, shape_idx, texture_idx).



(** The inputs of [triplets] are complete: every image has its triplets and
    its specimens, and every image of a triplet has an embedding. *)
Definition engine_inputs_ok {vec : Type} (embeddings : gmap string vec)
    (t : GeirhosTriplets) : Prop :=
  forall anchor, anchor ∈ images t ->
    exists trs spec,
      triplets_by_image t !! anchor = Some trs /\
      shape_classes t !! anchor = Some spec /\
      forall tr, tr ∈ trs ->
        is_Some (embeddings !! anchor) /\ is_Some (embeddings !! tr.1.2) /\
        is_Some (embeddings !! tr.2).

(** [results.to_csv(path)] without [index=False], read back by
    [pd.read_csv]: the index is written as a first column without a name,
    which is read as the column 'Unnamed: 0'. *)
Definition csv_with_index {vec : Type} (df : list (gmap string (cell vec)))
  : list (gmap string (cell vec)) :=
  imap (fun i r => <["Unnamed: 0"%string := CInt (Z.of_nat i)]> r) df.

(** The proportions of the matrix mode's cells: the zero matrix. *)
Definition zero_matrix : closer_matrix :=
  {| m0_0 := 0; m0_1 := 0; m1_0 := 0; m1_1 := 0 |}.

(** The sums of the proportions mode are the margins of the matrix. *)
Definition margins (s : closer_sums) (m : closer_matrix) : Prop :=
  shape_dot s = m0_0 m + m1_0 m /\ texture_dot s = m0_1 m + m1_1 m /\
  shape_cos s = m0_0 m + m0_1 m /\ texture_cos s = m1_0 m + m1_1 m.

(** The indicator cells of a row of a similarity table. *)
Definition flag_cells (sd sc se td tc te : Z) : gmap string (cell nat) :=
  {[ "Shape Dot Closer" := CInt sd; "Shape Cos Closer" := CInt sc;
     "Shape ED Closer" := CInt se; "Texture Dot Closer" := CInt td;
     "Texture Cos Closer" := CInt tc; "Texture ED Closer" := CInt te ]}%string.

(** A directory with two tables and the proportions of an earlier run. *)
Definition sample_sim_dir : list (string * list (gmap string (cell nat))) :=
  [("cat1-truck1.csv", [flag_cells 1 1 0 0 0 1; flag_cells 1 0 0 0 1 1]);
   ("proportions.csv", [∅]);
   ("cat2-dog1.csv", [flag_cells 0 1 1 1 0 0])]%string.

(** A table with a row for each way in which the two winners disagree:
    the dot product names the shape match and the cosine the texture
    match, and the reverse. *)
Definition sample_disagreeing_dir : list (string * list (gmap string (cell nat))) :=
  [("cat1-truck1.csv", [flag_cells 1 0 1 0 1 0; flag_cells 0 1 0 1 0 1])]%string.

(** ** Embedding Cache: [get_embeddings] *)

Section Embeddings.
(** The images of the data set, the model without its last layer, and
    [nn.Softmax] followed by the conversion to a list (line 828-830). *)
Variables image tensor vec : Type.
Variable penult_model : image -> tensor.
Variable nn_softmax : tensor -> vec.

(** Lines 821-830: the dictionary of the embeddings, keyed by image name;
    an item of the data set is an image with its name. *)
Definition get_embeddings (dataset : list (image * string)) : gmap string vec :=
  foldl (fun embedding_dict item =>
           <[item.2 := nn_softmax (penult_model item.1)]> embedding_dict) ∅ dataset.

(** Lines 917-920 and 399-402: the stored embeddings when their file
    exists, else those of [get_embeddings]. *)
Definition load_embeddings (stored : option (gmap string vec))
    (dataset : list (image * string)) : gmap string vec :=
  match stored with
  | Some embeddings => embeddings
  | None => get_embeddings dataset
  end.
End Embeddings.

Arguments get_embeddings {image tensor vec} penult_model nn_softmax dataset.
Arguments load_embeddings {image tensor vec} penult_model nn_softmax stored dataset.

(** ** The decision run: the [__main__] loop and [csv_class_values] *)

(** [s[:-1:]] *)
Definition drop_last1 (s : string) : string :=
  String.substring 0 (String.length s - 1) s.

(** A stimulus of the data loader, with what the model and the mapping
    [probabilities_to_decision] return for its image: the decision and the
    sixteen class values. *)
Record Stimulus : Set := {
  stim_shape : string;
  stim_texture : string;
  stim_texture_spec : string;
  stim_decision : string;
  stim_class_values : list Q
}.

(** The list stored per stimulus (lines 984-985). *)
Record DecisionEntry : Type := {
  entry_decision : string;
  entry_class_values : list Q;
  entry_decision_restricted : string;
  entry_restricted_class_values : list R
}.

(** The two dictionaries of the loop: [shape_dict] (here [main_shape_dict],
    the name [shape_dict] being taken by [calculate_totals]) and
    [shape_spec_dict]. *)
Record main_state : Type := {
  main_shape_dict : gmap string (gmap string (option DecisionEntry));
  shape_spec_dict : gmap string (list string)
}.

(** Lines 932-933: [dict.fromkeys] of the category names with a ['0']. *)
Definition shape_dict0 (shape_categories : list string)
  : gmap string (option DecisionEntry) :=
  foldl (fun d shape => <[shape +:+ "0" := None]> d) ∅ shape_categories.

(** Lines 931-938. *)
Definition main_init (shape_categories : list string) : main_state :=
  {| main_shape_dict :=
       foldl (fun d shape => <[shape := shape_dict0 shape_categories]> d) ∅
         shape_categories;
     shape_spec_dict :=
       foldl (fun d shape => <[shape := []]> d) ∅ shape_categories |}.

(** Lines 953-986: one stimulus. *)
Definition main_step (shape_categories : list string) (st : main_state)
    (stim : Stimulus) : result main_state :=
  let shape := stim_shape stim in
  let texture := stim_texture stim in
  let class_values := stim_class_values stim in
  decision_restricted ← decision_restricted shape_categories class_values shape texture;
  restricted_class_values ←
    restricted_class_values shape_categories class_values shape texture;
  inner ← dict_get (main_shape_dict st) shape;
  let entry := {| entry_decision := stim_decision stim;
                  entry_class_values := class_values;
                  entry_decision_restricted := decision_restricted;
                  entry_restricted_class_values := restricted_class_values |} in
  specs ← dict_get (shape_spec_dict st) shape;
  Ok {| main_shape_dict :=
          <[shape := <[stim_texture_spec stim +:+ "0" := Some entry]> inner]>
            (main_shape_dict st);
        shape_spec_dict :=
          <[shape := specs ++ [stim_texture_spec stim]]> (shape_spec_dict st) |}.

(** [int(a == b)] *)
Definition int_eq (a b : string) : Z := if decide (a = b) then 1 else 0.

(** Lines 110-131: the row of one specific texture, with the columns that
    [calculate_totals] reads; the assignments to [row] are assignments to
    the table. An entry that was never stored is [None], and subscripting
    it raises [TypeError]. *)
Definition csv_row (shape_categories : list string)
    (shape_dict : gmap string (gmap string (option DecisionEntry)))
    (shape texture : string) : result DecisionRow :=
  inner ← dict_get shape_dict shape;
  stored ← dict_get inner (texture +:+ "0");
  entry ← match stored with Some entry => Ok entry | None => Raise TypeError end;
  let decision := entry_decision entry in
  let class_values := entry_class_values entry in
  let decision_restricted := entry_decision_restricted entry in
  let restricted_class_values := entry_restricted_class_values entry in
  shape_idx ← index shape shape_categories;
  _ ← getitem class_values shape_idx;
  texture_idx ← index (drop_last1 texture) shape_categories;
  _ ← getitem class_values texture_idx;
  decision_idx ← index decision shape_categories;
  _ ← getitem class_values decision_idx;
  _ ← getitem restricted_class_values 0;
  _ ← getitem restricted_class_values 1;
  Ok {| Shape := shape;
        Shape_Decision := int_eq decision shape;
        Texture_Decision := int_eq decision (drop_last1 texture);
        Neither := if decide (decision ≠ shape /\ decision ≠ drop_last1 texture)
                   then 1 else 0;
        Restricted_Shape_Decision := int_eq shape decision_restricted;
        Restricted_Texture_Decision := int_eq (drop_last1 texture) decision_restricted |}.

(** A loop that collects the values of its body. *)
Fixpoint map_result {A B : Type} (f : A -> result B) (l : list A) : result (list B) :=
  match l with
  | [] => Ok []
  | a :: l' => b ← f a; bs ← map_result f l'; Ok (b :: bs)
  end.

(** [csv_class_values]: the tables written, one per shape category, each
    under the name of its file in the result directory. *)
Definition csv_class_values (shape_dict : gmap string (gmap string (option DecisionEntry)))
    (shape_categories : list string) (shape_spec_dict : gmap string (list string))
  : result (list (string * list DecisionRow)) :=
  map_result (fun shape =>
                specific_textures ← dict_get shape_spec_dict shape;
                df ← map_result (csv_row shape_categories shape_dict shape)
                       specific_textures;
                Ok (shape +:+ ".csv", df)) shape_categories.

(** Lines 931-988: the loop over the stimuli and the tables written. *)
Definition main_tables (shape_categories : list string) (stimuli : list Stimulus)
  : result (list (string * list DecisionRow)) :=
  st ← for_each (main_step shape_categories) (main_init shape_categories) stimuli;
  csv_class_values (main_shape_dict st) shape_categories (shape_spec_dict st).

(** Lines 931-989: the loop over the stimuli, the tables, and the totals
    of the tables; the result directory holds the tables just written. *)
Definition decision_totals (shape_categories : list string) (stimuli : list Stimulus)
  : result (list (option TotalsRow)) :=
  st ← for_each (main_step shape_categories) (main_init shape_categories) stimuli;
  tables ← csv_class_values (main_shape_dict st) shape_categories (shape_spec_dict st);
  calculate_totals shape_categories tables.

(** A stimulus whose labels and decision are categories and whose class
    values cover the categories. *)
Definition stimulus_ok (shape_categories : list string) (stim : Stimulus) : Prop :=
  stim_shape stim ∈ shape_categories /\ stim_texture stim ∈ shape_categories /\
  stim_decision stim ∈ shape_categories /\
  (length shape_categories <= length (stim_class_values stim))%nat.

(** The specific texture of a stimulus is its texture with one more
    character (a digit, in the data set). *)
Definition texture_spec_ok (stim : Stimulus) : Prop :=
  drop_last1 (stim_texture_spec stim) = stim_texture stim.

(** The cue-conflict stimuli of a shape: those with another texture. *)
Definition cue_conflicts (shape : string) (stimuli : list Stimulus) : list Stimulus :=
  filter (fun stim => stim_shape stim = shape /\ stim_texture stim ≠ shape) stimuli.

(** The entry that the loop stores for a stimulus. *)
Definition entry_of (shape_categories : list string) (stim : Stimulus)
    (entry : DecisionEntry) : Prop :=
  entry_decision entry = stim_decision stim /\
  entry_class_values entry = stim_class_values stim /\
  decision_restricted shape_categories (stim_class_values stim)
    (stim_shape stim) (stim_texture stim) = Ok (entry_decision_restricted entry) /\
  restricted_class_values shape_categories (stim_class_values stim)
    (stim_shape stim) (stim_texture stim) = Ok (entry_restricted_class_values entry).

(** The two dictionaries after the stimuli [done]: the specific textures
    of a shape in the order of the stimuli, and under the key of every
    stimulus an entry, each entry being the one of a stimulus of that shape
    and key. *)
Definition main_inv (shape_categories : list string) (done : list Stimulus)
    (st : main_state) : Prop :=
  (forall c, shape_spec_dict st !! c
             = if decide (c ∈ shape_categories)
               then Some (stim_texture_spec <$> filter (fun s => stim_shape s = c) done)
               else None) /\
  (forall c, c ∈ shape_categories ->
     exists inner, main_shape_dict st !! c = Some inner /\
       (forall s, s ∈ done -> stim_shape s = c ->
          exists e, inner !! (stim_texture_spec s +:+ "0") = Some (Some e)) /\
       (forall k e, inner !! k = Some (Some e) ->
          exists s, s ∈ done /\ stim_shape s = c /\
            k = stim_texture_spec s +:+ "0" /\ entry_of shape_categories s e)).

(** The row of a stimulus of shape [c] and texture [t] as the totals see
    it: its restricted indicators differ exactly when [t] is another
    category, and then one of its three decision columns is 1 and one of
    its two restricted columns is 1. *)
Definition row_counts (c t : string) (r : DecisionRow) : Prop :=
  Shape r = c /\
  (t = c -> Restricted_Shape_Decision r = Restricted_Texture_Decision r) /\
  (t ≠ c ->
     Restricted_Shape_Decision r ≠ Restricted_Texture_Decision r /\
     Shape_Decision r + Texture_Decision r + Neither r = 1 /\
     Restricted_Shape_Decision r + Restricted_Texture_Decision r = 1).

(** The rows of a table that the totals count. *)
Definition counted_of (rows : list DecisionRow) : list DecisionRow :=
  filter (fun r => Restricted_Shape_Decision r ≠ Restricted_Texture_Decision r) rows.

(** Every stored entry is the entry of the last stimulus of its shape and
    key. *)
Definition main_last (shape_categories : list string) (done : list Stimulus)
    (st : main_state) : Prop :=
  forall c inner k e,
    main_shape_dict st !! c = Some inner -> inner !! k = Some (Some e) ->
    exists s, last (filter (fun s => stim_shape s = c /\ stim_texture_spec s +:+ "0" = k)
                      done) = Some s
              /\ entry_of shape_categories s e.

(** The restricted decision of a stimulus. *)
Definition restricted_of (shape_categories : list string) (stim : Stimulus) : string :=
  match decision_restricted shape_categories (stim_class_values stim)
          (stim_shape stim) (stim_texture stim) with
  | Ok decision_restricted => decision_restricted
  | Raise _ => ""
  end.

(** The stimulus whose entry the dictionary holds under the key of [stim]
    after the loop: the last one of the same shape and specific texture. *)
Definition stored_stimulus (stimuli : list Stimulus) (stim : Stimulus) : Stimulus :=
  default stim
    (last (filter (fun s => stim_shape s = stim_shape stim
                            /\ stim_texture_spec s = stim_texture_spec stim) stimuli)).

(** The row of a stimulus in the table of its shape. *)
Definition stored_row (shape_categories : list string) (stimuli : list Stimulus)
    (stim : Stimulus) : DecisionRow :=
  let from := stored_stimulus stimuli stim in
  let texture := drop_last1 (stim_texture_spec stim) in
  {| Shape := stim_shape stim;
     Shape_Decision := int_eq (stim_decision from) (stim_shape stim);
     Texture_Decision := int_eq (stim_decision from) texture;
     Neither := if decide (stim_decision from ≠ stim_shape stim
                           /\ stim_decision from ≠ texture) then 1 else 0;
     Restricted_Shape_Decision :=
       int_eq (stim_shape stim) (restricted_of shape_categories from);
     Restricted_Texture_Decision :=
       int_eq texture (restricted_of shape_categories from) |}.

Definition stimulus (shape texture texture_spec decision : string) (cv : list Q)
  : Stimulus :=
  {| stim_shape := shape; stim_texture := texture; stim_texture_spec := texture_spec;
     stim_decision := decision; stim_class_values := cv |}.

Definition sample_categories : list string := ["cat"; "dog"; "bird"]%string.

Definition sample_stimuli : list Stimulus :=
  [stimulus "cat" "dog" "dog1" "cat" [6 # 10; 3 # 10; 1 # 10];
   stimulus "cat" "cat" "cat2" "cat" [8 # 10; 1 # 10; 1 # 10];
   stimulus "dog" "cat" "cat1" "bird" [2 # 10; 2 # 10; 6 # 10];
   stimulus "cat" "bird" "bird3" "dog" [1 # 10; 5 # 10; 4 # 10];
   stimulus "bird" "bird" "bird1" "bird" [1 # 10; 1 # 10; 8 # 10]]%string.

(** A texture numbered with two digits. *)
Definition sample_two_digits : Stimulus :=
  stimulus "dog" "cat" "cat10" "dog" [2 # 10; 7 # 10; 1 # 10].

(** Two stimuli of the same shape and specific texture. *)
Definition sample_overwritten : list Stimulus :=
  [stimulus "cat" "dog" "dog1" "cat" [6 # 10; 3 # 10; 1 # 10];
   stimulus "cat" "dog" "dog1" "bird" [1 # 10; 3 # 10; 6 # 10]]%string.

(** * Properties *)

(** ** Primitives *)

Lemma Qgtb_true (x y : Q) : Qgtb x y = true <-> (y < x)%Q.
Proof.
  unfold Qgtb. rewrite negb_true_iff. split.
  - intros H. apply Qnot_le_lt. intros Hle.
    apply Qle_bool_iff in Hle. congruence.
  - intros H. destruct (Qle_bool x y) eqn:E; [|reflexivity].
    apply Qle_bool_iff in E. exfalso. exact (Qlt_not_le _ _ H E).
Qed.

Lemma Qgtb_false (x y : Q) : Qgtb x y = false <-> (x <= y)%Q.
Proof.
  unfold Qgtb. rewrite negb_false_iff. apply Qle_bool_iff.
Qed.

Lemma index_lookup (x : string) (l : list string) (i : nat) :
  index x l = Ok i -> l !! i = Some x.
Proof.
  revert i. induction l as [|y l IH]; intros i; simpl; [discriminate|].
  destruct (decide (y = x)) as [->|Hne].
  - intros [= <-]. reflexivity.
  - destruct (index x l) as [j|e] eqn:E; simpl; [|discriminate].
    intros [= <-]. simpl. apply IH. reflexivity.
Qed.

Lemma index_elem_of (x : string) (l : list string) :
  x ∈ l -> exists i, index x l = Ok i.
Proof.
  induction l as [|y l IH]; [intros H; inversion H|].
  intros H. simpl. destruct (decide (y = x)) as [->|Hne]; [eauto|].
  apply elem_of_cons in H as [->|H]; [congruence|].
  destruct (IH H) as [i ->]. simpl. eauto.
Qed.

Lemma getitem_Ok {A : Type} (l : list A) (i : nat) (a : A) :
  getitem l i = Ok a <-> l !! i = Some a.
Proof.
  unfold getitem. destruct (l !! i); split; congruence.
Qed.

(** ** Decision Reducer *)

Lemma score_Ok (cats : list string) (cv : list Q) (label : string) (c : Q) :
  score cats cv label = Ok c ->
  exists i, index label cats = Ok i /\ getitem cv i = Ok c /\ getitem cats i = Ok label.
Proof.
  unfold score. destruct (index label cats) as [i|e] eqn:E; simpl; [|discriminate].
  intros H. exists i. repeat split; [exact H|].
  apply getitem_Ok, index_lookup, E.
Qed.

Lemma decision_restricted_scores (cats : list string) (cv : list Q)
    (shape texture : string) (cs ct : Q) :
  score cats cv shape = Ok cs -> score cats cv texture = Ok ct ->
  decision_restricted cats cv shape texture
  = Ok (if Qgtb cs ct then shape else texture).
Proof.
  intros Hs Ht.
  apply score_Ok in Hs as (i & Hi & Hci & Hli).
  apply score_Ok in Ht as (j & Hj & Hcj & Hlj).
  unfold decision_restricted. rewrite Hi, Hj. simpl. rewrite Hci, Hcj. simpl.
  destruct (Qgtb cs ct); assumption.
Qed.

Lemma score_defined (cats : list string) (cv : list Q) (label : string) :
  length cv = length cats -> label ∈ cats -> exists c, score cats cv label = Ok c.
Proof.
  intros Hlen Hin. destruct (index_elem_of _ _ Hin) as [i Hi].
  unfold score. rewrite Hi. simpl.
  pose proof (index_lookup _ _ _ Hi) as Hl.
  apply lookup_lt_Some in Hl. rewrite <- Hlen in Hl.
  apply lookup_lt_is_Some in Hl as [c Hc].
  exists c. apply getitem_Ok, Hc.
Qed.

(** C1 (as amended): for every 16-element score vector and every pair of
    labels of the category list, the restricted decision is the shape label
    when its score is strictly higher than the score of the texture label,
    and the texture label otherwise; a tie goes to the texture label. *)
Theorem decision_restricted_strict (cats : list string) (cv : list Q)
    (shape texture : string) :
  length cats = 16%nat -> length cv = 16%nat -> shape ∈ cats -> texture ∈ cats ->
  exists cs ct,
    score cats cv shape = Ok cs /\ score cats cv texture = Ok ct /\
    ((ct < cs)%Q -> decision_restricted cats cv shape texture = Ok shape) /\
    ((cs < ct)%Q -> decision_restricted cats cv shape texture = Ok texture) /\
    ((cs == ct)%Q -> decision_restricted cats cv shape texture = Ok texture).
Proof.
  intros Hcats Hcv Hs Ht.
  destruct (score_defined cats cv shape) as [cs Hcs]; [congruence|assumption|].
  destruct (score_defined cats cv texture) as [ct Hct]; [congruence|assumption|].
  exists cs, ct. rewrite (decision_restricted_scores _ _ _ _ _ _ Hcs Hct).
  repeat split; try assumption; intros H.
  - apply Qgtb_true in H. rewrite H. reflexivity.
  - apply Qlt_le_weak, Qgtb_false in H. rewrite H. reflexivity.
  - assert (Hle : (cs <= ct)%Q) by (rewrite H; apply Qle_refl).
    apply Qgtb_false in Hle. rewrite Hle. reflexivity.
Qed.

Lemma decision_restricted_strict_witness :
  exists cs ct,
    score geirhos_categories (replicate 16 0%Q) "cat" = Ok cs /\
    score geirhos_categories (replicate 16 0%Q) "truck" = Ok ct /\
    ((ct < cs)%Q ->
     decision_restricted geirhos_categories (replicate 16 0%Q) "cat" "truck" = Ok "cat"%string) /\
    ((cs < ct)%Q ->
     decision_restricted geirhos_categories (replicate 16 0%Q) "cat" "truck" = Ok "truck"%string) /\
    ((cs == ct)%Q ->
     decision_restricted geirhos_categories (replicate 16 0%Q) "cat" "truck" = Ok "truck"%string).
Proof.
  apply (decision_restricted_strict geirhos_categories (replicate 16 0%Q) "cat" "truck").
  - reflexivity.
  - reflexivity.
  - unfold geirhos_categories. set_solver.
  - unfold geirhos_categories. set_solver.
Defined.

(** C1 (as stated) fails: on the all-zero vector the scores of "cat" and
    "truck" are equal and the restricted decision is the texture label
    "truck", not the shape label "cat". *)
Lemma decision_restricted_tie_not_shape :
  score geirhos_categories (replicate 16 0%Q) "cat" = Ok 0%Q /\
  score geirhos_categories (replicate 16 0%Q) "truck" = Ok 0%Q /\
  decision_restricted geirhos_categories (replicate 16 0%Q) "cat" "truck"
  = Ok "truck"%string /\
  decision_restricted geirhos_categories (replicate 16 0%Q) "cat" "truck"
  <> Ok "cat"%string.
Proof.
  repeat split; try reflexivity. vm_compute. discriminate.
Qed.

Lemma softmax_pair (a b : R) :
  softmax [a; b] = [(exp a / (exp a + exp b))%R; (exp b / (exp a + exp b))%R].
Proof.
  unfold softmax. simpl. rewrite Rplus_0_r. reflexivity.
Qed.

Lemma softmax_pair_sum (a b : R) :
  (exp a / (exp a + exp b) + exp b / (exp a + exp b) = 1)%R.
Proof.
  pose proof (exp_pos a). pose proof (exp_pos b).
  field. lra.
Qed.

(** C2: when the scores of the shape label and of the texture label
    differ, the restricted decision is the label with the higher score,
    and the restricted 2-vector, the softmax of the two scores, sums to 1
    over the reals. *)
Theorem restricted_decision_higher_score (cats : list string) (cv : list Q)
    (shape texture : string) (cs ct : Q) :
  score cats cv shape = Ok cs -> score cats cv texture = Ok ct ->
  ~ (cs == ct)%Q ->
  ((ct < cs)%Q /\ decision_restricted cats cv shape texture = Ok shape
   \/ (cs < ct)%Q /\ decision_restricted cats cv shape texture = Ok texture) /\
  exists p q : R,
    restricted_class_values cats cv shape texture = Ok [p; q] /\
    p = (exp (Q2R cs) / (exp (Q2R cs) + exp (Q2R ct)))%R /\
    q = (exp (Q2R ct) / (exp (Q2R cs) + exp (Q2R ct)))%R /\
    (p + q = 1)%R.
Proof.
  intros Hcs Hct Hne. split.
  - rewrite (decision_restricted_scores _ _ _ _ _ _ Hcs Hct).
    destruct (Qgtb cs ct) eqn:E.
    + left. split; [apply Qgtb_true, E|reflexivity].
    + right. split; [|reflexivity].
      apply Qgtb_false in E. apply Qle_lteq in E as [Hlt|Heq]; [exact Hlt|].
      contradiction.
  - apply score_Ok in Hcs as (i & Hi & Hci & _).
    apply score_Ok in Hct as (j & Hj & Hcj & _).
    unfold restricted_class_values. rewrite Hi, Hj. simpl. rewrite Hci, Hcj. simpl.
    rewrite softmax_pair. eexists _, _. split; [reflexivity|].
    split; [reflexivity|]. split; [reflexivity|]. apply softmax_pair_sum.
Qed.

Lemma restricted_decision_higher_score_witness :
  let cv := <[7%nat := (7 # 10)%Q]> (<[15%nat := (2 # 10)%Q]> (replicate 16 0%Q)) in
  ((2 # 10 < 7 # 10)%Q /\
   decision_restricted geirhos_categories cv "cat" "truck" = Ok "cat"%string
   \/ (7 # 10 < 2 # 10)%Q /\
      decision_restricted geirhos_categories cv "cat" "truck" = Ok "truck"%string) /\
  exists p q : R,
    restricted_class_values geirhos_categories cv "cat" "truck" = Ok [p; q] /\
    p = (exp (Q2R (7 # 10)) / (exp (Q2R (7 # 10)) + exp (Q2R (2 # 10))))%R /\
    q = (exp (Q2R (2 # 10)) / (exp (Q2R (7 # 10)) + exp (Q2R (2 # 10))))%R /\
    (p + q = 1)%R.
Proof.
  apply (restricted_decision_higher_score geirhos_categories
           (<[7%nat := (7 # 10)%Q]> (<[15%nat := (2 # 10)%Q]> (replicate 16 0%Q)))
           "cat" "truck" (7 # 10)%Q (2 # 10)%Q).
  - reflexivity.
  - reflexivity.
  - intros H. vm_compute in H. discriminate H.
Defined.

(** ** Aggregator: totals *)

Lemma zero_dict_lookup_gen (l : list string) (d : gmap string Z) (c : string) :
  foldl (fun d shape => <[shape := 0]> d) d l !! c
  = if decide (c ∈ l) then Some 0 else d !! c.
Proof.
  revert d. induction l as [|s l IH]; intros d; simpl.
  - destruct (decide (c ∈ [])) as [H|H]; [inversion H|reflexivity].
  - rewrite IH. destruct (decide (c ∈ l)) as [Hin|Hnin].
    + rewrite decide_True by (right; exact Hin). reflexivity.
    + destruct (decide (s = c)) as [->|Hne].
      * rewrite lookup_insert_eq. rewrite decide_True by left. reflexivity.
      * rewrite lookup_insert_ne by exact Hne.
        rewrite decide_False; [reflexivity|].
        intros [->|H]%elem_of_cons; [congruence|contradiction].
Qed.

Lemma zero_dict_is (cats : list string) : dict_is cats (fun _ => 0) (zero_dict cats).
Proof.
  intros c. unfold zero_dict. rewrite zero_dict_lookup_gen.
  destruct (decide (c ∈ cats)); [reflexivity|apply lookup_empty].
Qed.

Lemma dict_add_is (cats : list string) (g : string -> Z) (d : gmap string Z)
    (k : string) (v : Z) :
  dict_is cats g d -> k ∈ cats ->
  exists d', dict_add d k v = Ok d' /\
    dict_is cats (fun c => if decide (c = k) then g c + v else g c) d'.
Proof.
  intros Hd Hk. unfold dict_add, dict_get. rewrite (Hd k), decide_True by exact Hk.
  simpl. eexists. split; [reflexivity|]. intros c.
  destruct (decide (c = k)) as [->|Hne].
  - rewrite lookup_insert_eq, decide_True by exact Hk. reflexivity.
  - rewrite lookup_insert_ne by congruence. apply Hd.
Qed.

Lemma sum_values_is (cats : list string) (g : string -> Z) (d : gmap string Z) :
  NoDup cats -> dict_is cats g d -> sum_values d = Zsum (g <$> cats).
Proof.
  intros Hnd. revert d. induction Hnd as [|c cs Hc Hnd IH]; intros d Hd.
  - assert (d = ∅) as ->.
    { apply map_eq. intros c. rewrite Hd, lookup_empty.
      rewrite decide_False; [reflexivity|]. intros H; inversion H. }
    reflexivity.
  - unfold sum_values. rewrite (map_fold_delete_L _ _ c (g c) d).
    + simpl. f_equal. apply IH. intros k.
      destruct (decide (k = c)) as [->|Hne].
      * rewrite lookup_delete_eq, decide_False by exact Hc. reflexivity.
      * rewrite lookup_delete_ne by congruence. rewrite Hd.
        destruct (decide (k ∈ cs)) as [Hin|Hnin].
        -- rewrite decide_True by (right; exact Hin). reflexivity.
        -- rewrite decide_False; [reflexivity|].
           intros [->|H]%elem_of_cons; [congruence|contradiction].
    + intros. lia.
    + rewrite Hd, decide_True by left. reflexivity.
Qed.

Lemma dict_is_ext (cats : list string) (g g' : string -> Z) (d : gmap string Z) :
  (forall c, g c = g' c) -> dict_is cats g d -> dict_is cats g' d.
Proof.
  intros Hg Hd c. rewrite Hd, Hg. reflexivity.
Qed.

Lemma counted_nil col c : counted col c [] = 0.
Proof. reflexivity. Qed.

Lemma counted_cons col c p rows :
  counted col c (p :: rows)
  = (if decide (p.1 = c /\ Restricted_Shape_Decision p.2 ≠ Restricted_Texture_Decision p.2)
     then col p.2 else 0) + counted col c rows.
Proof.
  unfold counted. rewrite filter_cons.
  destruct (decide _); simpl; reflexivity.
Qed.

Lemma counted_app col c rows1 rows2 :
  counted col c (rows1 ++ rows2) = counted col c rows1 + counted col c rows2.
Proof.
  induction rows1 as [|p rows1 IH]; [reflexivity|].
  simpl. rewrite !counted_cons, IH. lia.
Qed.

Lemma totals_row_step_are cats F d shape row :
  dicts_are cats F d -> shape ∈ cats ->
  exists d', totals_row_step shape d row = Ok d' /\
    dicts_are cats (fun col c => F col c + counted col c [(shape, row)]) d'.
Proof.
  intros (H1 & H2 & H3 & H4 & H5) Hin. unfold totals_row_step.
  destruct (decide (Restricted_Shape_Decision row ≠ Restricted_Texture_Decision row))
    as [Hdec|Hdec].
  - destruct (dict_add_is _ _ _ _ (Shape_Decision row) H1 Hin) as (d1 & -> & K1).
    destruct (dict_add_is _ _ _ _ (Texture_Decision row) H2 Hin) as (d2 & -> & K2).
    destruct (dict_add_is _ _ _ _ (Neither row) H3 Hin) as (d3 & -> & K3).
    destruct (dict_add_is _ _ _ _ (Restricted_Shape_Decision row) H4 Hin) as (d4 & -> & K4).
    destruct (dict_add_is _ _ _ _ (Restricted_Texture_Decision row) H5 Hin) as (d5 & -> & K5).
    simpl. eexists. split; [reflexivity|].
    repeat split; simpl;
      (eapply dict_is_ext; [|eassumption]); intros c; rewrite counted_cons, counted_nil;
      simpl; destruct (decide (c = shape)) as [->|Hne];
      [rewrite decide_True by (split; [reflexivity|exact Hdec])
      |rewrite decide_False by (intros [? _]; congruence)
      |rewrite decide_True by (split; [reflexivity|exact Hdec])
      |rewrite decide_False by (intros [? _]; congruence)
      |rewrite decide_True by (split; [reflexivity|exact Hdec])
      |rewrite decide_False by (intros [? _]; congruence)
      |rewrite decide_True by (split; [reflexivity|exact Hdec])
      |rewrite decide_False by (intros [? _]; congruence)
      |rewrite decide_True by (split; [reflexivity|exact Hdec])
      |rewrite decide_False by (intros [? _]; congruence)]; lia.
  - exists d. split; [reflexivity|].
    repeat split; (eapply dict_is_ext; [|eassumption]); intros c;
      rewrite counted_cons, counted_nil; simpl;
      rewrite decide_False by (intros [_ ?]; contradiction); lia.
Qed.

Lemma for_each_app {S A : Type} (body : S -> A -> result S) (s : S) (l1 l2 : list A) :
  for_each body s (l1 ++ l2) = (s' ← for_each body s l1; for_each body s' l2).
Proof.
  revert s. induction l1 as [|a l1 IH]; intros s; simpl; [reflexivity|].
  destruct (body s a) as [s'|e]; simpl; [apply IH|reflexivity].
Qed.

Lemma for_each_fmap {S A B : Type} (f : A -> B) (body : S -> B -> result S) (s : S)
    (l : list A) :
  for_each body s (f <$> l) = for_each (fun s a => body s (f a)) s l.
Proof.
  revert s. induction l as [|a l IH]; intros s; simpl; [reflexivity|].
  destruct (body s (f a)); simpl; [apply IH|reflexivity].
Qed.

Lemma tagged_rows_are cats rows : forall F d,
  dicts_are cats F d -> Forall (fun p => p.1 ∈ cats) rows ->
  exists d', for_each tagged_step d rows = Ok d' /\
    dicts_are cats (fun col c => F col c + counted col c rows) d'.
Proof.
  induction rows as [|p rows IH]; intros F d Hd Hall.
  - exists d. split; [reflexivity|].
    destruct Hd as (H1 & H2 & H3 & H4 & H5).
    repeat split; (eapply dict_is_ext; [|eassumption]); intros c;
      rewrite counted_nil; lia.
  - apply Forall_cons in Hall as [Hp Hall]. destruct p as [shape row]. simpl in Hp.
    destruct (totals_row_step_are cats F d shape row Hd Hp) as (d1 & E1 & Hd1).
    destruct (IH _ d1 Hd1 Hall) as (d' & E' & Hd').
    exists d'. split.
    + change (for_each tagged_step d ((shape, row) :: rows))
        with (s' ← totals_row_step shape d row; for_each tagged_step s' rows).
      rewrite E1. exact E'.
    + destruct Hd' as (H1 & H2 & H3 & H4 & H5).
      repeat split; (eapply dict_is_ext; [|eassumption]); intros c; simpl;
        rewrite (counted_cons _ c (shape, row) rows), (counted_cons _ c (shape, row) []),
          counted_nil; lia.
Qed.

Lemma for_each_cons {S A : Type} (body : S -> A -> result S) (s : S) (a : A)
    (l : list A) :
  for_each body s (a :: l) = (s' ← body s a; for_each body s' l).
Proof. reflexivity. Qed.

Lemma tagged_rows_cons file dir :
  tagged_rows (file :: dir)
  = (if skipped file.1 then []
     else match file.2 with
          | [] => []
          | first :: _ => (fun row => (Shape first, row)) <$> file.2
          end) ++ tagged_rows dir.
Proof. reflexivity. Qed.

Lemma totals_file_step_unfold d file :
  totals_file_step d file
  = if skipped file.1 then Ok d
    else shape ← first_shape file.2; for_each (totals_row_step shape) d file.2.
Proof. reflexivity. Qed.

Lemma files_as_tagged_rows cats dir : forall d,
  tables_of_categories cats dir ->
  for_each totals_file_step d dir = for_each tagged_step d (tagged_rows dir)
  /\ Forall (fun p => p.1 ∈ cats) (tagged_rows dir).
Proof.
  induction dir as [|file dir IH]; intros d Hwf; [split; [reflexivity|constructor]|].
  apply Forall_cons in Hwf as [Hfile Hwf].
  rewrite tagged_rows_cons, for_each_cons, totals_file_step_unfold.
  destruct (skipped file.1) eqn:E.
  - apply IH, Hwf.
  - destruct (Hfile eq_refl) as (first & rest & Hrows & Hin). rewrite Hrows.
    split.
    + rewrite for_each_app, for_each_fmap.
      change (first_shape (first :: rest)) with (Ok (Shape first)).
      change (fun s a => tagged_step s (Shape first, a)) with (totals_row_step (Shape first)).
      change (Ok (Shape first) ≫= (fun shape => for_each (totals_row_step shape) d (first :: rest)))
        with (for_each (totals_row_step (Shape first)) d (first :: rest)).
      destruct (for_each (totals_row_step (Shape first)) d (first :: rest)) as [d1|e].
      * apply IH, Hwf.
      * reflexivity.
    + apply Forall_app. split; [|apply (IH d), Hwf].
      apply Forall_fmap, Forall_forall. intros row _. exact Hin.
Qed.

Lemma index_NoDup (l : list string) (i : nat) (x : string) :
  NoDup l -> l !! i = Some x -> index x l = Ok i.
Proof.
  intros Hnd. revert i. induction Hnd as [|y l Hy Hnd IH]; intros i; [discriminate|].
  destruct i as [|i]; simpl.
  - intros [= ->]. rewrite decide_True by reflexivity. reflexivity.
  - intros Hl. destruct (decide (y = x)) as [->|Hne].
    + exfalso. apply Hy. eapply list_elem_of_lookup_2, Hl.
    + rewrite (IH _ Hl). reflexivity.
Qed.

Lemma dict_get_is cats g d c :
  dict_is cats g d -> c ∈ cats -> dict_get d c = Ok (g c).
Proof.
  intros Hd Hin. unfold dict_get. rewrite Hd, decide_True by exact Hin. reflexivity.
Qed.

Lemma totals_write_step_are cats F d df i shape :
  NoDup cats -> dicts_are cats F d -> cats !! i = Some shape ->
  totals_write_step cats d df shape = Ok (<[i := Some (row_of F shape)]> df).
Proof.
  intros Hnd (H1 & H2 & H3 & H4 & H5) Hi.
  assert (Hin : shape ∈ cats) by (eapply list_elem_of_lookup_2, Hi).
  unfold totals_write_step. rewrite (index_NoDup _ _ _ Hnd Hi).
  rewrite (dict_get_is _ _ _ _ H1 Hin), (dict_get_is _ _ _ _ H2 Hin),
    (dict_get_is _ _ _ _ H3 Hin), (dict_get_is _ _ _ _ H4 Hin),
    (dict_get_is _ _ _ _ H5 Hin).
  reflexivity.
Qed.

Lemma totals_write_loop cats F d :
  NoDup cats -> dicts_are cats F d ->
  forall l df, (forall s, s ∈ l -> s ∈ cats) -> (length cats <= length df)%nat ->
  exists df', for_each (totals_write_step cats d) df l = Ok df' /\
    length df' = length df /\
    (forall i s, cats !! i = Some s ->
       df' !! i = if decide (s ∈ l) then Some (Some (row_of F s)) else df !! i) /\
    (forall i, (length cats <= i)%nat -> df' !! i = df !! i).
Proof.
  intros Hnd Hd. induction l as [|s0 l IH]; intros df Hl Hlen.
  - exists df. repeat split; reflexivity.
  - assert (Hs0 : s0 ∈ cats) by (apply Hl; left).
    destruct (proj1 (list_elem_of_lookup _ _) Hs0) as [i0 Hi0].
    assert (Hi0lt : (i0 < length cats)%nat) by (eapply lookup_lt_Some, Hi0).
    destruct (IH (<[i0 := Some (row_of F s0)]> df)) as (df' & E & Hlen' & Hcat & Hrest).
    { intros s Hs. apply Hl. right. exact Hs. }
    { rewrite length_insert. exact Hlen. }
    exists df'. split; [|split; [|split]].
    + rewrite for_each_cons, (totals_write_step_are _ _ _ _ _ _ Hnd Hd Hi0). exact E.
    + rewrite Hlen', length_insert. reflexivity.
    + intros i s Hi. rewrite (Hcat i s Hi).
      destruct (decide (s ∈ l)) as [Hin|Hnin].
      * rewrite decide_True by (right; exact Hin). reflexivity.
      * destruct (decide (s = s0)) as [->|Hne].
        -- rewrite decide_True by left.
           assert (i = i0) as -> by (eapply NoDup_lookup; eassumption).
           apply list_lookup_insert_eq. lia.
        -- rewrite decide_False
             by (intros [->|H]%elem_of_cons; [congruence|contradiction]).
           apply list_lookup_insert_ne. intros ->. congruence.
    + intros i Hi. rewrite (Hrest i Hi). apply list_lookup_insert_ne. lia.
Qed.

Lemma Zsum_fmap_add {A : Type} (f g : A -> Z) (l : list A) :
  Zsum ((fun a => f a + g a) <$> l) = Zsum (f <$> l) + Zsum (g <$> l).
Proof.
  induction l as [|a l IH]; [reflexivity|].
  rewrite !fmap_cons. unfold Zsum in *. rewrite !foldr_cons. lia.
Qed.

Lemma omap_fmap_Some {A B : Type} (f : A -> B) (l : list A) :
  omap (fun r => r) ((fun a => Some (f a)) <$> l) = f <$> l.
Proof.
  induction l as [|a l IH]; [reflexivity|].
  rewrite !fmap_cons. simpl. f_equal. exact IH.
Qed.

Lemma counted_rows_sum col shape dir :
  Zsum (col <$> counted_rows shape dir) = counted col shape (tagged_rows dir).
Proof. reflexivity. Qed.

(** C3: in the table of [calculate_totals], the row of every shape category
    holds the sums of the decision columns over the rows of the category's
    tables whose restricted-shape indicator differs from the
    restricted-texture one, its 'Total Number Stimuli' is the sum of its
    shape, texture and neither counts, and every count of the final
    'total' row is the sum of that count over the category rows. *)
Theorem calculate_totals_sums (cats : list string)
    (dir : list (string * list DecisionRow)) :
  NoDup cats -> tables_of_categories cats dir ->
  exists result_df,
    calculate_totals cats dir = Ok result_df /\
    (forall i shape, cats !! i = Some shape ->
       exists r, result_df !! i = Some (Some r) /\
         Shape_Category r = shape /\
         Number_Shape_Decisions r = Zsum (Shape_Decision <$> counted_rows shape dir) /\
         Number_Texture_Decisions r = Zsum (Texture_Decision <$> counted_rows shape dir) /\
         Number_Neither r = Zsum (Neither <$> counted_rows shape dir) /\
         Number_Restricted_Shape_Decisions r
         = Zsum (Restricted_Shape_Decision <$> counted_rows shape dir) /\
         Number_Restricted_Texture_Decisions r
         = Zsum (Restricted_Texture_Decision <$> counted_rows shape dir) /\
         Total_Number_Stimuli r
         = Number_Shape_Decisions r + Number_Texture_Decisions r + Number_Neither r) /\
    exists total, result_df !! length cats = Some (Some total) /\
      Shape_Category total = "total"%string /\
      Number_Shape_Decisions total
      = Zsum (Number_Shape_Decisions <$> category_rows cats result_df) /\
      Number_Texture_Decisions total
      = Zsum (Number_Texture_Decisions <$> category_rows cats result_df) /\
      Number_Neither total
      = Zsum (Number_Neither <$> category_rows cats result_df) /\
      Number_Restricted_Shape_Decisions total
      = Zsum (Number_Restricted_Shape_Decisions <$> category_rows cats result_df) /\
      Number_Restricted_Texture_Decisions total
      = Zsum (Number_Restricted_Texture_Decisions <$> category_rows cats result_df) /\
      Total_Number_Stimuli total
      = Zsum (Total_Number_Stimuli <$> category_rows cats result_df).
Proof.
  intros Hnd Hwf.
  destruct (files_as_tagged_rows cats dir (init_totals cats) Hwf) as [Efiles Hall].
  assert (H0 : dicts_are cats (fun _ _ => 0) (init_totals cats)).
  { repeat split; apply zero_dict_is. }
  destruct (tagged_rows_are cats _ _ _ H0 Hall) as (d & Ed & Hd).
  set (F := fun col c => 0 + counted col c (tagged_rows dir)) in Hd.
  destruct (totals_write_loop cats F d Hnd Hd cats
              (replicate (length cats + 1) None)) as (df & Edf & Hlen & Hcat & Hrest).
  { auto. }
  { rewrite length_replicate. lia. }
  exists (<[length cats := Some (totals_final_row d)]> df).
  split; [|split].
  - unfold calculate_totals. rewrite Efiles, Ed.
    change (Ok d ≫= ?k) with (k d). cbv beta zeta. rewrite Edf. reflexivity.
  - intros i shape Hi. exists (row_of F shape).
    assert (Hilt : (i < length cats)%nat) by (eapply lookup_lt_Some, Hi).
    split.
    + rewrite list_lookup_insert_ne by lia. rewrite (Hcat i shape Hi).
      rewrite decide_True by (eapply list_elem_of_lookup_2, Hi). reflexivity.
    + unfold row_of, F; simpl. rewrite !counted_rows_sum. repeat split; lia.
  - exists (totals_final_row d).
    assert (Hrows : category_rows cats (<[length cats := Some (totals_final_row d)]> df)
                    = row_of F <$> cats).
    { unfold category_rows. rewrite take_insert_ge by lia.
      assert (Htake : take (length cats) df = (fun s => Some (row_of F s)) <$> cats).
      { apply list_eq. intros i. rewrite list_lookup_fmap.
        destruct (cats !! i) as [s|] eqn:Hi; simpl.
        - rewrite lookup_take_lt by (eapply lookup_lt_Some, Hi).
          rewrite (Hcat i s Hi).
          rewrite decide_True by (eapply list_elem_of_lookup_2, Hi). reflexivity.
        - apply lookup_ge_None. rewrite length_take.
          apply lookup_ge_None in Hi. lia. }
      rewrite Htake. apply omap_fmap_Some. }
    rewrite Hrows. destruct Hd as (H1 & H2 & H3 & H4 & H5).
    split.
    { apply list_lookup_insert_eq. rewrite Hlen, length_replicate. lia. }
    split; [reflexivity|].
    rewrite <- !list_fmap_compose. unfold totals_final_row; simpl.
    rewrite (sum_values_is cats _ _ Hnd H1), (sum_values_is cats _ _ Hnd H2),
      (sum_values_is cats _ _ Hnd H3), (sum_values_is cats _ _ Hnd H4),
      (sum_values_is cats _ _ Hnd H5).
    repeat split; try reflexivity.
    unfold compose. simpl.
    rewrite (Zsum_fmap_add (fun c => F Shape_Decision c + F Texture_Decision c) (F Neither)).
    rewrite (Zsum_fmap_add (F Shape_Decision) (F Texture_Decision)). lia.
Qed.

Lemma calculate_totals_sums_witness :
  exists result_df,
    calculate_totals geirhos_categories sample_result_dir = Ok result_df /\
    (forall i shape, geirhos_categories !! i = Some shape ->
       exists r, result_df !! i = Some (Some r) /\
         Shape_Category r = shape /\
         Number_Shape_Decisions r
         = Zsum (Shape_Decision <$> counted_rows shape sample_result_dir) /\
         Number_Texture_Decisions r
         = Zsum (Texture_Decision <$> counted_rows shape sample_result_dir) /\
         Number_Neither r = Zsum (Neither <$> counted_rows shape sample_result_dir) /\
         Number_Restricted_Shape_Decisions r
         = Zsum (Restricted_Shape_Decision <$> counted_rows shape sample_result_dir) /\
         Number_Restricted_Texture_Decisions r
         = Zsum (Restricted_Texture_Decision <$> counted_rows shape sample_result_dir) /\
         Total_Number_Stimuli r
         = Number_Shape_Decisions r + Number_Texture_Decisions r + Number_Neither r) /\
    exists total, result_df !! length geirhos_categories = Some (Some total) /\
      Shape_Category total = "total"%string /\
      Number_Shape_Decisions total
      = Zsum (Number_Shape_Decisions <$> category_rows geirhos_categories result_df) /\
      Number_Texture_Decisions total
      = Zsum (Number_Texture_Decisions <$> category_rows geirhos_categories result_df) /\
      Number_Neither total
      = Zsum (Number_Neither <$> category_rows geirhos_categories result_df) /\
      Number_Restricted_Shape_Decisions total
      = Zsum (Number_Restricted_Shape_Decisions
                <$> category_rows geirhos_categories result_df) /\
      Number_Restricted_Texture_Decisions total
      = Zsum (Number_Restricted_Texture_Decisions
                <$> category_rows geirhos_categories result_df) /\
      Total_Number_Stimuli total
      = Zsum (Total_Number_Stimuli <$> category_rows geirhos_categories result_df).
Proof.
  apply (calculate_totals_sums geirhos_categories sample_result_dir).
  - apply (bool_decide_unpack _). vm_compute. reflexivity.
  - unfold tables_of_categories, sample_result_dir, geirhos_categories.
    repeat apply Forall_cons_2; try apply Forall_nil_2; simpl; intros H;
      try discriminate H; eexists _, _; (split; [reflexivity|]); simpl; set_solver.
Defined.

Example calculate_totals_sample :
  calculate_totals geirhos_categories sample_result_dir
  = Ok (((fun shape =>
            Some (if decide (shape = "cat"%string)
                  then {| Shape_Category := shape;
                          Number_Shape_Decisions := 1; Number_Texture_Decisions := 0;
                          Number_Neither := 1; Number_Restricted_Shape_Decisions := 1;
                          Number_Restricted_Texture_Decisions := 1;
                          Total_Number_Stimuli := 2 |}
                  else if decide (shape = "truck"%string)
                  then {| Shape_Category := shape;
                          Number_Shape_Decisions := 0; Number_Texture_Decisions := 1;
                          Number_Neither := 0; Number_Restricted_Shape_Decisions := 0;
                          Number_Restricted_Texture_Decisions := 1;
                          Total_Number_Stimuli := 1 |}
                  else {| Shape_Category := shape;
                          Number_Shape_Decisions := 0; Number_Texture_Decisions := 0;
                          Number_Neither := 0; Number_Restricted_Shape_Decisions := 0;
                          Number_Restricted_Texture_Decisions := 0;
                          Total_Number_Stimuli := 0 |})) <$> geirhos_categories)
        ++ [Some {| Shape_Category := "total";
                    Number_Shape_Decisions := 1; Number_Texture_Decisions := 1;
                    Number_Neither := 1; Number_Restricted_Shape_Decisions := 1;
                    Number_Restricted_Texture_Decisions := 2;
                    Total_Number_Stimuli := 3 |}]).
Proof. vm_compute. reflexivity. Qed.

(** ** Aggregator: proportions *)

Lemma truediv_zero (a : Z) : truediv a 0 = Raise ZeroDivisionError.
Proof. reflexivity. Qed.

Lemma truediv_nonzero (a b : Z) :
  b <> 0 -> truediv a b = Ok (inject_Z a / inject_Z b)%Q.
Proof.
  intros Hb. unfold truediv. rewrite decide_False by exact Hb. reflexivity.
Qed.

(** C8: when the shape and texture decisions of the 'total' row sum to 0,
    [calculate_proportions] raises [ZeroDivisionError]; when they sum to a
    positive number and the total is positive, it returns the six
    quotients. *)
Theorem calculate_proportions_division (df : list (option TotalsRow)) (row : TotalsRow) :
  total_rows df = [row] ->
  (Number_Shape_Decisions row + Number_Texture_Decisions row = 0 ->
   calculate_proportions df = Raise ZeroDivisionError) /\
  (Number_Shape_Decisions row + Number_Texture_Decisions row > 0 ->
   Total_Number_Stimuli row > 0 ->
   calculate_proportions df
   = Ok {| shape_texture :=
             inject_Z (Number_Shape_Decisions row)
             / inject_Z (Number_Shape_Decisions row + Number_Texture_Decisions row);
           texture_shape :=
             inject_Z (Number_Texture_Decisions row)
             / inject_Z (Number_Shape_Decisions row + Number_Texture_Decisions row);
           shape_all :=
             inject_Z (Number_Shape_Decisions row) / inject_Z (Total_Number_Stimuli row);
           texture_all :=
             inject_Z (Number_Texture_Decisions row) / inject_Z (Total_Number_Stimuli row);
           shape_restricted :=
             inject_Z (Number_Restricted_Shape_Decisions row)
             / inject_Z (Total_Number_Stimuli row);
           texture_restricted :=
             inject_Z (Number_Restricted_Texture_Decisions row)
             / inject_Z (Total_Number_Stimuli row) |}%Q).
Proof.
  intros Hrow. unfold calculate_proportions. rewrite Hrow. simpl. split.
  - intros Hzero. rewrite Hzero.
    destruct (decide (Total_Number_Stimuli row = 0)) as [->|Hne]; [reflexivity|].
    rewrite !(truediv_nonzero _ _ Hne). reflexivity.
  - intros Hst Htotal.
    rewrite !(truediv_nonzero _ (Total_Number_Stimuli row)) by lia. simpl.
    rewrite !(truediv_nonzero _ (_ + _)) by lia. reflexivity.
Qed.

Lemma calculate_proportions_division_witness :
  (80 + 20 = 0 -> calculate_proportions sample_totals = Raise ZeroDivisionError) /\
  (80 + 20 > 0 -> 100 > 0 ->
   calculate_proportions sample_totals
   = Ok {| shape_texture := inject_Z 80 / inject_Z (80 + 20);
           texture_shape := inject_Z 20 / inject_Z (80 + 20);
           shape_all := inject_Z 80 / inject_Z 100;
           texture_all := inject_Z 20 / inject_Z 100;
           shape_restricted := inject_Z 83 / inject_Z 100;
           texture_restricted := inject_Z 17 / inject_Z 100 |}%Q).
Proof.
  apply (calculate_proportions_division sample_totals
           (totals_row "total" 80 20 0 83 17 100)).
  reflexivity.
Defined.

Example calculate_proportions_sample :
  calculate_proportions sample_totals
  = Ok {| shape_texture := inject_Z 80 / inject_Z 100;
          texture_shape := inject_Z 20 / inject_Z 100;
          shape_all := inject_Z 80 / inject_Z 100;
          texture_all := inject_Z 20 / inject_Z 100;
          shape_restricted := inject_Z 83 / inject_Z 100;
          texture_restricted := inject_Z 17 / inject_Z 100 |}%Q.
Proof. reflexivity. Qed.

Example calculate_proportions_neither :
  calculate_proportions sample_totals_neither = Raise ZeroDivisionError.
Proof. reflexivity. Qed.

(** ** Triplet Similarity Engine: the cache *)

Lemma bind_Ok {A B : Type} (m : result A) (k : A -> result B) (b : B) :
  m ≫= k = Ok b -> exists a, m = Ok a /\ k a = Ok b.
Proof.
  destruct m as [a|e]; [|discriminate]. intros H. exists a. split; [reflexivity|exact H].
Qed.

Lemma for_each_invariant {S A : Type} (P : S -> Prop) (body : S -> A -> result S)
    (l : list A) : forall s s',
  P s -> (forall s a s', P s -> a ∈ l -> body s a = Ok s' -> P s') ->
  for_each body s l = Ok s' -> P s'.
Proof.
  induction l as [|a l IH]; intros s s' Hs Hstep; simpl.
  - intros [= <-]. exact Hs.
  - intros H. apply bind_Ok in H as (s1 & E1 & H).
    apply (IH s1 s'); [|intros; eapply Hstep; eauto; right; assumption|exact H].
    apply (Hstep s a s1 Hs); [left|exact E1].
Qed.

Lemma cache_inv_empty : cache_inv empty_sim_state.
Proof.
  split.
  - intros p. simpl. rewrite lookup_empty. split; [intros H; inversion H|intros [? [=]]].
  - intros i j p q Hi. simpl in Hi. rewrite lookup_nil in Hi. discriminate.
Qed.

Section Cache.
Context {vec : Type} (np_dot cosx cdist : vec -> vec -> Q).

(** A lookup that finds the pair returns what is cached and leaves the
    state as it is. *)
Lemma lookup_hit st a b va vb v :
  cached st a b = Some v -> lookup_or_compute np_dot cosx cdist st a b va vb = Ok (v, st).
Proof.
  unfold cached, lookup_or_compute, dict_get. intros H.
  destruct (sim_dict st !! (a, b)) as [w|] eqn:Eab.
  - injection H as ->.
    rewrite (bool_decide_eq_true_2 ((a, b) ∈ dom (sim_dict st)))
      by (apply elem_of_dom; rewrite Eab; eauto).
    reflexivity.
  - rewrite H.
    rewrite (bool_decide_eq_true_2 ((b, a) ∈ dom (sim_dict st)))
      by (apply elem_of_dom; rewrite H; eauto).
    rewrite orb_true_r. reflexivity.
Qed.

(** A lookup that does not find the pair computes its similarities and
    stores them under the order of the lookup. *)
Lemma lookup_miss st a b va vb :
  cached st a b = None ->
  lookup_or_compute np_dot cosx cdist st a b va vb
  = Ok ((np_dot va vb, cosx va vb, cdist vb va),
        {| sim_dict := <[(a, b) := (np_dot va vb, cosx va vb, cdist vb va)]> (sim_dict st);
           computed := computed st ++ [(a, b)] |}).
Proof.
  unfold cached, lookup_or_compute. intros H.
  destruct (sim_dict st !! (a, b)) as [w|] eqn:Eab; [discriminate|].
  rewrite (bool_decide_eq_false_2 ((a, b) ∈ dom (sim_dict st)))
    by (rewrite elem_of_dom, Eab; intros [? [=]]).
  rewrite (bool_decide_eq_false_2 ((b, a) ∈ dom (sim_dict st)))
    by (rewrite elem_of_dom, H; intros [? [=]]).
  reflexivity.
Qed.

Lemma lookup_or_compute_total st a b va vb :
  exists v st', lookup_or_compute np_dot cosx cdist st a b va vb = Ok (v, st') /\
    cached st' a b = Some v /\
    (cached st a b = Some v /\ st' = st
     \/ cached st a b = None /\
        v = (np_dot va vb, cosx va vb, cdist vb va) /\
        sim_dict st' = <[(a, b) := v]> (sim_dict st) /\
        computed st' = computed st ++ [(a, b)]).
Proof.
  destruct (cached st a b) as [v|] eqn:E.
  - exists v, st. rewrite (lookup_hit _ _ _ _ _ _ E). auto.
  - eexists _, _. rewrite (lookup_miss _ _ _ _ _ E). split; [reflexivity|].
    split; [|right; auto].
    unfold cached. simpl. rewrite lookup_insert_eq. reflexivity.
Qed.

Lemma cached_None st a b :
  cached st a b = None <-> sim_dict st !! (a, b) = None /\ sim_dict st !! (b, a) = None.
Proof.
  unfold cached. destruct (sim_dict st !! (a, b)); split;
    [discriminate|intros [[=] _]|auto|intros [_ H]; exact H].
Qed.

(** The cache is symmetric: both orders of a pair find the same value. *)
Lemma cached_sym st a b : cache_inv st -> cached st a b = cached st b a.
Proof.
  intros [Hdom Honce]. unfold cached.
  destruct (sim_dict st !! (a, b)) as [v|] eqn:Eab;
    destruct (sim_dict st !! (b, a)) as [w|] eqn:Eba; try reflexivity.
  assert (Hab : (a, b) ∈ computed st) by (apply Hdom; rewrite Eab; eauto).
  assert (Hba : (b, a) ∈ computed st) by (apply Hdom; rewrite Eba; eauto).
  apply list_elem_of_lookup in Hab as [i Hi], Hba as [j Hj].
  assert (i = j) as -> by (apply (Honce i j _ _ Hi Hj); right; reflexivity).
  assert ((a, b) = (b, a)) as [= ->] by congruence. congruence.
Qed.

Lemma lookup_or_compute_inv st a b va vb v st' :
  cache_inv st -> lookup_or_compute np_dot cosx cdist st a b va vb = Ok (v, st') -> cache_inv st'.
Proof.
  intros Hinv H.
  destruct (lookup_or_compute_total st a b va vb) as (v0 & st0 & E & _ & Hcase).
  rewrite E in H. simplify_eq.
  destruct Hcase as [[_ ->]|(Hnone & _ & Hd & Hc)]; [exact Hinv|].
  apply cached_None in Hnone as [Nab Nba]. destruct Hinv as [Hdom Honce].
  split.
  - intros p. rewrite Hd, Hc, elem_of_app, list_elem_of_singleton, Hdom.
    destruct (decide (p = (a, b))) as [->|Hne].
    + rewrite lookup_insert_eq. split; eauto.
    + rewrite lookup_insert_ne by congruence. split; [intros [H|H]; [exact H|contradiction]|auto].
  - rewrite Hc. intros i j p q Hi Hj Hpq.
    assert (Hfresh : forall k r, computed st !! k = Some r -> same_pair r (a, b) -> False).
    { intros k r Hk [-> | ->]; simpl in *.
      - assert (is_Some (sim_dict st !! (a, b))) as [? ?]
          by (apply Hdom; eapply list_elem_of_lookup_2, Hk). congruence.
      - assert (is_Some (sim_dict st !! (b, a))) as [? ?]
          by (apply Hdom; eapply list_elem_of_lookup_2, Hk). congruence. }
    apply lookup_app_Some in Hi as [Hi|[Hi1 Hi2]], Hj as [Hj|[Hj1 Hj2]].
    + eapply Honce; eassumption.
    + apply list_lookup_singleton_Some in Hj2 as [_ <-].
      exfalso. eapply Hfresh; eassumption.
    + apply list_lookup_singleton_Some in Hi2 as [_ <-].
      exfalso. eapply (Hfresh j q Hj). destruct Hpq as [-> | ->]; [left; reflexivity|].
      right. destruct q; reflexivity.
    + apply list_lookup_singleton_Some in Hi2 as [? _], Hj2 as [? _]. lia.
Qed.

(** What is cached stays cached, with the same value. *)
Lemma lookup_or_compute_keeps st a b va vb v st' x y w :
  lookup_or_compute np_dot cosx cdist st a b va vb = Ok (v, st') ->
  cached st x y = Some w -> cached st' x y = Some w.
Proof.
  intros H Hxy.
  destruct (lookup_or_compute_total st a b va vb) as (v0 & st0 & E & _ & Hcase).
  rewrite E in H. simplify_eq.
  destruct Hcase as [[_ ->]|(Hnone & _ & Hd & _)]; [exact Hxy|].
  apply cached_None in Hnone as [Nab Nba].
  unfold cached in *. rewrite Hd.
  destruct (sim_dict st !! (x, y)) as [u|] eqn:Exy.
  - rewrite lookup_insert_ne by congruence. rewrite Exy. exact Hxy.
  - rewrite lookup_insert_ne by congruence. rewrite Exy.
    rewrite lookup_insert_ne by congruence. exact Hxy.
Qed.
End Cache.

Section Run.
Context {vec : Type} (np_dot cosx cdist : vec -> vec -> Q).

Lemma run_lookups_cons st (q : string * string * vec * vec) qs :
  run_lookups np_dot cosx cdist st (q :: qs)
  = (r ← lookup_or_compute np_dot cosx cdist st q.1.1.1 q.1.1.2 q.1.2 q.2;
     run_lookups np_dot cosx cdist r.2 qs).
Proof.
  unfold run_lookups. rewrite for_each_cons.
  destruct (lookup_or_compute np_dot cosx cdist st q.1.1.1 q.1.1.2 q.1.2 q.2);
    reflexivity.
Qed.

Lemma run_lookups_app st qs1 qs2 :
  run_lookups np_dot cosx cdist st (qs1 ++ qs2)
  = (st' ← run_lookups np_dot cosx cdist st qs1; run_lookups np_dot cosx cdist st' qs2).
Proof. apply for_each_app. Qed.

(** A run of lookups never raises, keeps the invariant and keeps what is
    cached. *)
Lemma run_lookups_total qs : forall st,
  cache_inv st ->
  exists st', run_lookups np_dot cosx cdist st qs = Ok st' /\ cache_inv st' /\
    forall x y w, cached st x y = Some w -> cached st' x y = Some w.
Proof.
  induction qs as [|q qs IH]; intros st Hinv.
  - exists st. repeat split; auto; apply Hinv.
  - destruct (lookup_or_compute_total np_dot cosx cdist st q.1.1.1 q.1.1.2 q.1.2 q.2)
      as (v & st1 & E & _ & _).
    destruct (IH st1) as (st' & E' & Hinv' & Hkeep).
    { eapply lookup_or_compute_inv; eassumption. }
    exists st'. rewrite run_lookups_cons, E. repeat split; try assumption; try apply Hinv'.
    intros x y w Hw. apply Hkeep. eapply lookup_or_compute_keeps; eassumption.
Qed.
End Run.

(** ** Triplet Similarity Engine: the tables *)

Section Engine.
Context {vec : Type} (np_dot cosx cdist : vec -> vec -> Q).

Lemma reached_inv st : reached np_dot cosx cdist st -> cache_inv st.
Proof.
  intros [qs E].
  destruct (run_lookups_total np_dot cosx cdist qs _ cache_inv_empty) as (st' & E' & H & _).
  congruence.
Qed.

Lemma reached_step st a b va vb v st' :
  reached np_dot cosx cdist st -> lookup_or_compute np_dot cosx cdist st a b va vb = Ok (v, st') ->
  reached np_dot cosx cdist st'.
Proof.
  intros [qs E] H. exists (qs ++ [(a, b, va, vb)]).
  rewrite run_lookups_app, E. change (Ok st ≫= ?k) with (k st). cbv beta.
  rewrite run_lookups_cons. simpl. rewrite H. reflexivity.
Qed.

Lemma row_of_cache_keeps st a b va vb v st' (r : gmap string (cell vec)) :
  lookup_or_compute np_dot cosx cdist st a b va vb = Ok (v, st') ->
  row_of_cache st r -> row_of_cache st' r.
Proof.
  intros H (base & anchor & sm & tm & sv & tv & -> & Hs & Ht).
  exists base, anchor, sm, tm, sv, tv.
  split; [reflexivity|].
  split; eapply lookup_or_compute_keeps; eassumption.
Qed.

Lemma triplet_step_rows embeddings anchor base (acc acc' : list (gmap string (cell vec)) * sim_state)
    triplet :
  reached np_dot cosx cdist acc.2 -> Forall (row_of_cache acc.2) acc.1 ->
  triplet_step np_dot cosx cdist embeddings anchor base acc triplet = Ok acc' ->
  reached np_dot cosx cdist acc'.2 /\ Forall (row_of_cache acc'.2) acc'.1.
Proof.
  intros Hreach Hrows H. unfold triplet_step in H.
  apply bind_Ok in H as (va & _ & H).
  apply bind_Ok in H as (vs & _ & H).
  apply bind_Ok in H as (vt & _ & H).
  apply bind_Ok in H as ([sv st1] & Es & H).
  apply bind_Ok in H as ([tv st2] & Et & H).
  simpl in H. injection H as <-. simpl in *.
  split; [eapply reached_step, Et; eapply reached_step, Es; exact Hreach|].
  apply Forall_app. split.
  - eapply Forall_impl; [exact Hrows|]. intros r Hr.
    eapply row_of_cache_keeps; [exact Et|]. eapply row_of_cache_keeps; [exact Es|exact Hr].
  - apply Forall_singleton.
    exists base, anchor, triplet.1.2, triplet.2, sv, tv.
    split; [reflexivity|].
    destruct (lookup_or_compute_total np_dot cosx cdist acc.2 anchor triplet.1.2 va vs)
      as (? & ? & Es' & Hsv & _).
    destruct (lookup_or_compute_total np_dot cosx cdist st1 anchor triplet.2 va vt)
      as (? & ? & Et' & Htv & _).
    rewrite Es in Es'. rewrite Et in Et'. simplify_eq.
    split; [eapply lookup_or_compute_keeps; eassumption|assumption].
Qed.

Lemma anchor_step_rows model_type embeddings t
    (acc acc' : list (string * list (gmap string (cell vec))) * sim_state) anchor :
  reached np_dot cosx cdist acc.2 -> Forall (fun file => Forall (row_of_cache acc.2) file.2) acc.1 ->
  anchor_step np_dot cosx cdist model_type embeddings t acc anchor = Ok acc' ->
  reached np_dot cosx cdist acc'.2 /\ Forall (fun file => Forall (row_of_cache acc'.2) file.2) acc'.1.
Proof.
  intros Hreach Hfiles H. unfold anchor_step in H.
  apply bind_Ok in H as (anchor_triplets & _ & H).
  apply bind_Ok in H as (spec & _ & H).
  apply bind_Ok in H as (df & Edf & H).
  injection H as <-. simpl.
  set (base := <["Anchor Texture"%string := _]> _) in Edf.
  assert (Hdf : reached np_dot cosx cdist df.2 /\ Forall (row_of_cache df.2) df.1 /\
                forall r : gmap string (cell vec), row_of_cache acc.2 r -> row_of_cache df.2 r).
  { revert Edf.
    apply (for_each_invariant
             (fun s => reached np_dot cosx cdist s.2 /\ Forall (row_of_cache s.2) s.1 /\
                forall r : gmap string (cell vec),
                  row_of_cache acc.2 r -> row_of_cache s.2 r)).
    - simpl. auto.
    - intros s tr s' (Hr & Hrows & Hkeep) _ Hstep.
      destruct (triplet_step_rows _ _ _ _ _ _ Hr Hrows Hstep) as [Hr' Hrows'].
      repeat split; try assumption.
      intros r Hr0. apply Hkeep in Hr0.
      unfold triplet_step in Hstep.
      apply bind_Ok in Hstep as (va & _ & Hstep).
      apply bind_Ok in Hstep as (vs & _ & Hstep).
      apply bind_Ok in Hstep as (vt & _ & Hstep).
      apply bind_Ok in Hstep as ([sv st1] & Es & Hstep).
      apply bind_Ok in Hstep as ([tv st2] & Et & Hstep).
      simpl in Hstep. injection Hstep as <-. simpl in Et |- *.
      eapply row_of_cache_keeps; [exact Et|].
      eapply row_of_cache_keeps; [exact Es|exact Hr0]. }
  destruct Hdf as (Hr & Hrows & Hkeep).
  split; [exact Hr|]. apply Forall_app. split.
  - eapply Forall_impl; [exact Hfiles|]. intros file Hfile. simpl in Hfile.
    eapply Forall_impl; [exact Hfile|]. exact Hkeep.
  - apply Forall_singleton. exact Hrows.
Qed.

(** Every row that [triplets] writes holds, for both of its legs, the
    triple that the final cache holds for the pair, and the final cache
    is reached by a run of lookups. *)
Lemma triplets_rows model_type embeddings t files st :
  triplets np_dot cosx cdist model_type embeddings t = Ok (files, st) ->
  reached np_dot cosx cdist st /\ Forall (fun file => Forall (row_of_cache (vec := vec) st) file.2) files.
Proof.
  unfold triplets.
  apply (for_each_invariant
           (fun s => reached np_dot cosx cdist s.2 /\
              Forall (fun file => Forall (row_of_cache (vec := vec) s.2) file.2) s.1)
           _ _ ([], empty_sim_state) (files, st)).
  - split; [exists []; reflexivity|constructor].
  - intros s a s' [Hr Hf] _ Hstep. eapply anchor_step_rows; eassumption.
Qed.
End Engine.

Section CacheClaim.
Context {vec : Type} (np_dot cosx cdist : vec -> vec -> Q).

(** C5: once the similarities of a pair have been looked up (and so
    computed, then or before, under either order), every later lookup of
    the pair under either order returns the same cached triple and
    computes nothing; over a whole run of [triplets] the similarities are
    computed at most once per unordered pair, the cache answers both
    orders of a pair alike, and every row written holds the cached
    triples of its two legs. *)
Theorem sim_dict_lookup_stable (pre post : list (string * string * vec * vec))
    (a b : string) (va vb va' vb' : vec) :
  (exists st1 v st2 st3,
     run_lookups np_dot cosx cdist empty_sim_state pre = Ok st1 /\
     lookup_or_compute np_dot cosx cdist st1 a b va vb = Ok (v, st2) /\
     run_lookups np_dot cosx cdist st2 post = Ok st3 /\
     lookup_or_compute np_dot cosx cdist st3 a b va' vb' = Ok (v, st3) /\
     lookup_or_compute np_dot cosx cdist st3 b a vb' va' = Ok (v, st3) /\
     computed_once (computed st3)) /\
  (forall model_type embeddings t files st,
     triplets np_dot cosx cdist model_type embeddings t = Ok (files, st) ->
     (exists lookups,
        run_lookups np_dot cosx cdist empty_sim_state lookups = Ok st) /\
     computed_once (computed st) /\
     (forall x y, cached st x y = cached st y x) /\
     Forall (fun file => Forall (row_of_cache (vec := vec) st) file.2) files).
Proof.
  split.
  - destruct (run_lookups_total np_dot cosx cdist pre empty_sim_state cache_inv_empty)
      as (st1 & E1 & Hinv1 & _).
    destruct (lookup_or_compute_total np_dot cosx cdist st1 a b va vb)
      as (v & st2 & E2 & Hv & _).
    assert (Hinv2 : cache_inv st2) by (eapply lookup_or_compute_inv; eassumption).
    destruct (run_lookups_total np_dot cosx cdist post st2 Hinv2)
      as (st3 & E3 & Hinv3 & Hkeep).
    exists st1, v, st2, st3. split_and!; try assumption.
    + apply lookup_hit, Hkeep, Hv.
    + apply lookup_hit. rewrite <- (cached_sym st3 a b Hinv3). apply Hkeep, Hv.
    + apply Hinv3.
  - intros model_type embeddings t files st Hrun.
    destruct (triplets_rows np_dot cosx cdist _ _ _ _ _ Hrun) as [Hreach Hrows].
    pose proof (reached_inv np_dot cosx cdist st Hreach) as Hinv.
    split_and!; try assumption.
    + apply Hinv.
    + intros x y. apply cached_sym, Hinv.
Qed.
End CacheClaim.

(** ** The cells of a row *)

Ltac row_lookup :=
  repeat first
    [ rewrite lookup_insert_eq
    | rewrite lookup_insert_ne by (intros [=]) ].

Section Rows.
Context {vec : Type}.
Implicit Types r base : gmap string (cell vec).

Lemma closer_pair_exactly_one (b : bool) :
  exactly_one (closer_pair b).1 (closer_pair b).2.
Proof. destruct b; [left|right]; split; reflexivity. Qed.

Lemma closer_pair_shape (b : bool) : (closer_pair b).1 = 1 <-> b = true.
Proof. destruct b; simpl; split; intros H; try reflexivity; discriminate H. Qed.

Lemma triplet_row_measures base sm tm sd sc se td tc te :
  let r := triplet_row base sm tm (sd, sc, se) (td, tc, te) in
  r !! "Shape Dot"%string = Some (CNum sd) /\
  r !! "Shape Cos"%string = Some (CNum sc) /\
  r !! "Shape ED"%string = Some (CNum se) /\
  r !! "Texture Dot"%string = Some (CNum td) /\
  r !! "Texture Cos"%string = Some (CNum tc) /\
  r !! "Texture ED"%string = Some (CNum te).
Proof.
  unfold triplet_row, set_closer, set_measures. simpl.
  repeat split; row_lookup; reflexivity.
Qed.

Lemma triplet_row_closer base sm tm sd sc se td tc te :
  let r := triplet_row base sm tm (sd, sc, se) (td, tc, te) in
  r !! "Shape Dot Closer"%string = Some (CInt (closer_pair (Qgtb sd td)).1) /\
  r !! "Texture Dot Closer"%string = Some (CInt (closer_pair (Qgtb sd td)).2) /\
  r !! "Shape Cos Closer"%string = Some (CInt (closer_pair (Qgtb sc tc)).1) /\
  r !! "Texture Cos Closer"%string = Some (CInt (closer_pair (Qgtb sc tc)).2) /\
  r !! "Shape ED Closer"%string = Some (CInt (closer_pair (Qltb se te)).1) /\
  r !! "Texture ED Closer"%string = Some (CInt (closer_pair (Qltb se te)).2).
Proof.
  unfold triplet_row, set_closer, set_measures. simpl.
  repeat split; row_lookup; reflexivity.
Qed.

Lemma triplet_row_flags base sm tm sd sc se td tc te :
  read_flags (triplet_row base sm tm (sd, sc, se) (td, tc, te))
  = Ok {| shape_dot_closer := (closer_pair (Qgtb sd td)).1;
          shape_cos_closer := (closer_pair (Qgtb sc tc)).1;
          shape_ed_closer := (closer_pair (Qltb se te)).1;
          texture_dot_closer := (closer_pair (Qgtb sd td)).2;
          texture_cos_closer := (closer_pair (Qgtb sc tc)).2;
          texture_ed_closer := (closer_pair (Qltb se te)).2 |}.
Proof.
  destruct (triplet_row_closer base sm tm sd sc se td tc te)
    as (H1 & H2 & H3 & H4 & H5 & H6).
  unfold read_flags, row_get, dict_get. rewrite H1, H2, H3, H4, H5, H6. reflexivity.
Qed.

Lemma cell_shape_closer (b : bool) :
  Some (CInt (vec := vec) (closer_pair b).1) = Some (CInt 1) <-> b = true.
Proof.
  destruct b; simpl; split; intros H; try reflexivity; discriminate H.
Qed.

Lemma cells_tie (b : bool) :
  b = false ->
  Some (CInt (vec := vec) (closer_pair b).1) = Some (CInt 0) /\
  Some (CInt (vec := vec) (closer_pair b).2) = Some (CInt 1).
Proof. intros ->. split; reflexivity. Qed.

Lemma Qgtb_tie (x y : Q) : (x == y)%Q -> Qgtb x y = false /\ Qgtb y x = false.
Proof.
  intros H. split; apply Qgtb_false; rewrite H; apply Qle_refl.
Qed.

(** C4: the three shape-closer indicators of a triplet's row are 1
    exactly when the shape leg has the strictly larger dot product, the
    strictly larger cosine similarity, the strictly smaller Euclidean
    distance; on a tie the shape indicator is 0 and the texture
    indicator is 1. With dot products 5 and 3 the dot indicators are 1
    and 0, with distances 2 and 1 the shape indicator is 0. *)
Theorem closer_indicators_strict base (sm tm : string) (sd sc se td tc te : Q) :
  let r := triplet_row base sm tm (sd, sc, se) (td, tc, te) in
  (r !! "Shape Dot Closer"%string = Some (CInt 1) <-> (td < sd)%Q) /\
  (r !! "Shape Cos Closer"%string = Some (CInt 1) <-> (tc < sc)%Q) /\
  (r !! "Shape ED Closer"%string = Some (CInt 1) <-> (se < te)%Q) /\
  ((sd == td)%Q ->
   r !! "Shape Dot Closer"%string = Some (CInt 0) /\
   r !! "Texture Dot Closer"%string = Some (CInt 1)) /\
  ((sc == tc)%Q ->
   r !! "Shape Cos Closer"%string = Some (CInt 0) /\
   r !! "Texture Cos Closer"%string = Some (CInt 1)) /\
  ((se == te)%Q ->
   r !! "Shape ED Closer"%string = Some (CInt 0) /\
   r !! "Texture ED Closer"%string = Some (CInt 1)) /\
  let r' := triplet_row base sm tm (5, sc, 2)%Q (3, tc, 1)%Q in
  r' !! "Shape Dot Closer"%string = Some (CInt 1) /\
  r' !! "Texture Dot Closer"%string = Some (CInt 0) /\
  r' !! "Shape ED Closer"%string = Some (CInt 0).
Proof.
  intros r.
  destruct (triplet_row_closer base sm tm sd sc se td tc te)
    as (H1 & H2 & H3 & H4 & H5 & H6).
  fold r in H1, H2, H3, H4, H5, H6. rewrite H1, H2, H3, H4, H5, H6.
  rewrite !cell_shape_closer, !Qgtb_true. unfold Qltb. rewrite Qgtb_true.
  split_and!; try reflexivity.
  - intros H. apply cells_tie, (proj1 (Qgtb_tie _ _ H)).
  - intros H. apply cells_tie, (proj1 (Qgtb_tie _ _ H)).
  - intros H. apply cells_tie, (proj2 (Qgtb_tie _ _ H)).
  - apply (triplet_row_closer base sm tm 5 sc 2 3 tc 1).
  - apply (triplet_row_closer base sm tm 5 sc 2 3 tc 1).
  - apply (triplet_row_closer base sm tm 5 sc 2 3 tc 1).
Qed.
End Rows.

(** ** Similarity Totals Aggregator *)

Section Totals.
Context {vec : Type}.
Implicit Types (r : gmap string (cell vec)) (sim_dir : list (string * list (gmap string (cell vec)))).

Lemma table_rows_cons (file : string * list (gmap string (cell vec))) sim_dir :
  table_rows (file :: sim_dir)
  = (if derived file.1 then [] else file.2) ++ table_rows sim_dir.
Proof. reflexivity. Qed.

Lemma sums_step_add_up s f :
  sums_add_up s -> complementary f ->
  sums_add_up (sums_step s f) /\ num_rows (sums_step s f) = num_rows s + 1.
Proof.
  unfold sums_add_up, complementary, exactly_one, sums_step. simpl. lia.
Qed.

Lemma sums_rows rows : forall s,
  sums_add_up s -> Forall complementary_row rows ->
  exists s', for_each (fun s r => f ← read_flags r; Ok (sums_step s f)) s rows = Ok s' /\
    sums_add_up s' /\ num_rows s' = num_rows s + Z.of_nat (length rows).
Proof.
  induction rows as [|r rows IH]; intros s Hs Hall.
  - exists s. simpl. split_and!; [reflexivity|exact Hs|lia].
  - apply Forall_cons in Hall as [(f & Ef & Hf) Hall].
    destruct (sums_step_add_up s f Hs Hf) as [Hs1 Hn1].
    destruct (IH _ Hs1 Hall) as (s' & E' & Hs' & Hn').
    exists s'. rewrite for_each_cons, Ef. split_and!; [exact E'|exact Hs'|].
    rewrite Hn', Hn1, length_cons. lia.
Qed.

Lemma sums_file_step_unfold s (file : string * list (gmap string (cell vec))) :
  sums_file_step s file
  = if derived file.1 then Ok s
    else for_each (fun s r => f ← read_flags r; Ok (sums_step s f)) s file.2.
Proof. reflexivity. Qed.

Lemma matrix_file_step_unfold m (file : string * list (gmap string (cell vec))) :
  matrix_file_step m file
  = if derived file.1 then Ok m
    else for_each (fun m r => f ← read_flags r; Ok (matrix_step m f)) m file.2.
Proof. reflexivity. Qed.

Lemma sums_files sim_dir : forall s,
  sums_add_up s -> Forall complementary_row (table_rows sim_dir) ->
  exists s', for_each sums_file_step s sim_dir = Ok s' /\
    sums_add_up s' /\ num_rows s' = num_rows s + Z.of_nat (length (table_rows sim_dir)).
Proof.
  induction sim_dir as [|file sim_dir IH]; intros s Hs Hall.
  - exists s. simpl. split_and!; [reflexivity|exact Hs|lia].
  - rewrite table_rows_cons in Hall. apply Forall_app in Hall as [Hfile Hall].
    rewrite for_each_cons, table_rows_cons, length_app, sums_file_step_unfold.
    destruct (derived file.1).
    + destruct (IH s Hs Hall) as (s' & E' & Hs' & Hn').
      exists s'. split_and!; [exact E'|exact Hs'|]. rewrite Hn'. simpl. lia.
    + destruct (sums_rows file.2 s Hs Hfile) as (s1 & E1 & Hs1 & Hn1).
      destruct (IH s1 Hs1 Hall) as (s' & E' & Hs' & Hn').
      exists s'. rewrite E1. split_and!; [exact E'|exact Hs'|]. rewrite Hn', Hn1. lia.
Qed.

Lemma matrix_step_complementary m f :
  complementary f -> counted_in_one_cell m (matrix_step m f).
Proof.
  unfold complementary, exactly_one, counted_in_one_cell, matrix_step.
  intros (Hd & Hc & _).
  repeat case_decide; simpl; lia.
Qed.

Lemma matrix_rows rows : forall m,
  Forall complementary_row rows ->
  exists m', for_each (fun m r => f ← read_flags r; Ok (matrix_step m f)) m rows = Ok m' /\
    matrix_total m' = matrix_total m + Z.of_nat (length rows).
Proof.
  induction rows as [|r rows IH]; intros m Hall.
  - exists m. simpl. split; [reflexivity|lia].
  - apply Forall_cons in Hall as [(f & Ef & Hf) Hall].
    destruct (IH (matrix_step m f) Hall) as (m' & E' & Hn').
    exists m'. rewrite for_each_cons, Ef. split; [exact E'|].
    rewrite Hn', length_cons.
    destruct (matrix_step_complementary m f Hf) as [Hone _].
    unfold matrix_total. lia.
Qed.

Lemma matrix_files sim_dir : forall m,
  Forall complementary_row (table_rows sim_dir) ->
  exists m', for_each matrix_file_step m sim_dir = Ok m' /\
    matrix_total m' = matrix_total m + Z.of_nat (length (table_rows sim_dir)).
Proof.
  induction sim_dir as [|file sim_dir IH]; intros m Hall.
  - exists m. simpl. split; [reflexivity|lia].
  - rewrite table_rows_cons in Hall. apply Forall_app in Hall as [Hfile Hall].
    rewrite for_each_cons, table_rows_cons, length_app, matrix_file_step_unfold.
    destruct (derived file.1).
    + destruct (IH m Hall) as (m' & E' & Hn').
      exists m'. split; [exact E'|]. rewrite Hn'. simpl. lia.
    + destruct (matrix_rows file.2 m Hfile) as (m1 & E1 & Hn1).
      destruct (IH m1 Hall) as (m' & E' & Hn').
      exists m'. rewrite E1. split; [exact E'|]. rewrite Hn', Hn1. lia.
Qed.

Lemma proportions_sum (a b n : Z) :
  a + b = n -> n <> 0 ->
  (inject_Z a / inject_Z n + inject_Z b / inject_Z n == 1)%Q.
Proof.
  intros Hab Hn. unfold Qdiv.
  rewrite <- Qmult_plus_distr_l, <- inject_Z_plus, Hab.
  apply Qmult_inv_r. intros H.
  apply Hn. unfold Qeq in H. simpl in H. lia.
Qed.
End Totals.

(** ** Null-Model Generator: the row of a fake triplet *)

Lemma nan_row_None {vec : Type} (columns : list string) (c : string) :
  c ∉ columns -> nan_row (vec := vec) columns !! c = None.
Proof.
  induction columns as [|c' columns IH]; intros Hc; [apply lookup_empty|].
  unfold nan_row. rewrite foldr_cons. fold (nan_row (vec := vec) columns).
  rewrite lookup_insert_ne by (intros ->; apply Hc; left).
  apply IH. intros H. apply Hc. right. exact H.
Qed.

Section FakeRow.
Context {vec : Type} (np_dot cosx cdist spatial_distance_cosine : vec -> vec -> Q).

Lemma fake_row_cells (a s t : vec) :
  let f := fake_row np_dot spatial_distance_cosine a s t in
  f !! "Shape Dot"%string = Some (CNum (np_dot a s)) /\
  f !! "Texture Dot"%string = Some (CNum (np_dot a t)) /\
  f !! "Shape Cos"%string = Some (CNum (spatial_distance_cosine a s)) /\
  f !! "Texture Cos"%string = Some (CNum (spatial_distance_cosine a t)) /\
  f !! "Shape Dot Closer"%string
  = Some (CInt (closer_pair (Qgtb (np_dot a s) (np_dot a t))).1) /\
  f !! "Texture Dot Closer"%string
  = Some (CInt (closer_pair (Qgtb (np_dot a s) (np_dot a t))).2) /\
  f !! "Shape Cos Closer"%string
  = Some (CInt (closer_pair (Qgtb (spatial_distance_cosine a s)
                               (spatial_distance_cosine a t))).1) /\
  f !! "Texture Cos Closer"%string
  = Some (CInt (closer_pair (Qgtb (spatial_distance_cosine a s)
                               (spatial_distance_cosine a t))).2).
Proof.
  unfold fake_row. cbv zeta. split_and!; row_lookup; reflexivity.
Qed.

Lemma fake_row_no_ed (a s t : vec) :
  let f := fake_row np_dot spatial_distance_cosine a s t in
  f !! "Shape ED"%string = None /\ f !! "Texture ED"%string = None /\
  f !! "Shape ED Closer"%string = None /\ f !! "Texture ED Closer"%string = None.
Proof.
  unfold fake_row. cbv zeta.
  split_and!; row_lookup; apply nan_row_None; unfold columns_fake;
    intros H; repeat (apply elem_of_cons in H as [[=]|H]); inversion H.
Qed.

Lemma fake_row_vectors (a s t : vec) :
  let f := fake_row np_dot spatial_distance_cosine a s t in
  f !! "Anchor"%string = Some (CVec a) /\
  f !! "Shape Match"%string = Some (CVec s) /\
  f !! "Texture Match"%string = Some (CVec t).
Proof.
  unfold fake_row. cbv zeta. split_and!; row_lookup; reflexivity.
Qed.

(** The row of a fake triplet beside the row of [triplets] for the same
    vectors: the same dot products and dot indicators, and no cell for a
    Euclidean distance or its indicators, which the row of [triplets]
    has. *)
Lemma fake_row_engine_cells (base : gmap string (cell vec)) (sm tm : string) (a s t : vec) :
  let f := fake_row np_dot spatial_distance_cosine a s t in
  let e := triplet_row base sm tm (np_dot a s, cosx a s, cdist s a)
             (np_dot a t, cosx a t, cdist t a) in
  f !! "Shape Dot"%string = e !! "Shape Dot"%string /\
  f !! "Texture Dot"%string = e !! "Texture Dot"%string /\
  f !! "Shape Dot Closer"%string = e !! "Shape Dot Closer"%string /\
  f !! "Texture Dot Closer"%string = e !! "Texture Dot Closer"%string /\
  f !! "Shape ED"%string = None /\ f !! "Texture ED"%string = None /\
  f !! "Shape ED Closer"%string = None /\ f !! "Texture ED Closer"%string = None /\
  is_Some (e !! "Shape ED"%string) /\ is_Some (e !! "Texture ED"%string) /\
  is_Some (e !! "Shape ED Closer"%string) /\ is_Some (e !! "Texture ED Closer"%string).
Proof.
  intros f e.
  destruct (fake_row_cells a s t) as (F1 & F2 & _ & _ & F5 & F6 & _ & _).
  destruct (fake_row_no_ed a s t) as (N1 & N2 & N3 & N4).
  destruct (triplet_row_measures base sm tm (np_dot a s) (cosx a s) (cdist s a)
              (np_dot a t) (cosx a t) (cdist t a)) as (M1 & _ & M3 & M4 & _ & M6).
  destruct (triplet_row_closer base sm tm (np_dot a s) (cosx a s) (cdist s a)
              (np_dot a t) (cosx a t) (cdist t a)) as (C1 & C2 & _ & _ & C5 & C6).
  fold f in F1, F2, F5, F6, N1, N2, N3, N4.
  fold e in M1, M3, M4, M6, C1, C2, C5, C6.
  rewrite F1, F2, F5, F6, M1, M3, M4, M6, C1, C2, C5, C6, N1, N2, N3, N4.
  split_and!; try reflexivity; eexists; reflexivity.
Qed.
End FakeRow.

(** C6 (as stated) fails: for the sample vectors the fake row has no
    Euclidean distance and no Euclidean indicator where the row of
    [triplets] has the distance 2 and the indicator 0, and its cosine cell
    holds the cosine distance 1/10 where the row of [triplets] holds the
    similarity 9/10, so that the cosine indicators of the two rows point to
    opposite legs. *)
Lemma fake_row_differs_from_triplet_row :
  let f := fake_row sample_dot sample_spatial_distance_cosine 0%nat 1%nat 2%nat in
  let e := triplet_row (vec := nat) ∅ "s.png" "t.png"
             (sample_dot 0 1, sample_cosx 0 1, sample_cdist 1 0)%nat
             (sample_dot 0 2, sample_cosx 0 2, sample_cdist 2 0)%nat in
  (f !! "Shape ED"%string = None /\ e !! "Shape ED"%string = Some (CNum 2)) /\
  (f !! "Shape ED Closer"%string = None /\
   e !! "Shape ED Closer"%string = Some (CInt 0)) /\
  (f !! "Shape Cos"%string = Some (CNum (1 - (9 # 10))) /\
   e !! "Shape Cos"%string = Some (CNum (9 # 10))) /\
  (f !! "Shape Cos Closer"%string = Some (CInt 0) /\
   e !! "Shape Cos Closer"%string = Some (CInt 1)).
Proof.
  intros f e.
  destruct (fake_row_cells sample_dot sample_spatial_distance_cosine 0%nat 1%nat 2%nat)
    as (_ & _ & F3 & _ & _ & _ & F7 & _).
  destruct (fake_row_no_ed sample_dot sample_spatial_distance_cosine 0%nat 1%nat 2%nat)
    as (N1 & _ & N3 & _).
  destruct (triplet_row_measures (vec := nat) ∅ "s.png" "t.png"
              (sample_dot 0 1) (sample_cosx 0 1) (sample_cdist 1 0)
              (sample_dot 0 2) (sample_cosx 0 2) (sample_cdist 2 0))
    as (_ & M2 & M3 & _).
  destruct (triplet_row_closer (vec := nat) ∅ "s.png" "t.png"
              (sample_dot 0 1) (sample_cosx 0 1) (sample_cdist 1 0)
              (sample_dot 0 2) (sample_cosx 0 2) (sample_cdist 2 0))
    as (_ & _ & C3 & _ & C5 & _).
  split_and!; first [exact N1 | exact N3 | exact F3 | exact F7 | exact M2 | exact M3
                    | exact C3 | exact C5].
Qed.

(** ** Complementary indicators *)

Section Complementary.
Context {vec : Type} (np_dot cosx cdist spatial_distance_cosine : vec -> vec -> Q).

Lemma triplet_row_complementary (base : gmap string (cell vec)) sm tm sv tv :
  complementary_row (triplet_row base sm tm sv tv).
Proof.
  destruct sv as [[sd sc] se], tv as [[td tc] te].
  eexists. split; [apply triplet_row_flags|].
  split_and!; apply closer_pair_exactly_one.
Qed.

Lemma row_of_cache_complementary st (r : gmap string (cell vec)) :
  row_of_cache st r -> complementary_row r.
Proof.
  intros (base & anchor & sm & tm & sv & tv & -> & _).
  apply triplet_row_complementary.
Qed.

(** C10: in every row that [triplets] writes the three pairs of
    indicators are complementary, and so are the two pairs of a fake row;
    on tables of rows with complementary indicators the proportions of
    every measure sum to 1, the four cells of the matrix sum to the
    number of rows, and every row is counted in exactly one cell. *)
Theorem closer_indicators_complementary :
  (forall model_type embeddings t files st,
     triplets np_dot cosx cdist model_type embeddings t = Ok (files, st) ->
     Forall (fun file => Forall (complementary_row (vec := vec)) file.2) files) /\
  (forall a s t,
     let f := fake_row np_dot spatial_distance_cosine a s t in
     exists sd td sc tc,
       f !! "Shape Dot Closer"%string = Some (CInt sd) /\
       f !! "Texture Dot Closer"%string = Some (CInt td) /\
       f !! "Shape Cos Closer"%string = Some (CInt sc) /\
       f !! "Texture Cos Closer"%string = Some (CInt tc) /\
       exactly_one sd td /\ exactly_one sc tc) /\
  (forall sim_dir : list (string * list (gmap string (cell vec))),
     Forall complementary_row (table_rows sim_dir) -> table_rows sim_dir ≠ [] ->
     exists p,
       calculate_similarity_totals false sim_dir = Ok (ProportionsTable p) /\
       (Shape_Dot_Closer p + Texture_Dot_Closer p == 1)%Q /\
       (Shape_Cos_Closer p + Texture_Cos_Closer p == 1)%Q /\
       (Shape_ED_Closer p + Texture_ED_Closer p == 1)%Q) /\
  (forall sim_dir : list (string * list (gmap string (cell vec))),
     Forall complementary_row (table_rows sim_dir) ->
     exists m,
       calculate_similarity_totals true sim_dir = Ok (MatrixTable m) /\
       matrix_total m = Z.of_nat (length (table_rows sim_dir))) /\
  (forall m f, complementary f -> counted_in_one_cell m (matrix_step m f)).
Proof.
  split_and!.
  - intros model_type embeddings t files st Hrun.
    destruct (triplets_rows np_dot cosx cdist _ _ _ _ _ Hrun) as [_ Hrows].
    eapply Forall_impl; [exact Hrows|]. intros file Hfile.
    eapply Forall_impl; [exact Hfile|]. apply row_of_cache_complementary.
  - intros a s t f.
    destruct (fake_row_cells np_dot spatial_distance_cosine a s t)
      as (_ & _ & _ & _ & F5 & F6 & F7 & F8).
    eexists _, _, _, _. split_and!; try eassumption; apply closer_pair_exactly_one.
  - intros sim_dir Hall Hne.
    destruct (sums_files sim_dir
                {| shape_dot := 0; shape_cos := 0; shape_ed := 0; texture_dot := 0;
                   texture_cos := 0; texture_ed := 0; num_rows := 0 |})
      as (s & Es & (Hd & Hc & He) & Hn); [split_and!; reflexivity|exact Hall|].
    assert (Hpos : num_rows s <> 0).
    { rewrite Hn. simpl. destruct (table_rows sim_dir); [congruence|]. simpl. lia. }
    unfold calculate_similarity_totals. simpl negb. cbv iota. rewrite Es.
    change (Ok s ≫= ?k) with (k s). cbv beta.
    rewrite !(truediv_nonzero _ _ Hpos).
    eexists. split; [reflexivity|]. simpl.
    split_and!; apply proportions_sum; assumption.
  - intros sim_dir Hall.
    destruct (matrix_files sim_dir {| m0_0 := 0; m0_1 := 0; m1_0 := 0; m1_1 := 0 |} Hall)
      as (m & Em & Hm).
    exists m. unfold calculate_similarity_totals. simpl negb. cbv iota. rewrite Em.
    split; [reflexivity|]. rewrite Hm. unfold matrix_total. simpl. lia.
  - intros m f. apply matrix_step_complementary.
Qed.
End Complementary.

(** ** The rows that the matrix counts *)

Lemma matrix_step_dropped (m : closer_matrix) (f : closer_flags) :
  dropped f -> matrix_step m f = m.
Proof.
  unfold dropped, matrix_step. intros H.
  repeat case_decide; try reflexivity; exfalso; intuition congruence.
Qed.

Lemma matrix_step_counted (m : closer_matrix) (f : closer_flags) :
  ~ dropped f -> matrix_total (matrix_step m f) = matrix_total m + 1.
Proof.
  unfold dropped, matrix_step, matrix_total. intros H.
  repeat case_decide; simpl; try lia; exfalso; apply H; intuition.
Qed.

Lemma dropped_names_no_winner (f : closer_flags) : dropped f <-> ~ names_winners f.
Proof.
  unfold dropped, names_winners.
  destruct (decide (shape_dot_closer f = 1)), (decide (texture_dot_closer f = 1)),
    (decide (shape_cos_closer f = 1)), (decide (texture_cos_closer f = 1)); tauto.
Qed.

(** C7 (as amended): every row that names a winner for the dot product
    and a winner for the cosine is counted in one cell of the matrix, the
    winners agreeing ([0,0] and [1,1]) or not ([1,0] and [0,1]); on tables
    of rows with complementary indicators, as [triplets] writes them, the
    four cells sum to the number of rows. A row is counted in no cell
    exactly when it names no winner for one of the two measures, and a
    table with such a row has cells that sum to less than its rows. *)
Theorem matrix_counts_winners :
  (forall m f, names_winners f ->
     matrix_step m f
     = if decide (shape_dot_closer f = 1) then
         if decide (shape_cos_closer f = 1)
         then {| m0_0 := m0_0 m + 1; m0_1 := m0_1 m; m1_0 := m1_0 m; m1_1 := m1_1 m |}
         else {| m0_0 := m0_0 m; m0_1 := m0_1 m; m1_0 := m1_0 m + 1; m1_1 := m1_1 m |}
       else
         if decide (shape_cos_closer f = 1)
         then {| m0_0 := m0_0 m; m0_1 := m0_1 m + 1; m1_0 := m1_0 m; m1_1 := m1_1 m |}
         else {| m0_0 := m0_0 m; m0_1 := m0_1 m; m1_0 := m1_0 m; m1_1 := m1_1 m + 1 |}) /\
  (forall m f, names_winners f -> matrix_total (matrix_step m f) = matrix_total m + 1) /\
  (forall m f, matrix_step m f = m <-> ~ names_winners f) /\
  (forall (vec : Type) (sim_dir : list (string * list (gmap string (cell vec)))),
     Forall complementary_row (table_rows sim_dir) ->
     exists m,
       calculate_similarity_totals true sim_dir = Ok (MatrixTable m) /\
       matrix_total m = Z.of_nat (length (table_rows sim_dir))) /\
  (exists (sim_dir : list (string * list (gmap string (cell nat)))) (m : closer_matrix),
     calculate_similarity_totals true sim_dir = Ok (MatrixTable m) /\
     matrix_total m < Z.of_nat (length (table_rows sim_dir))).
Proof.
  split_and!.
  - intros m f [Hd Hc]. unfold matrix_step.
    repeat case_decide; try reflexivity; exfalso; tauto.
  - intros m f Hw. apply matrix_step_counted. rewrite dropped_names_no_winner. tauto.
  - intros m f. rewrite <- dropped_names_no_winner.
    split; [|apply matrix_step_dropped].
    intros Heq. destruct (decide (dropped f)) as [Hd|Hd]; [exact Hd|].
    apply (matrix_step_counted m) in Hd. rewrite Heq in Hd. lia.
  - intros vec sim_dir Hall.
    destruct (matrix_files sim_dir {| m0_0 := 0; m0_1 := 0; m1_0 := 0; m1_1 := 0 |} Hall)
      as (m & Em & Hm).
    exists m. unfold calculate_similarity_totals. simpl negb. cbv iota. rewrite Em.
    split; [reflexivity|]. rewrite Hm. unfold matrix_total. simpl. lia.
  - exists sample_degenerate_dir, {| m0_0 := 0; m0_1 := 0; m1_0 := 0; m1_1 := 0 |}.
    split; [vm_compute; reflexivity|]. vm_compute. reflexivity.
Qed.

(** C7 (as stated) fails: a table with one row for each of the two ways
    in which the winners disagree has every row counted, the first in cell
    [1,0] and the second in cell [0,1]; no row is dropped. *)
Lemma disagreeing_winners_counted :
  calculate_similarity_totals true sample_disagreeing_dir
  = Ok (MatrixTable {| m0_0 := 0; m0_1 := 1; m1_0 := 1; m1_1 := 0 |}) /\
  length (table_rows sample_disagreeing_dir) = 2%nat /\
  matrix_total {| m0_0 := 0; m0_1 := 1; m1_0 := 1; m1_1 := 0 |} = 2.
Proof. vm_compute. split_and!; reflexivity. Qed.

(** ** Null-Model Generator: magnitudes *)

Lemma sumsq_nonneg (v : list R) : (0 <= sumsq v)%R.
Proof.
  induction v as [|x v IH]; simpl; [lra|]. nra.
Qed.

Lemma sumsq_pos (v : list R) : Exists (fun x => x <> 0%R) v -> (0 < sumsq v)%R.
Proof.
  induction 1 as [x v Hx|x v _ IH]; simpl.
  - pose proof (sumsq_nonneg v). nra.
  - nra.
Qed.

Lemma norm_pos (v : list R) : Exists (fun x => x <> 0%R) v -> (0 < norm v)%R.
Proof.
  intros H. apply sqrt_lt_R0, sumsq_pos, H.
Qed.

Lemma sumsq_scale (c : R) (v : list R) :
  sumsq (map (fun x => c * x)%R v) = (c * c * sumsq v)%R.
Proof.
  induction v as [|x v IH]; simpl; [ring|]. rewrite IH. ring.
Qed.

(** Over the real numbers the scaled vector has the magnitude asked for. *)
Lemma norm_rescale_exact (mag : R) (l : list R) :
  (0 <= mag)%R -> Exists (fun x => x <> 0%R) l ->
  norm (rescale_with Rmult Rdiv norm mag l) = mag.
Proof.
  intros Hmag Hl. pose proof (norm_pos l Hl) as Hpos.
  unfold rescale_with. cbv zeta.
  assert (E : map (fun x => (mag * x / norm l)%R) l
              = map (fun x => (mag / norm l * x)%R) l).
  { apply map_ext. intros x. field. lra. }
  rewrite E. unfold norm at 1. rewrite sumsq_scale.
  replace (sumsq l) with (norm l * norm l)%R
    by (unfold norm; apply sqrt_sqrt, sumsq_nonneg).
  replace (mag / norm l * (mag / norm l) * (norm l * norm l))%R with (mag * mag)%R
    by (field; lra).
  apply sqrt_square, Hmag.
Qed.

Lemma and_then_Ok {A B : Type} (m : option (result A)) (k : A -> option (result B))
    (b : B) :
  and_then m k = Some (Ok b) -> exists a, m = Some (Ok a) /\ k a = Some (Ok b).
Proof.
  destruct m as [[a|e]|]; simpl; [eauto|discriminate|discriminate].
Qed.

Section Generator.
Context (np_linalg_norm : list float -> float) (random_random : nat -> float)
  (normal_draws : float -> float -> nat -> float)
  (np_dot spatial_distance_cosine : list float -> list float -> Q).

(** The loop of lines 411-418 keeps the sum, the count, the running
    minimum and the running maximum of the magnitudes. *)
Lemma stats_foldl (embeddings : list (list float)) : forall s,
  let s' := foldl (stats_step np_linalg_norm) s embeddings in
  let mags := np_linalg_norm <$> embeddings in
  avg s' = foldl PrimFloat.add (avg s) mags /\
  num_embeddings s' = (num_embeddings s + length embeddings)%nat /\
  min_e s' = foldl (fun m x => if (x <? m)%float then x else m) (min_e s) mags /\
  max_e s' = foldl (fun m x => if (m <? x)%float then x else m) (max_e s) mags.
Proof.
  induction embeddings as [|e embeddings IH]; intros s.
  - simpl. split_and!; try reflexivity. lia.
  - simpl. destruct (IH (stats_step np_linalg_norm s e)) as (H1 & H2 & H3 & H4).
    split_and!; [exact H1| |exact H3|exact H4].
    rewrite H2. simpl. lia.
Qed.

Lemma magnitude_statistics_empirical (embeddings : list (list float)) :
  let s := magnitude_statistics np_linalg_norm embeddings in
  let mags := np_linalg_norm <$> embeddings in
  avg s = mean mags /\ min_e s = least mags /\ max_e s = greatest mags.
Proof.
  destruct (stats_foldl embeddings
              {| avg := 0; num_embeddings := 0; min_e := infinity; max_e := 0 |})
    as (H1 & H2 & H3 & H4).
  unfold magnitude_statistics. cbn [avg min_e max_e].
  rewrite H1, H2, H3, H4. cbn [avg num_embeddings min_e max_e].
  unfold mean, float_sum, least, greatest. rewrite length_fmap.
  split_and!; reflexivity.
Qed.

Lemma generate_fake_triplets_parameters (fuel n : nat) (first : list float)
    (rest : list (list float)) :
  let mags := np_linalg_norm <$> first :: rest in
  let loc := mean mags in
  let scale := (py_min (loc - least mags) (greatest mags - loc) / 2)%float in
  generate_fake_triplets np_linalg_norm random_random normal_draws np_dot
    spatial_distance_cosine fuel (first :: rest) n
  = fake_rows np_linalg_norm random_random normal_draws np_dot spatial_distance_cosine
      fuel (length first) loc scale n {| uniform_calls := 0; normal_calls := 0 |}.
Proof.
  destruct (magnitude_statistics_empirical (first :: rest)) as (H1 & H2 & H3).
  unfold generate_fake_triplets. cbv zeta. rewrite H1, H2, H3. reflexivity.
Qed.

(** The loop of lines 452-454 keeps the first draw that is not negative. *)
Lemma draw_magnitude_kept (loc scale : float) : forall fuel k m k',
  draw_magnitude normal_draws fuel loc scale k = Some (Ok (m, k')) ->
  exists j, k' = S (k + j) /\
    (forall i, (i < j)%nat -> (normal_draws loc scale (k + i) <? 0)%float = true) /\
    (normal_draws loc scale (k + j) <? 0)%float = false /\
    m = normal_draws loc scale (k + j).
Proof.
  induction fuel as [|fuel IH]; intros k m k'; simpl; [discriminate|].
  unfold np_random_normal. destruct (get_sign scale); [discriminate|].
  destruct (normal_draws loc scale k <? 0)%float eqn:E.
  - intros H. destruct (IH _ _ _ H) as (j & -> & Hneg & Hkept & ->).
    exists (S j). rewrite <- !Nat.add_succ_comm. split_and!; try reflexivity; [|exact Hkept].
    intros [|i] Hi; [rewrite Nat.add_0_r; exact E|].
    rewrite <- Nat.add_succ_comm. apply Hneg. lia.
  - intros [= <- <-]. exists 0%nat. rewrite Nat.add_0_r.
    split_and!; try reflexivity; [|exact E]. intros i Hi. lia.
Qed.

Lemma draw_magnitude_total (loc scale : float) :
  get_sign scale = false ->
  forall fuel k j, (j < fuel)%nat ->
    (normal_draws loc scale (k + j) <? 0)%float = false ->
    exists m k', draw_magnitude normal_draws fuel loc scale k = Some (Ok (m, k')).
Proof.
  intros Hscale. induction fuel as [|fuel IH]; intros k j Hj Hkept; [lia|].
  simpl. unfold np_random_normal. rewrite Hscale.
  destruct (normal_draws loc scale k <? 0)%float eqn:E; [|eauto].
  destruct j as [|j]; [rewrite Nat.add_0_r in Hkept; congruence|].
  apply (IH (S k) j); [lia|]. rewrite Nat.add_succ_comm. exact Hkept.
Qed.

Lemma draw_magnitude_ValueError (loc scale : float) (fuel k : nat) :
  get_sign scale = true ->
  draw_magnitude normal_draws (S fuel) loc scale k = Some (Raise ValueError).
Proof.
  intros Hscale. simpl. unfold np_random_normal. rewrite Hscale. reflexivity.
Qed.

Lemma fake_vector_produced (fuel size : nat) (loc scale : float) (g g' : rng)
    (v : list float) :
  fake_vector np_linalg_norm random_random normal_draws fuel size loc scale g
  = Some (Ok (v, g')) ->
  produced np_linalg_norm random_random normal_draws loc scale size v.
Proof.
  unfold fake_vector. cbv zeta. intros H.
  apply and_then_Ok in H as ([m k'] & Hm & H). simpl in H. simplify_eq.
  destruct (draw_magnitude_kept _ _ _ _ _ _ Hm) as (j & _ & Hneg & Hkept & ->).
  exists (uniform_calls g), (normal_calls g), j. auto.
Qed.

Lemma fake_vector_total (fuel size : nat) (loc scale : float) (g : rng) :
  get_sign scale = false ->
  (forall k, exists j, (j < fuel)%nat /\ (normal_draws loc scale (k + j) <? 0)%float = false) ->
  exists v g', fake_vector np_linalg_norm random_random normal_draws fuel size loc scale g
               = Some (Ok (v, g')).
Proof.
  intros Hscale Hdraws. destruct (Hdraws (normal_calls g)) as (j & Hj & Hkept).
  destruct (draw_magnitude_total loc scale Hscale fuel _ j Hj Hkept) as (m & k' & E).
  unfold fake_vector. cbv zeta. rewrite E. simpl. eauto.
Qed.

Lemma fake_vector_ValueError (fuel size : nat) (loc scale : float) (g : rng) :
  get_sign scale = true ->
  fake_vector np_linalg_norm random_random normal_draws (S fuel) size loc scale g
  = Some (Raise ValueError).
Proof.
  intros Hscale. unfold fake_vector. cbv zeta.
  rewrite (draw_magnitude_ValueError _ _ _ _ Hscale). reflexivity.
Qed.

(** The rows of the generator: one per triplet, each the row of three
    vectors of the generator. *)
Lemma fake_rows_produced (fuel size : nat) (loc scale : float) : forall n g rows,
  fake_rows np_linalg_norm random_random normal_draws np_dot spatial_distance_cosine
    fuel size loc scale n g = Some (Ok rows) ->
  length rows = n /\
  Forall (fun r => exists a s t,
            r = fake_row np_dot spatial_distance_cosine a s t /\
            produced np_linalg_norm random_random normal_draws loc scale size a /\
            produced np_linalg_norm random_random normal_draws loc scale size s /\
            produced np_linalg_norm random_random normal_draws loc scale size t) rows.
Proof.
  induction n as [|n IH]; intros g rows; simpl.
  - intros [= <-]. split; [reflexivity|constructor].
  - intros H. apply and_then_Ok in H as ([r g1] & Hr & H).
    apply and_then_Ok in H as (rs & Hrs & H). simpl in H, Hrs. simplify_eq.
    destruct (IH _ _ Hrs) as [Hlen Hall].
    split; [simpl; rewrite Hlen; reflexivity|]. constructor; [|exact Hall].
    unfold fake_triplet in Hr.
    apply and_then_Ok in Hr as ([a ga] & Ha & Hr).
    apply and_then_Ok in Hr as ([s gs] & Hs & Hr).
    apply and_then_Ok in Hr as ([t gt] & Ht & Hr). simpl in Hs, Ht, Hr. simplify_eq.
    exists a, s, t. split; [reflexivity|].
    split_and!; eapply fake_vector_produced; eassumption.
Qed.

Lemma fake_rows_total (fuel size : nat) (loc scale : float) :
  get_sign scale = false ->
  (forall k, exists j, (j < fuel)%nat /\ (normal_draws loc scale (k + j) <? 0)%float = false) ->
  forall n g, exists rows,
    fake_rows np_linalg_norm random_random normal_draws np_dot spatial_distance_cosine
      fuel size loc scale n g = Some (Ok rows).
Proof.
  intros Hscale Hdraws. induction n as [|n IH]; intros g; simpl; [eauto|].
  unfold fake_triplet.
  destruct (fake_vector_total fuel size loc scale g Hscale Hdraws) as (a & ga & ->).
  cbn [and_then fst snd].
  destruct (fake_vector_total fuel size loc scale ga Hscale Hdraws) as (s & gs & ->).
  cbn [and_then fst snd].
  destruct (fake_vector_total fuel size loc scale gs Hscale Hdraws) as (t & gt & ->).
  cbn [and_then fst snd].
  destruct (IH gt) as (rows & ->). cbn [and_then]. eauto.
Qed.

Lemma fake_rows_ValueError (fuel size : nat) (loc scale : float) (n : nat) (g : rng) :
  get_sign scale = true ->
  fake_rows np_linalg_norm random_random normal_draws np_dot spatial_distance_cosine
    (S fuel) size loc scale (S n) g = Some (Raise ValueError).
Proof.
  intros Hscale. cbn [fake_rows]. unfold fake_triplet.
  rewrite (fake_vector_ValueError _ _ _ _ _ Hscale). reflexivity.
Qed.

(** C9 (as amended): every vector in the table of the generator is the
    vector of uniform coordinates multiplied by its target magnitude and
    divided by its own magnitude; the target is the first draw that is not
    negative of a run of draws from [np.random.normal], called with the
    mean of the magnitudes of the embeddings as location and half the
    smaller of (mean - least) and (greatest - mean) as scale, all in
    doubles. The generator returns such a table when the scale is not
    negative and every run of draws reaches a draw that is not negative.
    Over the real numbers a vector scaled that way has its target as
    magnitude. *)
Theorem fake_vector_magnitude (fuel n : nat) (embeddings : list (list float)) :
  let mags := np_linalg_norm <$> embeddings in
  let loc := mean mags in
  let scale := (py_min (loc - least mags) (greatest mags - loc) / 2)%float in
  let size := length (default [] (head embeddings)) in
  (forall rows,
     generate_fake_triplets np_linalg_norm random_random normal_draws np_dot
       spatial_distance_cosine fuel embeddings n = Some (Ok rows) ->
     length rows = n /\
     Forall (fun r => exists a s t,
               r = fake_row np_dot spatial_distance_cosine a s t /\
               produced np_linalg_norm random_random normal_draws loc scale size a /\
               produced np_linalg_norm random_random normal_draws loc scale size s /\
               produced np_linalg_norm random_random normal_draws loc scale size t) rows) /\
  (embeddings ≠ [] -> get_sign scale = false ->
   (forall k, exists j,
      (j < fuel)%nat /\ (normal_draws loc scale (k + j) <? 0)%float = false) ->
   exists rows,
     generate_fake_triplets np_linalg_norm random_random normal_draws np_dot
       spatial_distance_cosine fuel embeddings n = Some (Ok rows)) /\
  (forall (mag : R) (l : list R), (0 <= mag)%R -> Exists (fun x => x <> 0%R) l ->
     norm (rescale_with Rmult Rdiv norm mag l) = mag).
Proof.
  intros mags loc scale size. split_and!.
  - intros rows. destruct embeddings as [|first rest]; [discriminate|].
    rewrite generate_fake_triplets_parameters. apply fake_rows_produced.
  - intros Hne Hscale Hdraws. destruct embeddings as [|first rest]; [congruence|].
    rewrite generate_fake_triplets_parameters.
    apply fake_rows_total; assumption.
  - apply norm_rescale_exact.
Qed.

(** C6 (as amended): the generator writes the rows of all its triplets to
    one table, one row per triplet; the row of a triplet holds the dot
    products of the two legs and the two dot indicators that the row of
    [triplets] holds for the same vectors, and it has no cell for a
    Euclidean distance or its indicators, which the row of [triplets]
    has. The generator returns that table when the scale is not negative
    and every run of draws reaches a draw that is not negative. *)
Theorem fake_table_measures (cosx cdist : list float -> list float -> Q)
    (fuel n : nat) (embeddings : list (list float)) :
  (forall rows,
     generate_fake_triplets np_linalg_norm random_random normal_draws np_dot
       spatial_distance_cosine fuel embeddings n = Some (Ok rows) ->
     length rows = n /\
     Forall (fun f => exists a s t,
       f = fake_row np_dot spatial_distance_cosine a s t /\
       forall (base : gmap string (cell (list float))) (sm tm : string),
         let e := triplet_row base sm tm (np_dot a s, cosx a s, cdist s a)
                    (np_dot a t, cosx a t, cdist t a) in
         f !! "Shape Dot"%string = e !! "Shape Dot"%string /\
         f !! "Texture Dot"%string = e !! "Texture Dot"%string /\
         f !! "Shape Dot Closer"%string = e !! "Shape Dot Closer"%string /\
         f !! "Texture Dot Closer"%string = e !! "Texture Dot Closer"%string /\
         f !! "Shape ED"%string = None /\ f !! "Texture ED"%string = None /\
         f !! "Shape ED Closer"%string = None /\ f !! "Texture ED Closer"%string = None /\
         is_Some (e !! "Shape ED"%string) /\ is_Some (e !! "Texture ED"%string) /\
         is_Some (e !! "Shape ED Closer"%string) /\
         is_Some (e !! "Texture ED Closer"%string)) rows) /\
  (embeddings ≠ [] ->
   let mags := np_linalg_norm <$> embeddings in
   let loc := mean mags in
   let scale := (py_min (loc - least mags) (greatest mags - loc) / 2)%float in
   get_sign scale = false ->
   (forall k, exists j,
      (j < fuel)%nat /\ (normal_draws loc scale (k + j) <? 0)%float = false) ->
   exists rows,
     generate_fake_triplets np_linalg_norm random_random normal_draws np_dot
       spatial_distance_cosine fuel embeddings n = Some (Ok rows) /\
     length rows = n).
Proof.
  split.
  - intros rows. destruct embeddings as [|first rest]; [discriminate|].
    rewrite generate_fake_triplets_parameters. intros H.
    destruct (fake_rows_produced _ _ _ _ _ _ _ H) as [Hlen Hall].
    split; [exact Hlen|]. eapply Forall_impl; [exact Hall|].
    intros f (a & s & t & -> & _). exists a, s, t. split; [reflexivity|].
    intros base sm tm. apply fake_row_engine_cells.
  - intros Hne mags loc scale Hscale Hdraws.
    destruct embeddings as [|first rest]; [congruence|].
    rewrite generate_fake_triplets_parameters.
    destruct (fake_rows_total fuel (length first) loc scale Hscale Hdraws n
                {| uniform_calls := 0; normal_calls := 0 |}) as [rows Hrows].
    exists rows. split; [exact Hrows|].
    apply (fake_rows_produced _ _ _ _ _ _ _ Hrows).
Qed.

(** [generate_fake_triplets] raises [IndexError] on an empty dictionary of
    embeddings. When the scale computed from the embeddings has its sign
    bit set, the first call of [np.random.normal] raises [ValueError] and
    no row is generated; without a triplet to generate the table is
    empty. *)
Theorem generator_errors (fuel n : nat) (embeddings : list (list float)) :
  let mags := np_linalg_norm <$> embeddings in
  let loc := mean mags in
  let scale := (py_min (loc - least mags) (greatest mags - loc) / 2)%float in
  embeddings ≠ [] -> get_sign scale = true ->
  generate_fake_triplets np_linalg_norm random_random normal_draws np_dot
    spatial_distance_cosine fuel [] n = Some (Raise IndexError) /\
  generate_fake_triplets np_linalg_norm random_random normal_draws np_dot
    spatial_distance_cosine (S fuel) embeddings (S n) = Some (Raise ValueError) /\
  generate_fake_triplets np_linalg_norm random_random normal_draws np_dot
    spatial_distance_cosine fuel embeddings 0 = Some (Ok []).
Proof.
  intros mags loc scale Hne Hscale.
  destruct embeddings as [|first rest]; [congruence|].
  split; [reflexivity|].
  rewrite !generate_fake_triplets_parameters. split; [|reflexivity].
  apply fake_rows_ValueError, Hscale.
Qed.
End Generator.

Lemma fake_vector_magnitude_witness :
  exists rows,
    generate_fake_triplets sample_norm sample_random_random sample_normal_draws
      (fun _ _ => 0%Q) (fun _ _ => 0%Q) 2 sample_magnitudes 1 = Some (Ok rows).
Proof.
  apply (proj1 (proj2 (fake_vector_magnitude sample_norm sample_random_random
                         sample_normal_draws (fun _ _ => 0%Q) (fun _ _ => 0%Q)
                         2 1 sample_magnitudes))).
  - discriminate.
  - vm_compute. reflexivity.
  - intros [|k]; [exists 1%nat|exists 0%nat]; (split; [lia|reflexivity]).
Defined.

Lemma fake_table_measures_witness :
  exists rows,
    generate_fake_triplets sample_norm sample_random_random sample_normal_draws
      (fun _ _ => 0%Q) (fun _ _ => 0%Q) 2 sample_magnitudes 3 = Some (Ok rows) /\
    length rows = 3%nat.
Proof.
  apply (proj2 (fake_table_measures sample_norm sample_random_random
                  sample_normal_draws (fun _ _ => 0%Q) (fun _ _ => 0%Q)
                  (fun _ _ => 0%Q) (fun _ _ => 0%Q) 2 3 sample_magnitudes)).
  - discriminate.
  - vm_compute. reflexivity.
  - intros [|k]; [exists 1%nat|exists 0%nat]; (split; [lia|reflexivity]).
Defined.

(** C9 (as stated) fails in doubles: with the embeddings of magnitudes 5
    and 10, every uniform draw 7/10 and the target 3 (the first normal
    draw, -1, is rejected), the anchor of the row is the vector
    (3 * 7/10) / (7/10), whose magnitude is 2.9999999999999996 and not the
    target. *)
Lemma fake_vector_magnitude_rounds :
  (exists r,
     generate_fake_triplets sample_norm sample_random_random sample_normal_draws
       (fun _ _ => 0%Q) (fun _ _ => 0%Q) 2 sample_magnitudes 1 = Some (Ok [r]) /\
     r !! "Anchor"%string = Some (CVec (rescale sample_norm 3 [(7 / 10)%float]))) /\
  (sample_norm (rescale sample_norm 3 [(7 / 10)%float]) =? 3)%float = false /\
  (sample_norm (rescale sample_norm 3 [(7 / 10)%float]) <? 3)%float = true.
Proof.
  split_and!; [|vm_compute; reflexivity|vm_compute; reflexivity].
  unfold sample_magnitudes. rewrite generate_fake_triplets_parameters.
  cbn [fake_rows]. unfold fake_triplet.
  set (loc := mean _). set (scale := (_ / 2)%float).
  assert (Ev : forall g, fake_vector sample_norm sample_random_random sample_normal_draws
                 2 1 loc scale g
               = Some (Ok (rescale sample_norm 3 [(7 / 10)%float],
                           {| uniform_calls := (uniform_calls g + 1)%nat;
                              normal_calls :=
                                match normal_calls g with O => 2 | S k => S (S k) end |}))).
  { intros [u [|k]]; vm_compute; reflexivity. }
  rewrite Ev. cbn [and_then fst snd]. rewrite Ev. cbn [and_then fst snd]. rewrite Ev.
  cbn [and_then fst snd]. eexists. split; [reflexivity|].
  apply fake_row_vectors.
Qed.

Lemma generator_errors_witness :
  generate_fake_triplets sample_norm sample_random_random sample_normal_draws
    (fun _ _ => 0%Q) (fun _ _ => 0%Q) 1 [] 1 = Some (Raise IndexError) /\
  generate_fake_triplets sample_norm sample_random_random sample_normal_draws
    (fun _ _ => 0%Q) (fun _ _ => 0%Q) 2 sample_equal_magnitudes 1
  = Some (Raise ValueError) /\
  generate_fake_triplets sample_norm sample_random_random sample_normal_draws
    (fun _ _ => 0%Q) (fun _ _ => 0%Q) 1 sample_equal_magnitudes 0 = Some (Ok []).
Proof.
  apply (generator_errors sample_norm sample_random_random sample_normal_draws
           (fun _ _ => 0%Q) (fun _ _ => 0%Q) 1 0 sample_equal_magnitudes).
  - discriminate.
  - vm_compute. reflexivity.
Defined.

(** In doubles the mean of three magnitudes 1/10 is above all of them. *)
Example sample_equal_magnitudes_mean :
  let mags := sample_norm <$> sample_equal_magnitudes in
  mags = [(1 / 10)%float; (1 / 10)%float; (1 / 10)%float] /\
  (greatest mags <? mean mags)%float = true /\
  ((py_min (mean mags - least mags) (greatest mags - mean mags) / 2) <? 0)%float = true.
Proof. vm_compute. split_and!; reflexivity. Qed.

(** * Further properties *)

(** ** Decision Reducer: errors *)

Lemma index_not_elem_of (x : string) (l : list string) :
  x ∉ l -> index x l = Raise ValueError.
Proof.
  induction l as [|y l IH]; intros Hx; [reflexivity|]. simpl.
  rewrite decide_False by (intros ->; apply Hx; left).
  rewrite IH by (intros H; apply Hx; right; exact H). reflexivity.
Qed.

Lemma index_Raise (x : string) (l : list string) (e : exn) :
  index x l = Raise e -> e = ValueError.
Proof.
  induction l as [|y l IH]; simpl; [congruence|].
  destruct (decide (y = x)); [discriminate|].
  destruct (index x l); simpl; [discriminate|]. intros [= <-]. apply IH. reflexivity.
Qed.

Lemma getitem_None {A : Type} (l : list A) (i : nat) :
  l !! i = None -> getitem l i = Raise IndexError.
Proof. unfold getitem. intros ->. reflexivity. Qed.

(** [decision_restricted] raises [ValueError] when a label is not a
    category, [IndexError] when the score vector does not reach the
    position of a label, and returns one of the two labels in every other
    case. *)
Theorem decision_restricted_outcome (cats : list string) (cv : list Q)
    (shape texture : string) :
  (shape ∉ cats \/ texture ∉ cats ->
   decision_restricted cats cv shape texture = Raise ValueError) /\
  (forall i j, index shape cats = Ok i -> index texture cats = Ok j ->
     (length cv <= i \/ length cv <= j)%nat ->
     decision_restricted cats cv shape texture = Raise IndexError) /\
  (forall i j, index shape cats = Ok i -> index texture cats = Ok j ->
     (i < length cv)%nat -> (j < length cv)%nat ->
     exists label, decision_restricted cats cv shape texture = Ok label /\
       (label = shape \/ label = texture)).
Proof.
  split_and!.
  - intros [Hs|Ht]; unfold decision_restricted.
    + rewrite (index_not_elem_of _ _ Hs). reflexivity.
    + destruct (index shape cats) as [i|e] eqn:Ei.
      * rewrite (index_not_elem_of _ _ Ht). reflexivity.
      * apply index_Raise in Ei as ->. reflexivity.
  - intros i j Hi Hj Hlen. unfold decision_restricted. rewrite Hi, Hj.
    change (Ok i ≫= ?k) with (k i). change (Ok j ≫= ?k) with (k j). cbv beta.
    destruct (cv !! i) as [cs|] eqn:Ecs;
      [rewrite (proj2 (getitem_Ok cv i cs) Ecs)|rewrite (getitem_None cv i Ecs); reflexivity].
    change (Ok cs ≫= ?k) with (k cs). cbv beta.
    destruct (cv !! j) as [ct|] eqn:Ect; [|rewrite (getitem_None cv j Ect); reflexivity].
    apply lookup_lt_Some in Ecs, Ect. lia.
  - intros i j Hi Hj Hilt Hjlt.
    apply lookup_lt_is_Some in Hilt as [cs Hcs]. apply lookup_lt_is_Some in Hjlt as [ct Hct].
    assert (Es : score cats cv shape = Ok cs).
    { unfold score. rewrite Hi. apply getitem_Ok, Hcs. }
    assert (Et : score cats cv texture = Ok ct).
    { unfold score. rewrite Hj. apply getitem_Ok, Hct. }
    rewrite (decision_restricted_scores _ _ _ _ _ _ Es Et).
    eexists. split; [reflexivity|]. destruct (Qgtb cs ct); auto.
Qed.

(** ** The decision bar of [plot_class_values] *)

Lemma max_from_ge (l : list Q) : forall best,
  (best <= max_from best l)%Q /\ forall x, x ∈ l -> (x <= max_from best l)%Q.
Proof.
  induction l as [|y l IH]; intros best; simpl.
  - split; [apply Qle_refl|]. intros x Hx. inversion Hx.
  - destruct (IH (if Qgtb y best then y else best)) as [Hb Hl].
    destruct (Qgtb y best) eqn:E.
    + apply Qgtb_true in E. split.
      * eapply Qle_trans; [apply Qlt_le_weak, E|exact Hb].
      * intros x [->|Hx]%elem_of_cons; [exact Hb|apply Hl, Hx].
    + apply Qgtb_false in E. split; [exact Hb|].
      intros x [->|Hx]%elem_of_cons; [|apply Hl, Hx].
      eapply Qle_trans; [exact E|exact Hb].
Qed.

Lemma max_from_elem_of (l : list Q) : forall best, max_from best l ∈ best :: l.
Proof.
  induction l as [|y l IH]; intros best; simpl; [left|].
  specialize (IH (if Qgtb y best then y else best)).
  destruct (Qgtb y best); apply elem_of_cons in IH as [->|IH].
  - right; left.
  - right; right; exact IH.
  - left.
  - right; right; exact IH.
Qed.

Lemma index_float_first (x : Q) (l : list Q) :
  (exists y, y ∈ l /\ (y == x)%Q) ->
  exists d y, index_float x l = Ok d /\ l !! d = Some y /\ (y == x)%Q /\
    forall j z, (j < d)%nat -> l !! j = Some z -> ~ (z == x)%Q.
Proof.
  induction l as [|y l IH]; intros (y0 & Hin & Heq); [inversion Hin|].
  simpl. destruct (Qeq_bool y x) eqn:E.
  - exists 0%nat, y. split_and!; try reflexivity; [apply Qeq_bool_iff, E|].
    intros j z Hj. lia.
  - assert (Hne : ~ (y == x)%Q).
    { intros H. apply Qeq_bool_iff in H. congruence. }
    apply elem_of_cons in Hin as [->|Hin]; [contradiction|].
    destruct IH as (d & y1 & -> & Hd & Hy1 & Hfirst); [eauto|].
    exists (S d), y1. split_and!; try assumption; [reflexivity|].
    intros [|j] z Hj; simpl; [intros [= <-]; exact Hne|].
    apply Hfirst. lia.
Qed.

(** The decision that [plot_class_values] highlights is the first of the
    largest class values: no value is larger and every value before it is
    strictly smaller. *)
Theorem plot_indices_argmax (categories : list string) (class_values : list Q)
    (shape texture : string) :
  class_values ≠ [] -> (length class_values <= length categories)%nat ->
  shape ∈ categories -> texture ∈ categories ->
  exists d decision si ti m,
    plot_indices categories class_values shape texture = Ok (d, decision, si, ti) /\
    categories !! d = Some decision /\
    categories !! si = Some shape /\ categories !! ti = Some texture /\
    class_values !! d = Some m /\
    (forall j x, class_values !! j = Some x -> (x <= m)%Q) /\
    (forall j x, (j < d)%nat -> class_values !! j = Some x -> (x < m)%Q).
Proof.
  intros Hne Hlen Hs Ht.
  destruct class_values as [|c0 cv]; [congruence|].
  pose proof (max_from_elem_of cv c0) as Hin.
  destruct (max_from_ge cv c0) as [Hge0 Hge].
  destruct (index_float_first (max_from c0 cv) (c0 :: cv)) as (d & m & Ed & Hd & Hm & Hfirst).
  { exists (max_from c0 cv). split; [exact Hin|reflexivity]. }
  assert (Hall : forall j x, (c0 :: cv) !! j = Some x -> (x <= max_from c0 cv)%Q).
  { intros j x Hx. apply list_elem_of_lookup_2 in Hx.
    apply elem_of_cons in Hx as [->|Hx]; [exact Hge0|apply Hge, Hx]. }
  assert (Hdlt : (d < length categories)%nat).
  { apply lookup_lt_Some in Hd. lia. }
  apply lookup_lt_is_Some in Hdlt as [decision Hdec].
  destruct (index_elem_of _ _ Hs) as [si Hsi].
  destruct (index_elem_of _ _ Ht) as [ti Hti].
  exists d, decision, si, ti, m. split_and!.
  - unfold plot_indices. change (py_max (c0 :: cv)) with (Ok (max_from c0 cv)).
    change (Ok (max_from c0 cv) ≫= ?k) with (k (max_from c0 cv)). cbv beta.
    rewrite Ed. change (Ok d ≫= ?k) with (k d). cbv beta.
    rewrite (proj2 (getitem_Ok _ _ _) Hdec), Hsi, Hti. reflexivity.
  - exact Hdec.
  - apply index_lookup, Hsi.
  - apply index_lookup, Hti.
  - exact Hd.
  - intros j x Hx. rewrite Hm. apply (Hall j x Hx).
  - intros j x Hj Hx. rewrite Hm.
    pose proof (Hall j x Hx) as Hle.
    apply Qle_lteq in Hle as [Hlt|Heq]; [exact Hlt|].
    exfalso. exact (Hfirst j x Hj Hx Heq).
Qed.

Lemma plot_indices_argmax_witness :
  let cv := <[7%nat := (7 # 10)%Q]> (<[15%nat := (7 # 10)%Q]> (replicate 16 0%Q)) in
  exists d decision si ti m,
    plot_indices geirhos_categories cv "bear" "truck" = Ok (d, decision, si, ti) /\
    geirhos_categories !! d = Some decision /\
    geirhos_categories !! si = Some "bear"%string /\
    geirhos_categories !! ti = Some "truck"%string /\
    cv !! d = Some m /\
    (forall j x, cv !! j = Some x -> (x <= m)%Q) /\
    (forall j x, (j < d)%nat -> cv !! j = Some x -> (x < m)%Q).
Proof.
  apply (plot_indices_argmax geirhos_categories
           (<[7%nat := (7 # 10)%Q]> (<[15%nat := (7 # 10)%Q]> (replicate 16 0%Q)))
           "bear" "truck").
  - discriminate.
  - simpl. lia.
  - unfold geirhos_categories. set_solver.
  - unfold geirhos_categories. set_solver.
Defined.

Example plot_indices_tie :
  plot_indices geirhos_categories
    (<[7%nat := (7 # 10)%Q]> (<[15%nat := (7 # 10)%Q]> (replicate 16 0%Q)))
    "bear" "truck"
  = Ok (7%nat, "cat"%string, 1%nat, 15%nat).
Proof. reflexivity. Qed.

(** ** Aggregator: the listing of the result directory *)

Lemma Zsum_Permutation (l l' : list Z) : l ≡ₚ l' -> Zsum l = Zsum l'.
Proof.
  unfold Zsum. induction 1; simpl; lia.
Qed.

Lemma counted_Permutation col c rows rows' :
  rows ≡ₚ rows' -> counted col c rows = counted col c rows'.
Proof.
  intros H. unfold counted. apply Zsum_Permutation. rewrite H. reflexivity.
Qed.

Lemma tagged_rows_filter dir :
  tagged_rows (filter (fun file => skipped file.1 = false) dir) = tagged_rows dir.
Proof.
  induction dir as [|file dir IH]; [reflexivity|].
  rewrite filter_cons, (tagged_rows_cons file dir).
  destruct (decide (skipped file.1 = false)) as [E|E].
  - rewrite tagged_rows_cons, IH. reflexivity.
  - rewrite IH. destruct (skipped file.1); [reflexivity|congruence].
Qed.

Lemma dict_is_eq cats g d d' : dict_is cats g d -> dict_is cats g d' -> d = d'.
Proof.
  intros H H'. apply map_eq. intros c. rewrite H, H'. reflexivity.
Qed.

Lemma dicts_are_eq cats F F' d d' :
  (forall col c, F col c = F' col c) ->
  dicts_are cats F d -> dicts_are cats F' d' -> d = d'.
Proof.
  intros HF (H1 & H2 & H3 & H4 & H5) (K1 & K2 & K3 & K4 & K5).
  destruct d, d'. simpl in *. f_equal;
    (eapply dict_is_eq; [eapply dict_is_ext; [|eassumption]; intros; apply HF|eassumption]).
Qed.

(** [calculate_totals] does not depend on the order in which [os.listdir]
    lists the directory, nor on the files that it skips (a [totals.csv]
    of an earlier run, files that are no [.csv]). *)
Theorem calculate_totals_listing (cats : list string)
    (dir dir' : list (string * list DecisionRow)) :
  NoDup cats -> tables_of_categories cats dir ->
  filter (fun file => skipped file.1 = false) dir
  ≡ₚ filter (fun file => skipped file.1 = false) dir' ->
  calculate_totals cats dir' = calculate_totals cats dir.
Proof.
  intros Hnd Hwf Hperm.
  assert (Hwf' : tables_of_categories cats dir').
  { apply Forall_forall. intros file Hin Hskip.
    assert (Hf : file ∈ filter (fun file => skipped file.1 = false) dir).
    { rewrite Hperm. apply list_elem_of_filter. split; assumption. }
    apply list_elem_of_filter in Hf as [_ Hf].
    unfold tables_of_categories in Hwf. rewrite Forall_forall in Hwf.
    apply (Hwf file Hf Hskip). }
  assert (Hrows : tagged_rows dir ≡ₚ tagged_rows dir').
  { rewrite <- (tagged_rows_filter dir), <- (tagged_rows_filter dir').
    unfold tagged_rows. rewrite Hperm. reflexivity. }
  assert (H0 : dicts_are cats (fun _ _ => 0) (init_totals cats)).
  { repeat split; apply zero_dict_is. }
  destruct (files_as_tagged_rows cats dir (init_totals cats) Hwf) as [E Hall].
  destruct (files_as_tagged_rows cats dir' (init_totals cats) Hwf') as [E' Hall'].
  destruct (tagged_rows_are cats _ _ _ H0 Hall) as (d & Ed & Hd).
  destruct (tagged_rows_are cats _ _ _ H0 Hall') as (d' & Ed' & Hd').
  assert (d' = d) as ->.
  { eapply dicts_are_eq; [|exact Hd'|exact Hd].
    intros col c. simpl. rewrite (counted_Permutation col c _ _ Hrows). reflexivity. }
  unfold calculate_totals. rewrite E, E', Ed, Ed'. reflexivity.
Qed.

Lemma calculate_totals_listing_witness :
  calculate_totals geirhos_categories
    [("truck.csv", [decision_row "truck" 0 1 0 0 1]);
     ("similarity", []);
     ("cat.csv", [decision_row "cat" 1 0 0 1 0;
                  decision_row "cat" 0 0 1 0 1;
                  decision_row "cat" 1 1 0 1 1])]%string
  = calculate_totals geirhos_categories sample_result_dir.
Proof.
  apply (calculate_totals_listing geirhos_categories sample_result_dir).
  - apply (bool_decide_unpack _). vm_compute. reflexivity.
  - unfold tables_of_categories, sample_result_dir, geirhos_categories.
    repeat apply Forall_cons_2; try apply Forall_nil_2; simpl; intros H;
      try discriminate H; eexists _, _; (split; [reflexivity|]); simpl; set_solver.
  - vm_compute. apply perm_swap.
Defined.

(** ** Aggregator: tables that abort the run *)





(** ** Aggregator: the proportions of the totals *)

(** The table of [calculate_totals]: one row per category, then the total. *)
Lemma calculate_totals_table (cats : list string)
    (dir : list (string * list DecisionRow)) :
  NoDup cats -> tables_of_categories cats dir ->
  exists d F,
    dicts_are cats F d /\
    calculate_totals cats dir
    = Ok (((fun shape => Some (row_of F shape)) <$> cats) ++ [Some (totals_final_row d)]).
Proof.
  intros Hnd Hwf.
  destruct (files_as_tagged_rows cats dir (init_totals cats) Hwf) as [Efiles Hall].
  assert (H0 : dicts_are cats (fun _ _ => 0) (init_totals cats)).
  { repeat split; apply zero_dict_is. }
  destruct (tagged_rows_are cats _ _ _ H0 Hall) as (d & Ed & Hd).
  set (F := fun col c => 0 + counted col c (tagged_rows dir)) in Hd.
  destruct (totals_write_loop cats F d Hnd Hd cats
              (replicate (length cats + 1) None)) as (df & Edf & Hlen & Hcat & Hrest).
  { auto. }
  { rewrite length_replicate. lia. }
  exists d, F. split; [exact Hd|].
  unfold calculate_totals. rewrite Efiles, Ed.
  change (Ok d ≫= ?k) with (k d). cbv beta zeta. rewrite Edf.
  change (Ok df ≫= ?k) with (k df). cbv beta. f_equal.
  rewrite length_replicate in Hlen.
  apply list_eq. intros i.
  destruct (decide (i < length cats)%nat) as [Hi|Hi].
  - rewrite list_lookup_insert_ne by lia.
    rewrite lookup_app_l by (rewrite length_fmap; exact Hi).
    rewrite list_lookup_fmap.
    apply lookup_lt_is_Some in Hi as [shape Hshape]. rewrite Hshape. simpl.
    rewrite (Hcat i shape Hshape).
    rewrite decide_True by (eapply list_elem_of_lookup_2, Hshape). reflexivity.
  - destruct (decide (i = length cats)) as [->|Hne].
    + rewrite list_lookup_insert_eq by lia.
      rewrite lookup_app_r by (rewrite length_fmap; lia).
      rewrite length_fmap, Nat.sub_diag. reflexivity.
    + rewrite list_lookup_insert_ne by lia.
      rewrite (lookup_ge_None_2 df) by lia.
      symmetry. apply lookup_ge_None_2. rewrite length_app, length_fmap. simpl. lia.
Qed.

Lemma total_rows_table (cats : list string) F (final : TotalsRow) :
  "total"%string ∉ cats -> Shape_Category final = "total"%string ->
  total_rows (((fun shape => Some (row_of F shape)) <$> cats) ++ [Some final]) = [final].
Proof.
  intros Hcats Hfinal. unfold total_rows.
  induction cats as [|c cats IH].
  - simpl. rewrite filter_cons, decide_True by exact Hfinal. reflexivity.
  - rewrite fmap_cons. simpl. rewrite filter_cons, decide_False.
    + apply IH. intros H. apply Hcats. right. exact H.
    + simpl. intros ->. apply Hcats. left.
Qed.

Lemma proportions_add (a b n : Z) :
  (inject_Z a / inject_Z n + inject_Z b / inject_Z n == inject_Z (a + b) / inject_Z n)%Q.
Proof.
  unfold Qdiv. rewrite <- Qmult_plus_distr_l, <- inject_Z_plus. reflexivity.
Qed.

(** On the table that [calculate_totals] writes, [calculate_proportions]
    finds one 'total' row, whose total is the sum of its shape, texture and
    neither counts; when shape + texture and the total are not 0 it
    returns, the shape and texture proportions without 'neither' sum to 1,
    and those with 'neither' sum to 1 together with the share of
    'neither'. *)
Theorem calculate_proportions_of_totals (cats : list string)
    (dir : list (string * list DecisionRow)) :
  NoDup cats -> "total"%string ∉ cats -> tables_of_categories cats dir ->
  exists df total,
    calculate_totals cats dir = Ok df /\ total_rows df = [total] /\
    Total_Number_Stimuli total
    = Number_Shape_Decisions total + Number_Texture_Decisions total
      + Number_Neither total /\
    (Number_Shape_Decisions total + Number_Texture_Decisions total <> 0 ->
     Total_Number_Stimuli total <> 0 ->
     exists p, calculate_proportions df = Ok p /\
       (shape_texture p + texture_shape p == 1)%Q /\
       (shape_all p + texture_all p
        + inject_Z (Number_Neither total) / inject_Z (Total_Number_Stimuli total)
        == 1)%Q).
Proof.
  intros Hnd Htotal Hwf.
  destruct (calculate_totals_table cats dir Hnd Hwf) as (d & F & Hd & E).
  eexists _, (totals_final_row d). split; [exact E|].
  pose proof (total_rows_table cats F (totals_final_row d) Htotal eq_refl) as Hrows.
  split; [exact Hrows|].
  assert (Hsum : Total_Number_Stimuli (totals_final_row d)
                 = Number_Shape_Decisions (totals_final_row d)
                   + Number_Texture_Decisions (totals_final_row d)
                   + Number_Neither (totals_final_row d)) by (simpl; lia).
  split; [exact Hsum|].
  intros Hst Htot.
  unfold calculate_proportions. rewrite Hrows.
  cbn [fmap list_fmap int_of_series].
  repeat (change (Ok ?x ≫= ?k) with (k x); cbv beta).
  rewrite !(truediv_nonzero _ (Total_Number_Stimuli (totals_final_row d))) by exact Htot.
  repeat (change (Ok ?x ≫= ?k) with (k x); cbv beta).
  rewrite !(truediv_nonzero _ (_ + _)) by exact Hst.
  repeat (change (Ok ?x ≫= ?k) with (k x); cbv beta).
  eexists. split; [reflexivity|]. cbn [shape_texture texture_shape shape_all texture_all].
  split.
  - apply proportions_sum; [reflexivity|exact Hst].
  - rewrite proportions_add. apply proportions_sum; [symmetry; exact Hsum|exact Htot].
Qed.

Lemma calculate_proportions_of_totals_witness :
  exists df total,
    calculate_totals geirhos_categories sample_result_dir = Ok df /\
    total_rows df = [total] /\
    Total_Number_Stimuli total
    = Number_Shape_Decisions total + Number_Texture_Decisions total
      + Number_Neither total /\
    (Number_Shape_Decisions total + Number_Texture_Decisions total <> 0 ->
     Total_Number_Stimuli total <> 0 ->
     exists p, calculate_proportions df = Ok p /\
       (shape_texture p + texture_shape p == 1)%Q /\
       (shape_all p + texture_all p
        + inject_Z (Number_Neither total) / inject_Z (Total_Number_Stimuli total)
        == 1)%Q).
Proof.
  apply (calculate_proportions_of_totals geirhos_categories sample_result_dir).
  - apply (bool_decide_unpack _). vm_compute. reflexivity.
  - unfold geirhos_categories. intros H.
    repeat (apply elem_of_cons in H as [[=]|H]). inversion H.
  - unfold tables_of_categories, sample_result_dir, geirhos_categories.
    repeat apply Forall_cons_2; try apply Forall_nil_2; simpl; intros H;
      try discriminate H; eexists _, _; (split; [reflexivity|]); simpl; set_solver.
Defined.

(** ** Triplet Similarity Engine: what the cache holds *)

Section CacheSound.
Context {vec : Type} (np_dot cosx cdist : vec -> vec -> Q).


Lemma dict_get_Ok `{Countable K} {V : Type} (d : gmap K V) (k : K) (v : V) :
  dict_get d k = Ok v <-> d !! k = Some v.
Proof. unfold dict_get. destruct (d !! k); split; congruence. Qed.



End CacheSound.

(** ** Triplet Similarity Engine: the tables written *)

Section EngineTables.
Context {vec : Type} (np_dot cosx cdist : vec -> vec -> Q).

Lemma triplet_row_ids (base : gmap string (cell vec)) sm tm sv tv :
  let r := triplet_row base sm tm sv tv in
  r !! "Shape Match"%string = Some (CStr (drop_last4 sm)) /\
  r !! "Texture Match"%string = Some (CStr (drop_last4 tm)) /\
  r !! "Model"%string = base !! "Model"%string /\
  r !! "Anchor"%string = base !! "Anchor"%string /\
  r !! "Anchor Shape"%string = base !! "Anchor Shape"%string /\
  r !! "Anchor Texture"%string = base !! "Anchor Texture"%string.
Proof.
  destruct sv as [[sd sc] se], tv as [[td tc] te].
  unfold triplet_row, set_closer, set_measures. cbv zeta.
  split_and!; row_lookup; reflexivity.
Qed.

Lemma triplet_step_unfold (embeddings : gmap string vec) anchor base
    (acc : list (gmap string (cell vec)) * sim_state) tr :
  triplet_step np_dot cosx cdist embeddings anchor base acc tr
  = (anchor_output ← dict_get embeddings anchor;
     shape_output ← dict_get embeddings tr.1.2;
     texture_output ← dict_get embeddings tr.2;
     s ← lookup_or_compute np_dot cosx cdist acc.2 anchor tr.1.2 anchor_output shape_output;
     t ← lookup_or_compute np_dot cosx cdist s.2 anchor tr.2 anchor_output texture_output;
     Ok (acc.1 ++ [triplet_row base tr.1.2 tr.2 s.1 t.1], t.2)).
Proof. reflexivity. Qed.

Lemma anchor_step_unfold model_type (embeddings : gmap string vec) t
    (acc : list (string * list (gmap string (cell vec))) * sim_state) anchor :
  anchor_step np_dot cosx cdist model_type embeddings t acc anchor
  = (anchor_triplets ← dict_get (triplets_by_image t) anchor;
     spec ← dict_get (shape_classes t) anchor;
     df ← for_each (triplet_step np_dot cosx cdist embeddings anchor
                      (<["Anchor Texture"%string := CStr spec.2]> (
                       <["Anchor Shape"%string := CStr spec.1]> (
                       <["Model"%string := CStr model_type]> (
                       <["Anchor"%string := CStr (drop_last4 anchor)]>
                         (nan_row columns_triplets))))))
            ([], acc.2) anchor_triplets;
     Ok (acc.1 ++ [(drop_last4 anchor +:+ ".csv", df.1)], df.2)).
Proof. reflexivity. Qed.

Lemma triplet_loop_total (embeddings : gmap string vec) anchor base trs :
  forall acc : list (gmap string (cell vec)) * sim_state,
  (forall tr, tr ∈ trs ->
     is_Some (embeddings !! anchor) /\ is_Some (embeddings !! tr.1.2) /\
     is_Some (embeddings !! tr.2)) ->
  exists rows st',
    for_each (triplet_step np_dot cosx cdist embeddings anchor base) acc trs
    = Ok (acc.1 ++ rows, st') /\
    Forall2 (fun r tr => exists sv tv, r = triplet_row base tr.1.2 tr.2 sv tv) rows trs.
Proof.
  induction trs as [|tr trs IH]; intros acc Hemb.
  - exists [], acc.2. rewrite app_nil_r. destruct acc. split; [reflexivity|constructor].
  - destruct (Hemb tr ltac:(left)) as ([va Ha] & [vs Hs] & [vt Ht]).
    destruct (lookup_or_compute_total np_dot cosx cdist acc.2 anchor tr.1.2 va vs)
      as (sv & st1 & Es & _).
    destruct (lookup_or_compute_total np_dot cosx cdist st1 anchor tr.2 va vt)
      as (tv & st2 & Et & _).
    destruct (IH (acc.1 ++ [triplet_row base tr.1.2 tr.2 sv tv], st2))
      as (rows & st' & E & Hrows).
    { intros tr' Hin. apply Hemb. right. exact Hin. }
    exists (triplet_row base tr.1.2 tr.2 sv tv :: rows), st'. split.
    + rewrite for_each_cons, triplet_step_unfold.
      rewrite (proj2 (dict_get_Ok _ _ _) Ha), (proj2 (dict_get_Ok _ _ _) Hs),
        (proj2 (dict_get_Ok _ _ _) Ht).
      repeat (change (Ok ?x ≫= ?k) with (k x); cbv beta).
      rewrite Es. change (Ok ?x ≫= ?k) with (k x). cbv beta. cbn [fst snd].
      rewrite Et. repeat (change (Ok ?x ≫= ?k) with (k x); cbv beta). cbn [fst snd].
      rewrite E. cbn [fst]. rewrite <- app_assoc. reflexivity.
    + constructor; [eauto|exact Hrows].
Qed.

(** The run of [triplets] on complete inputs, table by table. *)
Lemma triplets_complete model_type (embeddings : gmap string vec) t :
  engine_inputs_ok embeddings t ->
  exists files st,
    triplets np_dot cosx cdist model_type embeddings t = Ok (files, st) /\
    Forall2 (fun (file : string * list (gmap string (cell vec))) anchor =>
      file.1 = drop_last4 anchor +:+ ".csv" /\
      exists trs spec,
        triplets_by_image t !! anchor = Some trs /\
        shape_classes t !! anchor = Some spec /\
        Forall2 (fun r tr =>
          r !! "Model"%string = Some (CStr model_type) /\
          r !! "Anchor"%string = Some (CStr (drop_last4 anchor)) /\
          r !! "Anchor Shape"%string = Some (CStr spec.1) /\
          r !! "Anchor Texture"%string = Some (CStr spec.2) /\
          r !! "Shape Match"%string = Some (CStr (drop_last4 tr.1.2)) /\
          r !! "Texture Match"%string = Some (CStr (drop_last4 tr.2))) file.2 trs)
      files (images t).
Proof.
  intros Hok. unfold triplets.
  assert (Hloop : forall anchors (acc : list (string * list (gmap string (cell vec))) * sim_state),
    (forall a, a ∈ anchors -> a ∈ images t) ->
    exists files st',
      for_each (anchor_step np_dot cosx cdist model_type embeddings t) acc anchors
      = Ok (acc.1 ++ files, st') /\
      Forall2 (fun (file : string * list (gmap string (cell vec))) anchor =>
        file.1 = drop_last4 anchor +:+ ".csv" /\
        exists trs spec,
          triplets_by_image t !! anchor = Some trs /\
          shape_classes t !! anchor = Some spec /\
          Forall2 (fun r tr =>
            r !! "Model"%string = Some (CStr model_type) /\
            r !! "Anchor"%string = Some (CStr (drop_last4 anchor)) /\
            r !! "Anchor Shape"%string = Some (CStr spec.1) /\
            r !! "Anchor Texture"%string = Some (CStr spec.2) /\
            r !! "Shape Match"%string = Some (CStr (drop_last4 tr.1.2)) /\
            r !! "Texture Match"%string = Some (CStr (drop_last4 tr.2))) file.2 trs)
        files anchors).
  { induction anchors as [|anchor anchors IH]; intros acc Hin.
    - exists [], acc.2. rewrite app_nil_r. destruct acc. split; [reflexivity|constructor].
    - destruct (Hok anchor (Hin anchor ltac:(left))) as (trs & spec & Etrs & Espec & Hemb).
      set (base := <["Anchor Texture"%string := CStr spec.2]> (
                   <["Anchor Shape"%string := CStr spec.1]> (
                   <["Model"%string := CStr model_type]> (
                   <["Anchor"%string := CStr (drop_last4 anchor)]>
                     (nan_row (vec := vec) columns_triplets))))).
      destruct (triplet_loop_total embeddings anchor base trs ([], acc.2) Hemb)
        as (rows & st1 & Erows & Hrows).
      destruct (IH (acc.1 ++ [(drop_last4 anchor +:+ ".csv", rows)], st1))
        as (files & st' & E & Hfiles).
      { intros a Ha. apply Hin. right. exact Ha. }
      exists ((drop_last4 anchor +:+ ".csv", rows) :: files), st'. split.
      + rewrite for_each_cons, anchor_step_unfold.
        rewrite (proj2 (dict_get_Ok _ _ _) Etrs), (proj2 (dict_get_Ok _ _ _) Espec).
        repeat (change (Ok ?x ≫= ?k) with (k x); cbv beta). cbv zeta.
        fold base. rewrite Erows.
        repeat (change (Ok ?x ≫= ?k) with (k x); cbv beta). cbn [fst snd].
        rewrite app_nil_l, E. cbn [fst]. rewrite <- app_assoc. reflexivity.
      + constructor; [|exact Hfiles]. split; [reflexivity|].
        exists trs, spec. split_and!; try assumption. cbn [snd].
        eapply Forall2_impl; [exact Hrows|].
        intros r tr (sv & tv & ->).
        destruct (triplet_row_ids base tr.1.2 tr.2 sv tv) as (I1 & I2 & I3 & I4 & I5 & I6).
        rewrite I1, I2, I3, I4, I5, I6. unfold base.
        split_and!; row_lookup; reflexivity. }
  destruct (Hloop (images t) ([], empty_sim_state)) as (files & st & E & Hfiles); [auto|].
  exists files, st. split; [exact E|exact Hfiles].
Qed.
(** On complete inputs [triplets] returns: it writes one table per image,
    in the order of the images and named after the image, with one row per
    triplet of the image, in the order of the triplets, that names the
    model, the anchor and the two matches. *)
Theorem triplets_tables model_type (embeddings : gmap string vec) t :
  engine_inputs_ok embeddings t ->
  exists files st,
    triplets np_dot cosx cdist model_type embeddings t = Ok (files, st) /\
    Forall2 (fun (file : string * list (gmap string (cell vec))) anchor =>
      file.1 = drop_last4 anchor +:+ ".csv" /\
      exists trs spec,
        triplets_by_image t !! anchor = Some trs /\
        shape_classes t !! anchor = Some spec /\
        Forall2 (fun r tr =>
          r !! "Model"%string = Some (CStr model_type) /\
          r !! "Anchor"%string = Some (CStr (drop_last4 anchor)) /\
          r !! "Anchor Shape"%string = Some (CStr spec.1) /\
          r !! "Anchor Texture"%string = Some (CStr spec.2) /\
          r !! "Shape Match"%string = Some (CStr (drop_last4 tr.1.2)) /\
          r !! "Texture Match"%string = Some (CStr (drop_last4 tr.2))) file.2 trs)
      files (images t).
Proof.
  intros Hok.
  destruct (triplets_complete model_type embeddings t Hok) as (files & st & E & Htables).
  exists files, st. split; [exact E|exact Htables].
Qed.

End EngineTables.

Lemma sample_inputs_ok : engine_inputs_ok sample_embeddings sample_triplets.
Proof.
  intros anchor Hin. unfold sample_triplets in *. cbn [images] in Hin.
  cbn [triplets_by_image shape_classes].
  apply elem_of_cons in Hin as [->|Hin]; [|apply list_elem_of_singleton in Hin as ->].
  - eexists _, _. split; [reflexivity|]. split; [reflexivity|].
    intros tr Htr. apply list_elem_of_singleton in Htr as ->.
    split_and!; eexists; reflexivity.
  - eexists _, _. split; [reflexivity|]. split; [reflexivity|].
    intros tr Htr. apply list_elem_of_singleton in Htr as ->.
    split_and!; eexists; reflexivity.
Defined.

Lemma triplets_tables_witness :
  exists files st,
    triplets sample_dot sample_cosx sample_cdist "saycam" sample_embeddings sample_triplets
    = Ok (files, st) /\
    Forall2 (fun (file : string * list (gmap string (cell nat))) anchor =>
      file.1 = drop_last4 anchor +:+ ".csv" /\
      exists trs spec,
        triplets_by_image sample_triplets !! anchor = Some trs /\
        shape_classes sample_triplets !! anchor = Some spec /\
        Forall2 (fun r tr =>
          r !! "Model"%string = Some (CStr "saycam") /\
          r !! "Anchor"%string = Some (CStr (drop_last4 anchor)) /\
          r !! "Anchor Shape"%string = Some (CStr spec.1) /\
          r !! "Anchor Texture"%string = Some (CStr spec.2) /\
          r !! "Shape Match"%string = Some (CStr (drop_last4 tr.1.2)) /\
          r !! "Texture Match"%string = Some (CStr (drop_last4 tr.2))) file.2 trs)
      files (images sample_triplets).
Proof.
  exact (triplets_tables sample_dot sample_cosx sample_cdist "saycam"
           sample_embeddings sample_triplets sample_inputs_ok).
Defined.


Example sample_run_computed :
  (fun r => computed r.2)
    <$> (match triplets sample_dot sample_cosx sample_cdist "saycam" sample_embeddings
                 sample_triplets with
         | Ok r => Some r
         | Raise _ => None
         end)
  = Some [("cat1-truck1.png", "cat2-dog1.png"); ("cat1-truck1.png", "bird1-truck2.png");
          ("cat2-dog1.png", "bird2-dog3.png")]%string.
Proof. vm_compute. reflexivity. Qed.

(** ** Similarity Totals Aggregator: the directory *)

Section TotalsDirectory.
Context {vec : Type}.
Implicit Types (sim_dir : list (string * list (gmap string (cell vec)))).

Lemma sums_files_filter sim_dir : forall s,
  for_each sums_file_step s (filter (fun file => derived file.1 = false) sim_dir)
  = for_each sums_file_step s sim_dir.
Proof.
  induction sim_dir as [|file sim_dir IH]; intros s; [reflexivity|].
  rewrite filter_cons, (for_each_cons _ s file sim_dir), sums_file_step_unfold.
  destruct (decide (derived file.1 = false)) as [E|E].
  - rewrite for_each_cons, sums_file_step_unfold, E.
    destruct (for_each _ s file.2) as [s1|e]; [apply IH|reflexivity].
  - destruct (derived file.1); [apply IH|congruence].
Qed.

Lemma matrix_files_filter sim_dir : forall m,
  for_each matrix_file_step m (filter (fun file => derived file.1 = false) sim_dir)
  = for_each matrix_file_step m sim_dir.
Proof.
  induction sim_dir as [|file sim_dir IH]; intros m; [reflexivity|].
  rewrite filter_cons, (for_each_cons _ m file sim_dir), matrix_file_step_unfold.
  destruct (decide (derived file.1 = false)) as [E|E].
  - rewrite for_each_cons, matrix_file_step_unfold, E.
    destruct (for_each _ m file.2) as [m1|e]; [apply IH|reflexivity].
  - destruct (derived file.1); [apply IH|congruence].
Qed.

(** [calculate_similarity_totals] ignores the derived tables
    ([averages.csv], [proportions.csv], [matrix.csv]) that an earlier run
    left in the directory, whatever they hold. *)
Theorem similarity_totals_ignore_derived (matrix : bool) sim_dir :
  calculate_similarity_totals matrix sim_dir
  = calculate_similarity_totals matrix
      (filter (fun file => derived file.1 = false) sim_dir).
Proof.
  unfold calculate_similarity_totals.
  destruct matrix; simpl negb; cbv iota.
  - rewrite matrix_files_filter. reflexivity.
  - rewrite sums_files_filter. reflexivity.
Qed.

Lemma sums_files_rows sim_dir : forall s,
  for_each sums_file_step s sim_dir
  = for_each (fun s r => f ← read_flags r; Ok (sums_step s f)) s (table_rows sim_dir).
Proof.
  induction sim_dir as [|file sim_dir IH]; intros s; [reflexivity|].
  rewrite for_each_cons, table_rows_cons, for_each_app, sums_file_step_unfold.
  destruct (derived file.1).
  - apply IH.
  - destruct (for_each _ s file.2) as [s1|e]; [apply IH|reflexivity].
Qed.

Lemma matrix_files_rows sim_dir : forall m,
  for_each matrix_file_step m sim_dir
  = for_each (fun m r => f ← read_flags r; Ok (matrix_step m f)) m (table_rows sim_dir).
Proof.
  induction sim_dir as [|file sim_dir IH]; intros m; [reflexivity|].
  rewrite for_each_cons, table_rows_cons, for_each_app, matrix_file_step_unfold.
  destruct (derived file.1).
  - apply IH.
  - destruct (for_each _ m file.2) as [m1|e]; [apply IH|reflexivity].
Qed.

(** Without any row to read, the proportions mode divides by zero and the
    matrix mode returns four zeros. *)
Theorem similarity_totals_no_rows sim_dir :
  table_rows sim_dir = [] ->
  calculate_similarity_totals false sim_dir = Raise ZeroDivisionError /\
  calculate_similarity_totals true sim_dir = Ok (MatrixTable zero_matrix).
Proof.
  intros Hrows. unfold calculate_similarity_totals. simpl negb. cbv iota.
  rewrite sums_files_rows, matrix_files_rows, Hrows. split; reflexivity.
Qed.

(** The first row that cannot be read aborts either mode with its error. *)
Lemma similarity_totals_first_row (matrix : bool) sim_dir r rest (e : exn) :
  table_rows sim_dir = r :: rest -> read_flags r = Raise e ->
  calculate_similarity_totals matrix sim_dir = Raise e.
Proof.
  intros Hrows Hr. unfold calculate_similarity_totals.
  destruct matrix; simpl negb; cbv iota.
  - rewrite matrix_files_rows, Hrows, for_each_cons, Hr. reflexivity.
  - rewrite sums_files_rows, Hrows, for_each_cons, Hr. reflexivity.
Qed.
End TotalsDirectory.

Lemma similarity_totals_no_rows_witness :
  calculate_similarity_totals (vec := nat) false
    [("proportions.csv"%string, [∅]); ("cat1-truck1.csv"%string, [])]
  = Raise ZeroDivisionError /\
  calculate_similarity_totals (vec := nat) true
    [("proportions.csv"%string, [∅]); ("cat1-truck1.csv"%string, [])]
  = Ok (MatrixTable zero_matrix).
Proof.
  apply (similarity_totals_no_rows (vec := nat)
           [("proportions.csv"%string, [∅]); ("cat1-truck1.csv"%string, [])]).
  reflexivity.
Defined.

(** ** Similarity Totals Aggregator: the two modes agree *)

Section Margins.
Context {vec : Type}.
Implicit Types (sim_dir : list (string * list (gmap string (cell vec)))).

Lemma margins_step s m f :
  margins s m -> complementary f -> margins (sums_step s f) (matrix_step m f).
Proof.
  unfold margins, complementary, exactly_one, sums_step, matrix_step.
  intros (H1 & H2 & H3 & H4) (Hd & Hc & _).
  repeat case_decide; simpl; lia.
Qed.

Lemma margins_rows (rows : list (gmap string (cell vec))) : forall s m,
  margins s m -> Forall complementary_row rows ->
  exists s' m',
    for_each (fun s r => f ← read_flags r; Ok (sums_step s f)) s rows = Ok s' /\
    for_each (fun m r => f ← read_flags r; Ok (matrix_step m f)) m rows = Ok m' /\
    margins s' m' /\ num_rows s' = num_rows s + Z.of_nat (length rows).
Proof.
  induction rows as [|r rows IH]; intros s m Hmar Hall.
  - exists s, m. simpl. split_and!; [reflexivity|reflexivity|exact Hmar|lia].
  - apply Forall_cons in Hall as [(f & Ef & Hf) Hall].
    destruct (IH _ _ (margins_step s m f Hmar Hf) Hall) as (s' & m' & Es & Em & Hm' & Hn).
    exists s', m'. rewrite !for_each_cons, Ef.
    split_and!; [exact Es|exact Em|exact Hm'|].
    rewrite Hn, length_cons. simpl. lia.
Qed.

(** On tables of rows with complementary indicators the two modes agree:
    the dot and the cosine proportions are the column sums and the row
    sums of the matrix, divided by the number of rows. *)
Theorem similarity_totals_margins sim_dir :
  Forall complementary_row (table_rows sim_dir) -> table_rows sim_dir ≠ [] ->
  exists p m,
    calculate_similarity_totals false sim_dir = Ok (ProportionsTable p) /\
    calculate_similarity_totals true sim_dir = Ok (MatrixTable m) /\
    let n := inject_Z (Z.of_nat (length (table_rows sim_dir))) in
    Shape_Dot_Closer p = (inject_Z (m0_0 m + m1_0 m) / n)%Q /\
    Texture_Dot_Closer p = (inject_Z (m0_1 m + m1_1 m) / n)%Q /\
    Shape_Cos_Closer p = (inject_Z (m0_0 m + m0_1 m) / n)%Q /\
    Texture_Cos_Closer p = (inject_Z (m1_0 m + m1_1 m) / n)%Q.
Proof.
  intros Hall Hne.
  destruct (margins_rows (table_rows sim_dir)
              {| shape_dot := 0; shape_cos := 0; shape_ed := 0; texture_dot := 0;
                 texture_cos := 0; texture_ed := 0; num_rows := 0 |}
              {| m0_0 := 0; m0_1 := 0; m1_0 := 0; m1_1 := 0 |})
    as (s & m & Es & Em & (H1 & H2 & H3 & H4) & Hn);
    [split_and!; reflexivity|exact Hall|].
  simpl in Hn.
  assert (Hpos : num_rows s <> 0).
  { rewrite Hn. destruct (table_rows sim_dir); [congruence|]. simpl. lia. }
  unfold calculate_similarity_totals. simpl negb. cbv iota.
  rewrite sums_files_rows, matrix_files_rows, Es, Em.
  repeat (change (Ok ?x ≫= ?k) with (k x); cbv beta).
  rewrite !(truediv_nonzero _ _ Hpos).
  repeat (change (Ok ?x ≫= ?k) with (k x); cbv beta).
  eexists _, m. split; [reflexivity|]. split; [reflexivity|].
  cbv zeta. cbn [Shape_Dot_Closer Texture_Dot_Closer Shape_Cos_Closer Texture_Cos_Closer].
  rewrite H1, H2, H3, H4, Hn. split_and!; reflexivity.
Qed.
End Margins.

Lemma sample_sim_dir_complementary :
  Forall complementary_row (table_rows sample_sim_dir).
Proof.
  repeat apply Forall_cons_2; try apply Forall_nil_2;
    (eexists; split; [vm_compute; reflexivity|]);
    unfold complementary, exactly_one; simpl; lia.
Qed.

Lemma similarity_totals_margins_witness :
  exists p m,
    calculate_similarity_totals false sample_sim_dir = Ok (ProportionsTable p) /\
    calculate_similarity_totals true sample_sim_dir = Ok (MatrixTable m) /\
    let n := inject_Z (Z.of_nat (length (table_rows sample_sim_dir))) in
    Shape_Dot_Closer p = (inject_Z (m0_0 m + m1_0 m) / n)%Q /\
    Texture_Dot_Closer p = (inject_Z (m0_1 m + m1_1 m) / n)%Q /\
    Shape_Cos_Closer p = (inject_Z (m0_0 m + m0_1 m) / n)%Q /\
    Texture_Cos_Closer p = (inject_Z (m1_0 m + m1_1 m) / n)%Q.
Proof.
  apply (similarity_totals_margins sample_sim_dir).
  - exact sample_sim_dir_complementary.
  - discriminate.
Defined.

Example similarity_totals_sample :
  calculate_similarity_totals true sample_sim_dir
  = Ok (MatrixTable {| m0_0 := 1; m0_1 := 1; m1_0 := 1; m1_1 := 0 |}).
Proof. vm_compute. reflexivity. Qed.

(** ** Null-Model Generator: the table of fake triplets cannot be totalled *)

Section FakeTable.
Context {vec : Type} (np_dot spatial_distance_cosine : vec -> vec -> Q).

Lemma fake_row_flags (i : Z) (a s t : vec) :
  read_flags (<["Unnamed: 0"%string := CInt i]> (fake_row np_dot spatial_distance_cosine a s t))
  = Raise KeyError.
Proof.
  destruct (fake_row_cells np_dot spatial_distance_cosine a s t)
    as (_ & _ & _ & _ & F5 & _ & F7 & _).
  destruct (fake_row_no_ed np_dot spatial_distance_cosine a s t) as (_ & _ & N3 & _).
  unfold read_flags, row_get, dict_get.
  rewrite !lookup_insert_ne by (intros [=]). rewrite F5, F7, N3. reflexivity.
Qed.

(** A directory whose tables are tables of fake triplets, written with
    their index as [generate_fake_triplets] writes [fake.csv], aborts
    [calculate_similarity_totals] with [KeyError] in either mode: the
    rows have no 'Shape ED Closer' column. *)
Theorem fake_table_KeyError (matrix : bool)
    (sim_dir : list (string * list (gmap string (cell vec)))) :
  table_rows sim_dir ≠ [] ->
  Forall (fun r => exists i a s t,
            r = <["Unnamed: 0"%string := CInt i]>
                  (fake_row np_dot spatial_distance_cosine a s t))
    (table_rows sim_dir) ->
  calculate_similarity_totals matrix sim_dir = Raise KeyError.
Proof.
  intros Hne Hall. destruct (table_rows sim_dir) as [|r rest] eqn:E; [congruence|].
  apply Forall_cons in Hall as [(i & a & s & t & ->) _].
  eapply similarity_totals_first_row; [exact E|apply fake_row_flags].
Qed.
End FakeTable.

Lemma fake_table_KeyError_witness :
  calculate_similarity_totals false
    [("fake.csv"%string,
      csv_with_index [fake_row sample_dot sample_spatial_distance_cosine 0%nat 1%nat 2%nat])]
  = Raise KeyError.
Proof.
  apply (fake_table_KeyError sample_dot sample_spatial_distance_cosine false
           [("fake.csv"%string,
             csv_with_index
               [fake_row sample_dot sample_spatial_distance_cosine 0%nat 1%nat 2%nat])]).
  - discriminate.
  - apply Forall_singleton. exists 0, 0%nat, 1%nat, 2%nat. reflexivity.
Defined.

(** ** Embedding Cache: the stored embeddings *)

Section StoredEmbeddings.
Context {image tensor vec : Type} (penult_model : image -> tensor)
  (nn_softmax : tensor -> vec).

Lemma get_embeddings_snoc (dataset : list (image * string)) (item : image * string) :
  get_embeddings penult_model nn_softmax (dataset ++ [item])
  = <[item.2 := nn_softmax (penult_model item.1)]>
      (get_embeddings penult_model nn_softmax dataset).
Proof. unfold get_embeddings. rewrite foldl_app. reflexivity. Qed.

Lemma get_embeddings_app (before after : list (image * string)) :
  get_embeddings penult_model nn_softmax (before ++ after)
  = foldl (fun embedding_dict item =>
             <[item.2 := nn_softmax (penult_model item.1)]> embedding_dict)
      (get_embeddings penult_model nn_softmax before) after.
Proof. unfold get_embeddings. apply foldl_app. Qed.

Lemma later_items_keep (name : string) (after : list (image * string)) :
  Forall (fun item => item.2 ≠ name) after ->
  forall d : gmap string vec,
    foldl (fun embedding_dict item =>
             <[item.2 := nn_softmax (penult_model item.1)]> embedding_dict) d after
    !! name = d !! name.
Proof.
  induction 1 as [|item after Hitem _ IH]; intros d; [reflexivity|].
  simpl. rewrite IH. apply lookup_insert_ne. exact Hitem.
Qed.

(** [get_embeddings] stores an embedding under exactly the names of the
    data set, and under a name it holds the softmax output for the last
    image of the data set with that name: an earlier image of the same
    name is overwritten. *)
Theorem get_embeddings_stored (dataset : list (image * string)) (name : string) :
  (is_Some (get_embeddings penult_model nn_softmax dataset !! name)
   <-> exists im, (im, name) ∈ dataset) /\
  (forall before im after,
     dataset = before ++ (im, name) :: after ->
     Forall (fun item => item.2 ≠ name) after ->
     get_embeddings penult_model nn_softmax dataset !! name
     = Some (nn_softmax (penult_model im))).
Proof.
  split.
  - induction dataset as [|[im0 name0] dataset IH] using rev_ind.
    + unfold get_embeddings. simpl. rewrite lookup_empty.
      split; [intros [? [=]]|intros [im H]; inversion H].
    + rewrite get_embeddings_snoc. cbn [fst snd].
      destruct (decide (name0 = name)) as [->|Hne].
      * rewrite lookup_insert_eq. split; [|eauto].
        intros _. exists im0. apply elem_of_app. right. left.
      * rewrite lookup_insert_ne by exact Hne. rewrite IH.
        split; intros [im Him]; exists im.
        -- apply elem_of_app. left. exact Him.
        -- apply elem_of_app in Him as [Him|Him]; [exact Him|].
           apply list_elem_of_singleton in Him. congruence.
  - intros before im after -> Hafter.
    rewrite get_embeddings_app. simpl.
    rewrite (later_items_keep name after Hafter). apply lookup_insert_eq.
Qed.
End StoredEmbeddings.

(** ** The decision run *)

(** *** Slices of file names and specific textures *)

Lemma string_length_app (s t : string) :
  String.length (s +:+ t) = (String.length s + String.length t)%nat.
Proof. induction s as [|a s IH]; simpl; [reflexivity|]. rewrite IH. reflexivity. Qed.

Lemma substring_prefix (s t : string) : String.substring 0 (String.length s) (s +:+ t) = s.
Proof.
  induction s as [|a s IH]; simpl.
  - destruct t; reflexivity.
  - rewrite IH. reflexivity.
Qed.

Lemma substring_suffix (s t : string) (n : nat) :
  String.substring (String.length s) n (s +:+ t) = String.substring 0 n t.
Proof. induction s as [|a s IH]; simpl; [reflexivity|exact IH]. Qed.

Lemma drop_last1_digit (s : string) : drop_last1 (s +:+ "0") = s.
Proof.
  unfold drop_last1. rewrite string_length_app. simpl String.length.
  replace (String.length s + 1 - 1)%nat with (String.length s) by lia.
  apply substring_prefix.
Qed.

Lemma last4_csv (s : string) : last4 (s +:+ ".csv") = ".csv"%string.
Proof.
  unfold last4. rewrite string_length_app. simpl String.length.
  replace (String.length s + 4 - 4)%nat with (String.length s) by lia.
  rewrite substring_suffix. reflexivity.
Qed.

Lemma drop_last4_csv (s : string) : drop_last4 (s +:+ ".csv") = s.
Proof.
  unfold drop_last4. rewrite string_length_app. simpl String.length.
  replace (String.length s + 4 - 4)%nat with (String.length s) by lia.
  apply substring_prefix.
Qed.

Lemma skipped_csv (c : string) : c ≠ "totals"%string -> skipped (c +:+ ".csv") = false.
Proof.
  intros Hc. unfold skipped. rewrite last4_csv.
  rewrite bool_decide_false by (intros H; apply H; reflexivity).
  rewrite bool_decide_false; [reflexivity|].
  intros H. apply Hc. rewrite <- (drop_last4_csv c), H. reflexivity.
Qed.

(** *** The loop over the stimuli *)

Lemma fromkeys_lookup {V : Type} (v : V) (l : list string) : forall (d : gmap string V) c,
  foldl (fun d k => <[k := v]> d) d l !! c = if decide (c ∈ l) then Some v else d !! c.
Proof.
  induction l as [|k l IH]; intros d c.
  - rewrite decide_False by (intros H; inversion H). reflexivity.
  - change (foldl (fun d k => <[k := v]> d) d (k :: l))
      with (foldl (fun d k => <[k := v]> d) (<[k := v]> d) l).
    rewrite IH. destruct (decide (c ∈ l)) as [Hin|Hnin].
    + rewrite decide_True by (right; exact Hin). reflexivity.
    + destruct (decide (c = k)) as [->|Hne].
      * rewrite decide_True by left. apply lookup_insert_eq.
      * rewrite decide_False by (intros H; apply elem_of_cons in H as [?|?]; contradiction).
        apply lookup_insert_ne. congruence.
Qed.

Lemma shape_dict0_lookup (cats : list string) (k : string) (e : DecisionEntry) :
  shape_dict0 cats !! k ≠ Some (Some e).
Proof.
  unfold shape_dict0.
  assert (H : forall l (d : gmap string (option DecisionEntry)),
             (forall k, d !! k ≠ Some (Some e)) ->
             forall k, foldl (fun d shape => <[shape +:+ "0" := None]> d) d l !! k
                       ≠ Some (Some e)).
  { induction l as [|c l IH]; intros d Hd k'; simpl; [apply Hd|].
    apply IH. intros k''. destruct (decide (k'' = c +:+ "0")) as [->|Hne].
    - rewrite lookup_insert_eq. discriminate.
    - rewrite lookup_insert_ne by congruence. apply Hd. }
  apply H. intros k'. rewrite lookup_empty. discriminate.
Qed.

Lemma main_init_inv (cats : list string) : main_inv cats [] (main_init cats).
Proof.
  split.
  - intros c. unfold main_init. simpl. rewrite (fromkeys_lookup [] cats ∅ c).
    destruct (decide (c ∈ cats)); [reflexivity|apply lookup_empty].
  - intros c Hc. exists (shape_dict0 cats). split; [|split].
    + unfold main_init. simpl. rewrite (fromkeys_lookup (shape_dict0 cats) cats ∅ c).
      rewrite decide_True by exact Hc. reflexivity.
    + intros s Hs. inversion Hs.
    + intros k e H. exfalso. exact (shape_dict0_lookup _ _ _ H).
Qed.

Lemma score_covered (cats : list string) (cv : list Q) (label : string) :
  (length cats <= length cv)%nat -> label ∈ cats -> exists c, score cats cv label = Ok c.
Proof.
  intros Hlen Hin. destruct (index_elem_of _ _ Hin) as [i Hi].
  unfold score. rewrite Hi. simpl.
  pose proof (index_lookup _ _ _ Hi) as Hl.
  apply lookup_lt_Some in Hl.
  assert (Hlt : (i < length cv)%nat) by lia.
  apply lookup_lt_is_Some in Hlt as [c Hc].
  exists c. apply getitem_Ok, Hc.
Qed.

Lemma restricted_class_values_scores (cats : list string) (cv : list Q)
    (shape texture : string) (cs ct : Q) :
  score cats cv shape = Ok cs -> score cats cv texture = Ok ct ->
  restricted_class_values cats cv shape texture = Ok (softmax [Q2R cs; Q2R ct]).
Proof.
  intros Hs Ht.
  apply score_Ok in Hs as (i & Hi & Hci & Hli).
  apply score_Ok in Ht as (j & Hj & Hcj & Hlj).
  unfold restricted_class_values. rewrite Hi, Hj. simpl. rewrite Hci, Hcj. reflexivity.
Qed.

Lemma decision_restricted_either (cats : list string) (cv : list Q)
    (shape texture dr : string) :
  decision_restricted cats cv shape texture = Ok dr -> dr = shape \/ dr = texture.
Proof.
  unfold decision_restricted. intros H.
  apply bind_Ok in H as (i & Hi & H). apply bind_Ok in H as (j & Hj & H).
  apply bind_Ok in H as (cs & Hcs & H). apply bind_Ok in H as (ct & Hct & H).
  apply getitem_Ok in H. apply index_lookup in Hi, Hj.
  destruct (Qgtb cs ct); [left|right]; congruence.
Qed.

Lemma main_step_unfold (cats : list string) (st : main_state) (stim : Stimulus) :
  main_step cats st stim
  = (dr ← decision_restricted cats (stim_class_values stim) (stim_shape stim)
            (stim_texture stim);
     rcv ← restricted_class_values cats (stim_class_values stim) (stim_shape stim)
             (stim_texture stim);
     inner ← dict_get (main_shape_dict st) (stim_shape stim);
     specs ← dict_get (shape_spec_dict st) (stim_shape stim);
     Ok {| main_shape_dict :=
             <[stim_shape stim :=
                 <[stim_texture_spec stim +:+ "0" :=
                     Some {| entry_decision := stim_decision stim;
                             entry_class_values := stim_class_values stim;
                             entry_decision_restricted := dr;
                             entry_restricted_class_values := rcv |}]> inner]>
               (main_shape_dict st);
           shape_spec_dict :=
             <[stim_shape stim := specs ++ [stim_texture_spec stim]]>
               (shape_spec_dict st) |}).
Proof. reflexivity. Qed.

Lemma main_step_inv (cats : list string) (done : list Stimulus) (st : main_state)
    (stim : Stimulus) :
  main_inv cats done st -> stimulus_ok cats stim ->
  exists st', main_step cats st stim = Ok st' /\ main_inv cats (done ++ [stim]) st'.
Proof.
  intros [Hspecs Hdict] (Hshape & Htexture & Hdecision & Hlen).
  destruct (score_covered cats _ _ Hlen Hshape) as [cs Hcs].
  destruct (score_covered cats _ _ Hlen Htexture) as [ct Hct].
  pose proof (decision_restricted_scores _ _ _ _ _ _ Hcs Hct) as Edr.
  pose proof (restricted_class_values_scores _ _ _ _ _ _ Hcs Hct) as Ercv.
  destruct (Hdict _ Hshape) as (inner & Einner & Hkeys & Hentries).
  pose proof (Hspecs (stim_shape stim)) as Especs.
  rewrite decide_True in Especs by exact Hshape.
  rewrite main_step_unfold, Edr, Ercv.
  unfold dict_get. rewrite Einner, Especs.
  eexists. split; [reflexivity|]. split.
  - intros c. simpl. destruct (decide (c = stim_shape stim)) as [->|Hne].
    + rewrite lookup_insert_eq, decide_True by exact Hshape.
      rewrite filter_app, filter_cons_True by reflexivity.
      rewrite filter_nil, fmap_app. reflexivity.
    + rewrite lookup_insert_ne by congruence. rewrite Hspecs.
      rewrite filter_app, filter_cons_False by (simpl; congruence).
      rewrite filter_nil, app_nil_r. reflexivity.
  - intros c Hc. simpl. destruct (decide (c = stim_shape stim)) as [->|Hne].
    + rewrite lookup_insert_eq. eexists. split; [reflexivity|]. split.
      * intros s Hs Hss.
        destruct (decide (stim_texture_spec s +:+ "0" = stim_texture_spec stim +:+ "0"))
          as [Ek|Hk].
        -- rewrite Ek, lookup_insert_eq. eauto.
        -- rewrite lookup_insert_ne by congruence.
           apply elem_of_app in Hs as [Hs|Hs]; [apply Hkeys; assumption|].
           apply list_elem_of_singleton in Hs. subst s. contradiction.
      * intros k e. destruct (decide (k = stim_texture_spec stim +:+ "0")) as [->|Hk].
        -- rewrite lookup_insert_eq. intros [= <-]. exists stim.
           split; [apply elem_of_app; right; apply list_elem_of_singleton; reflexivity|].
           split; [reflexivity|]. split; [reflexivity|].
           split; [reflexivity|]. split; [reflexivity|]. split; [exact Edr|exact Ercv].
        -- rewrite lookup_insert_ne by congruence. intros H.
           destruct (Hentries k e H) as (s & Hs & Hss & Hks & He).
           exists s. split; [apply elem_of_app; left; exact Hs|]. auto.
    + rewrite lookup_insert_ne by congruence.
      destruct (Hdict c Hc) as (inner' & E' & Hkeys' & Hentries').
      exists inner'. split; [exact E'|]. split.
      * intros s Hs Hss. apply elem_of_app in Hs as [Hs|Hs]; [apply Hkeys'; assumption|].
        apply list_elem_of_singleton in Hs. subst s. congruence.
      * intros k e H. destruct (Hentries' k e H) as (s & Hs & Hss & Hks & He).
        exists s. split; [apply elem_of_app; left; exact Hs|]. auto.
Qed.

Lemma main_loop_inv (cats : list string) (rest : list Stimulus) :
  forall done st,
    main_inv cats done st -> Forall (stimulus_ok cats) rest ->
    exists st', for_each (main_step cats) st rest = Ok st'
                /\ main_inv cats (done ++ rest) st'.
Proof.
  induction rest as [|stim rest IH]; intros done st Hinv Hok.
  - exists st. rewrite app_nil_r. split; [reflexivity|exact Hinv].
  - apply Forall_cons in Hok as [Hstim Hok].
    destruct (main_step_inv cats done st stim Hinv Hstim) as (st1 & E1 & Hinv1).
    destruct (IH _ st1 Hinv1 Hok) as (st' & E' & Hinv').
    exists st'. rewrite for_each_cons, E1. split; [exact E'|].
    rewrite <- app_assoc in Hinv'. exact Hinv'.
Qed.

(** *** The tables of [csv_class_values] *)

Lemma map_result_Ok {A B : Type} (Q : A -> B -> Prop) (f : A -> result B) (l : list A) :
  Forall (fun a => exists b, f a = Ok b /\ Q a b) l ->
  exists bs, map_result f l = Ok bs /\ Forall2 Q l bs.
Proof.
  induction l as [|a l IH]; intros H.
  - exists []. split; [reflexivity|constructor].
  - apply Forall_cons in H as [(b & Eb & Hb) H].
    destruct (IH H) as (bs & Ebs & Hbs).
    exists (b :: bs). split; [|constructor; assumption].
    simpl. rewrite Eb. simpl. rewrite Ebs. reflexivity.
Qed.

Lemma map_result_Raise {A B : Type} (f : A -> result B) (l : list A) (e : exn) :
  Forall (fun a => (exists b, f a = Ok b) \/ f a = Raise e) l ->
  Exists (fun a => f a = Raise e) l ->
  map_result f l = Raise e.
Proof.
  induction l as [|a l IH]; intros Hall Hex; [inversion Hex|].
  apply Forall_cons in Hall as [Ha Hall]. simpl.
  destruct Ha as [[b Eb]|Ea]; [|rewrite Ea; reflexivity].
  rewrite Eb. simpl.
  apply Exists_cons in Hex as [Ea|Hex]; [congruence|].
  rewrite (IH Hall Hex). reflexivity.
Qed.

Lemma map_result_Ok_or_Raise {A B : Type} (f : A -> result B) (l : list A) (e : exn) :
  Forall (fun a => (exists b, f a = Ok b) \/ f a = Raise e) l ->
  (exists bs, map_result f l = Ok bs) \/ map_result f l = Raise e.
Proof.
  induction l as [|a l IH]; intros Hall; [left; exists []; reflexivity|].
  apply Forall_cons in Hall as [Ha Hall]. simpl.
  destruct Ha as [[b Eb]|Ea]; [|rewrite Ea; right; reflexivity].
  rewrite Eb. simpl. destruct (IH Hall) as [[bs Ebs]|E].
  - rewrite Ebs. left. eexists. reflexivity.
  - rewrite E. right. reflexivity.
Qed.

Lemma map_result_fmap {A B C : Type} (g : A -> B) (f : B -> result C) (l : list A) :
  map_result f (g <$> l) = map_result (fun a => f (g a)) l.
Proof.
  induction l as [|a l IH]; [reflexivity|].
  rewrite fmap_cons. simpl. rewrite IH. reflexivity.
Qed.

Lemma csv_row_unfold (cats : list string)
    (sd : gmap string (gmap string (option DecisionEntry))) (shape texture : string) :
  csv_row cats sd shape texture
  = (inner ← dict_get sd shape;
     stored ← dict_get inner (texture +:+ "0");
     entry ← match stored with Some entry => Ok entry | None => Raise TypeError end;
     shape_idx ← index shape cats;
     _ ← getitem (entry_class_values entry) shape_idx;
     texture_idx ← index (drop_last1 texture) cats;
     _ ← getitem (entry_class_values entry) texture_idx;
     decision_idx ← index (entry_decision entry) cats;
     _ ← getitem (entry_class_values entry) decision_idx;
     _ ← getitem (entry_restricted_class_values entry) 0;
     _ ← getitem (entry_restricted_class_values entry) 1;
     Ok {| Shape := shape;
           Shape_Decision := int_eq (entry_decision entry) shape;
           Texture_Decision := int_eq (entry_decision entry) (drop_last1 texture);
           Neither := if decide (entry_decision entry ≠ shape
                                 /\ entry_decision entry ≠ drop_last1 texture)
                      then 1 else 0;
           Restricted_Shape_Decision := int_eq shape (entry_decision_restricted entry);
           Restricted_Texture_Decision :=
             int_eq (drop_last1 texture) (entry_decision_restricted entry) |}).
Proof. reflexivity. Qed.

Lemma digit_key_inj (s t : string) : s +:+ "0" = t +:+ "0" -> s = t.
Proof.
  intros H. rewrite <- (drop_last1_digit s), H. apply drop_last1_digit.
Qed.

Lemma restricted_class_values_two (cats : list string) (cv : list Q)
    (shape texture : string) (l : list R) :
  restricted_class_values cats cv shape texture = Ok l -> exists p q, l = [p; q].
Proof.
  unfold restricted_class_values. intros H.
  apply bind_Ok in H as (i & _ & H). apply bind_Ok in H as (j & _ & H).
  apply bind_Ok in H as (cs & _ & H). apply bind_Ok in H as (ct & _ & H).
  simplify_eq. unfold softmax. simpl. eauto.
Qed.

(** The row of a stored entry, up to the subscript of the texture. *)
Lemma csv_row_texture (cats : list string)
    (sd : gmap string (gmap string (option DecisionEntry)))
    (inner : gmap string (option DecisionEntry)) (e : DecisionEntry)
    (shape texture : string) (p q : R) :
  sd !! shape = Some inner -> inner !! (texture +:+ "0") = Some (Some e) ->
  shape ∈ cats -> entry_decision e ∈ cats ->
  (length cats <= length (entry_class_values e))%nat ->
  entry_restricted_class_values e = [p; q] ->
  csv_row cats sd shape texture
  = (texture_idx ← index (drop_last1 texture) cats;
     _ ← getitem (entry_class_values e) texture_idx;
     Ok {| Shape := shape;
           Shape_Decision := int_eq (entry_decision e) shape;
           Texture_Decision := int_eq (entry_decision e) (drop_last1 texture);
           Neither := if decide (entry_decision e ≠ shape
                                 /\ entry_decision e ≠ drop_last1 texture)
                      then 1 else 0;
           Restricted_Shape_Decision := int_eq shape (entry_decision_restricted e);
           Restricted_Texture_Decision :=
             int_eq (drop_last1 texture) (entry_decision_restricted e) |}).
Proof.
  intros Einner Ee Hshape Hdecision Hlen Hrcv.
  destruct (index_elem_of _ _ Hshape) as [i Hi].
  destruct (index_elem_of _ _ Hdecision) as [k Hk].
  assert (Hget : forall x j, index x cats = Ok j ->
                   exists c, getitem (entry_class_values e) j = Ok c).
  { intros x n Hn. apply index_lookup, lookup_lt_Some in Hn.
    assert (Hlt : (n < length (entry_class_values e))%nat) by lia.
    apply lookup_lt_is_Some in Hlt as [c Hc]. exists c. apply getitem_Ok, Hc. }
  destruct (Hget _ _ Hi) as [qi Eqi]. destruct (Hget _ _ Hk) as [qk Eqk].
  rewrite csv_row_unfold. unfold dict_get. rewrite Einner.
  change (Ok inner ≫= ?k) with (k inner). cbv beta. rewrite Ee.
  change (Ok (Some e) ≫= ?k) with (k (Some e)). cbv beta iota.
  change (Ok e ≫= ?k) with (k e). cbv beta.
  rewrite Hi. change (Ok i ≫= ?k) with (k i). cbv beta.
  rewrite Eqi. change (Ok qi ≫= ?k) with (k qi). cbv beta.
  rewrite Hk, Hrcv.
  destruct (index (drop_last1 texture) cats) as [j|err]; [|reflexivity].
  change (Ok j ≫= ?k) with (k j). cbv beta.
  destruct (getitem (entry_class_values e) j) as [qj|err]; [|reflexivity].
  change (Ok qj ≫= ?k) with (k qj). cbv beta.
  change (Ok k ≫= ?k') with (k' k). cbv beta. rewrite Eqk. reflexivity.
Qed.

Lemma csv_row_entry (cats : list string)
    (sd : gmap string (gmap string (option DecisionEntry)))
    (inner : gmap string (option DecisionEntry)) (e : DecisionEntry)
    (shape texture : string) (p q : R) :
  sd !! shape = Some inner -> inner !! (texture +:+ "0") = Some (Some e) ->
  shape ∈ cats -> entry_decision e ∈ cats ->
  (length cats <= length (entry_class_values e))%nat ->
  entry_restricted_class_values e = [p; q] ->
  (drop_last1 texture ∈ cats ->
   csv_row cats sd shape texture
   = Ok {| Shape := shape;
           Shape_Decision := int_eq (entry_decision e) shape;
           Texture_Decision := int_eq (entry_decision e) (drop_last1 texture);
           Neither := if decide (entry_decision e ≠ shape
                                 /\ entry_decision e ≠ drop_last1 texture)
                      then 1 else 0;
           Restricted_Shape_Decision := int_eq shape (entry_decision_restricted e);
           Restricted_Texture_Decision :=
             int_eq (drop_last1 texture) (entry_decision_restricted e) |}) /\
  ((drop_last1 texture ∉ cats) -> csv_row cats sd shape texture = Raise ValueError).
Proof.
  intros Einner Ee Hshape Hdecision Hlen Hrcv.
  rewrite (csv_row_texture cats sd inner e shape texture p q) by assumption.
  split; intros Htexture.
  - destruct (index_elem_of _ _ Htexture) as [j Hj]. rewrite Hj.
    change (Ok j ≫= ?k) with (k j). cbv beta.
    apply index_lookup, lookup_lt_Some in Hj.
    assert (Hlt : (j < length (entry_class_values e))%nat) by lia.
    apply lookup_lt_is_Some in Hlt as [c Hc].
    rewrite (proj2 (getitem_Ok _ _ _) Hc). reflexivity.
  - destruct (index (drop_last1 texture) cats) as [j|err] eqn:Ej.
    + exfalso. apply Htexture. eapply list_elem_of_lookup_2, index_lookup, Ej.
    + pose proof (index_Raise _ _ _ Ej) as ->. reflexivity.
Qed.

(** The row of a stored stimulus: it is made of the entry of a stimulus of
    the same shape and specific texture, and needs the specific texture
    without its last character to be a category. *)
Lemma csv_row_stored (cats : list string) (done : list Stimulus) (st : main_state)
    (s : Stimulus) :
  main_inv cats done st -> Forall (stimulus_ok cats) done -> s ∈ done ->
  (drop_last1 (stim_texture_spec s) ∈ cats ->
   exists s' dr,
     s' ∈ done /\ stim_shape s' = stim_shape s /\
     stim_texture_spec s' = stim_texture_spec s /\
     decision_restricted cats (stim_class_values s') (stim_shape s') (stim_texture s')
     = Ok dr /\
     csv_row cats (main_shape_dict st) (stim_shape s) (stim_texture_spec s)
     = Ok {| Shape := stim_shape s;
             Shape_Decision := int_eq (stim_decision s') (stim_shape s);
             Texture_Decision :=
               int_eq (stim_decision s') (drop_last1 (stim_texture_spec s));
             Neither := if decide (stim_decision s' ≠ stim_shape s
                                   /\ stim_decision s' ≠ drop_last1 (stim_texture_spec s))
                        then 1 else 0;
             Restricted_Shape_Decision := int_eq (stim_shape s) dr;
             Restricted_Texture_Decision :=
               int_eq (drop_last1 (stim_texture_spec s)) dr |}) /\
  ((drop_last1 (stim_texture_spec s) ∉ cats) ->
   csv_row cats (main_shape_dict st) (stim_shape s) (stim_texture_spec s)
   = Raise ValueError).
Proof.
  intros [_ Hdict] Hok Hs.
  rewrite Forall_forall in Hok.
  destruct (Hok s Hs) as (Hshape & _).
  destruct (Hdict _ Hshape) as (inner & Einner & Hkeys & Hentries).
  destruct (Hkeys s Hs eq_refl) as [e Ee].
  destruct (Hentries _ _ Ee) as (s' & Hs' & Hshape' & Hkey & He1 & He2 & He3 & He4).
  apply digit_key_inj in Hkey.
  destruct (Hok s' Hs') as (_ & _ & Hdecision' & Hlen').
  destruct (restricted_class_values_two _ _ _ _ _ He4) as (p & q & Hrcv).
  rewrite <- He1 in Hdecision'. rewrite <- He2 in Hlen'.
  destruct (csv_row_entry cats _ inner e _ _ p q Einner Ee Hshape Hdecision' Hlen' Hrcv)
    as [Hrow Hraise].
  split; [|exact Hraise].
  intros Htex. exists s', (entry_decision_restricted e).
  split; [exact Hs'|]. split; [exact Hshape'|]. split; [symmetry; exact Hkey|].
  split; [exact He3|]. rewrite (Hrow Htex), He1. reflexivity.
Qed.

Lemma row_counts_intro (c t d dr : string) :
  dr = c \/ dr = t ->
  row_counts c t
    {| Shape := c;
       Shape_Decision := int_eq d c;
       Texture_Decision := int_eq d t;
       Neither := if decide (d ≠ c /\ d ≠ t) then 1 else 0;
       Restricted_Shape_Decision := int_eq c dr;
       Restricted_Texture_Decision := int_eq t dr |}.
Proof.
  intros Hdr. unfold row_counts, int_eq. simpl. split; [reflexivity|]. split.
  - intros ->. destruct Hdr as [-> | ->]; reflexivity.
  - intros Hne.
    destruct (decide (c = dr)), (decide (t = dr)), (decide (d = c)), (decide (d = t)),
      (decide (d ≠ c /\ d ≠ t)); subst; split_and!; try lia; try congruence;
      try tauto; destruct Hdr; congruence.
Qed.

Lemma filter_shape_elem_of (c : string) (stimuli : list Stimulus) :
  Forall (fun s => s ∈ stimuli /\ stim_shape s = c)
    (filter (fun s => stim_shape s = c) stimuli).
Proof.
  apply Forall_forall. intros s Hs. apply list_elem_of_filter in Hs as [? ?]. auto.
Qed.

Lemma csv_class_values_unfold (sd : gmap string (gmap string (option DecisionEntry)))
    (cats : list string) (specs : gmap string (list string)) :
  csv_class_values sd cats specs
  = map_result (fun shape =>
                  specific_textures ← dict_get specs shape;
                  df ← map_result (csv_row cats sd shape) specific_textures;
                  Ok (shape +:+ ".csv", df)) cats.
Proof. reflexivity. Qed.

(** The tables of a run over well-formed stimuli: one per category, under
    the name of the category, with one row per stimulus of that shape, in
    the order of the stimuli. *)
Lemma csv_class_values_tables (cats : list string) (stimuli : list Stimulus)
    (st : main_state) :
  main_inv cats stimuli st -> Forall (stimulus_ok cats) stimuli ->
  Forall texture_spec_ok stimuli ->
  exists tables,
    csv_class_values (main_shape_dict st) cats (shape_spec_dict st) = Ok tables /\
    Forall2 (fun c file =>
               file.1 = c +:+ ".csv" /\
               Forall2 (fun s r => row_counts c (stim_texture s) r)
                 (filter (fun s => stim_shape s = c) stimuli) file.2) cats tables.
Proof.
  intros Hinv Hok Hspec. rewrite csv_class_values_unfold.
  apply map_result_Ok. apply Forall_forall. intros c Hc.
  destruct Hinv as [Hspecs Hdict]. unfold dict_get.
  rewrite (Hspecs c), decide_True by exact Hc.
  change (Ok ?x ≫= ?k) with (k x). cbv beta. rewrite map_result_fmap.
  destruct (map_result_Ok (fun s r => row_counts c (stim_texture s) r)
              (fun s => csv_row cats (main_shape_dict st) c (stim_texture_spec s))
              (filter (fun s => stim_shape s = c) stimuli)) as (rows & Erows & Hrows).
  { eapply Forall_impl; [apply filter_shape_elem_of|].
    intros s [Hs <-]. simpl.
    rewrite Forall_forall in Hok, Hspec.
    pose proof (Hspec s Hs) as Hts. unfold texture_spec_ok in Hts.
    destruct (Hok s Hs) as (_ & Htex & _).
    destruct (csv_row_stored cats stimuli st s (conj Hspecs Hdict)
                ltac:(apply Forall_forall; exact Hok) Hs) as [Hrow _].
    rewrite <- Hts in Htex.
    destruct (Hrow Htex) as (s' & dr & Hs' & Hshape' & Hkey & Hdr & ->).
    eexists. split; [reflexivity|]. rewrite Hts.
    apply row_counts_intro. apply decision_restricted_either in Hdr.
    pose proof (Hspec s' Hs') as Hts'. unfold texture_spec_ok in Hts'.
    rewrite <- Hts', Hkey, Hts, Hshape' in Hdr. exact Hdr. }
  rewrite Erows. eexists. split; [reflexivity|]. split; [reflexivity|exact Hrows].
Qed.

(** *** The totals of the tables *)

Lemma cue_conflicts_filter (c : string) (stimuli : list Stimulus) :
  filter (fun s => stim_texture s ≠ c) (filter (fun s => stim_shape s = c) stimuli)
  = cue_conflicts c stimuli.
Proof.
  unfold cue_conflicts. induction stimuli as [|s l IH]; [reflexivity|].
  destruct (decide (stim_shape s = c)) as [Hs|Hs].
  - rewrite (filter_cons_True (fun s => stim_shape s = c)) by exact Hs.
    destruct (decide (stim_texture s ≠ c)) as [Ht|Ht].
    + rewrite !filter_cons_True by (simpl; auto). rewrite IH. reflexivity.
    + rewrite !filter_cons_False by (simpl; tauto). exact IH.
  - rewrite (filter_cons_False (fun s => stim_shape s = c)) by exact Hs.
    rewrite filter_cons_False by (simpl; tauto). exact IH.
Qed.

Lemma counted_of_rows (c : string) (ss : list Stimulus) (rows : list DecisionRow) :
  Forall2 (fun s r => row_counts c (stim_texture s) r) ss rows ->
  Zsum (Shape_Decision <$> counted_of rows) + Zsum (Texture_Decision <$> counted_of rows)
  + Zsum (Neither <$> counted_of rows)
  = Z.of_nat (length (filter (fun s => stim_texture s ≠ c) ss)) /\
  Zsum (Restricted_Shape_Decision <$> counted_of rows)
  + Zsum (Restricted_Texture_Decision <$> counted_of rows)
  = Z.of_nat (length (filter (fun s => stim_texture s ≠ c) ss)).
Proof.
  unfold counted_of.
  induction 1 as [|s r ss rows (Hshape & Heq & Hne) Hrest [IH1 IH2]]; [split; reflexivity|].
  destruct (decide (stim_texture s = c)) as [Ht|Ht].
  - rewrite (filter_cons_False _ r) by (simpl; intros H; apply H, Heq, Ht).
    rewrite (filter_cons_False _ s) by (simpl; tauto). split; assumption.
  - destruct (Hne Ht) as (Hd & H3 & H2).
    rewrite (filter_cons_True _ r) by exact Hd.
    rewrite (filter_cons_True _ s) by exact Ht.
    rewrite !fmap_cons. unfold Zsum in *. rewrite !foldr_cons.
    rewrite length_cons, Nat2Z.inj_succ. split; lia.
Qed.

Lemma tagged_rows_other (c : string) (cs : list string)
    (tables : list (string * list DecisionRow)) (col : DecisionRow -> Z) :
  c ∉ cs ->
  Forall2 (fun c' file => Forall (fun r => Shape r = c') file.2) cs tables ->
  counted col c (tagged_rows tables) = 0.
Proof.
  intros Hc H. induction H as [|c' file cs tables Hfile Hrest IH]; [reflexivity|].
  rewrite tagged_rows_cons, counted_app, IH by (intros Hin; apply Hc; right; exact Hin).
  assert (Hne : c' ≠ c) by (intros ->; apply Hc; left).
  destruct (skipped file.1); [reflexivity|].
  destruct file.2 as [|first rest] eqn:E; [reflexivity|].
  apply Forall_cons in Hfile as [Hfirst _]. rewrite Hfirst.
  generalize (first :: rest). intros l. induction l as [|r l IHl]; [reflexivity|].
  rewrite fmap_cons, counted_cons, decide_False by (simpl; tauto). exact IHl.
Qed.

Lemma tagged_rows_table (c : string) (rows : list DecisionRow) (col : DecisionRow -> Z) :
  counted col c ((fun row => (c, row)) <$> rows) = Zsum (col <$> counted_of rows).
Proof.
  unfold counted_of. induction rows as [|r rows IH]; [reflexivity|].
  rewrite fmap_cons, counted_cons, IH. simpl.
  destruct (decide (Restricted_Shape_Decision r ≠ Restricted_Texture_Decision r)) as [H|H].
  - rewrite decide_True by auto. rewrite (filter_cons_True _ r) by exact H.
    reflexivity.
  - rewrite decide_False by tauto. rewrite (filter_cons_False _ r) by exact H. lia.
Qed.

(** The counts of a category over a directory that holds one table per
    category. *)
Lemma counted_tables (cs : list string) (tables : list (string * list DecisionRow))
    (col : DecisionRow -> Z) :
  NoDup cs ->
  Forall2 (fun c file => skipped file.1 = false /\ Forall (fun r => Shape r = c) file.2)
    cs tables ->
  forall i c file, cs !! i = Some c -> tables !! i = Some file ->
    counted col c (tagged_rows tables) = Zsum (col <$> counted_of file.2).
Proof.
  intros Hnd H. induction H as [|c0 file0 cs tables [Hname Hfile] Hrest IH];
    intros i c file Hi Hf; [discriminate|].
  apply NoDup_cons in Hnd as [Hc0 Hnd].
  assert (Hshapes : Forall2 (fun c' file => Forall (fun r => Shape r = c') file.2) cs tables).
  { eapply Forall2_impl; [exact Hrest|]. intros ? ? [_ ?]. assumption. }
  assert (Hfirst : forall c,
            counted col c (if skipped file0.1 then []
                           else match file0.2 with
                                | [] => []
                                | first :: _ => (fun row => (Shape first, row)) <$> file0.2
                                end)
            = counted col c ((fun row => (c0, row)) <$> file0.2)).
  { intros c'. rewrite Hname. destruct file0.2 as [|first rest] eqn:E; [reflexivity|].
    apply Forall_cons in Hfile as [-> _]. reflexivity. }
  rewrite tagged_rows_cons, counted_app, Hfirst.
  destruct i as [|i]; simpl in Hi, Hf.
  - simplify_eq. rewrite tagged_rows_table.
    rewrite (tagged_rows_other c cs tables col Hc0 Hshapes). lia.
  - rewrite (IH Hnd i c file Hi Hf).
    assert (Hne : c0 ≠ c).
    { intros ->. apply Hc0. eapply list_elem_of_lookup_2, Hi. }
    assert (H0 : counted col c ((fun row => (c0, row)) <$> file0.2) = 0).
    { generalize file0.2. intros l. induction l as [|r l IHl]; [reflexivity|].
      rewrite fmap_cons, counted_cons, decide_False by (simpl; tauto). exact IHl. }
    rewrite H0. lia.
Qed.

(** The table of [calculate_totals], with the counts of its rows. *)
Lemma calculate_totals_counted (cats : list string)
    (dir : list (string * list DecisionRow)) :
  NoDup cats -> tables_of_categories cats dir ->
  exists result_df,
    calculate_totals cats dir = Ok result_df /\
    forall i shape, cats !! i = Some shape ->
      result_df !! i
      = Some (Some (row_of (fun col c => 0 + counted col c (tagged_rows dir)) shape)).
Proof.
  intros Hnd Hwf.
  destruct (files_as_tagged_rows cats dir (init_totals cats) Hwf) as [Efiles Hall].
  assert (H0 : dicts_are cats (fun _ _ => 0) (init_totals cats)).
  { repeat split; apply zero_dict_is. }
  destruct (tagged_rows_are cats _ _ _ H0 Hall) as (d & Ed & Hd).
  set (F := fun col c => 0 + counted col c (tagged_rows dir)) in *.
  destruct (totals_write_loop cats F d Hnd Hd cats
              (replicate (length cats + 1) None)) as (df & Edf & Hlen & Hcat & Hrest).
  { auto. }
  { rewrite length_replicate. lia. }
  exists (<[length cats := Some (totals_final_row d)]> df). split.
  - unfold calculate_totals. rewrite Efiles, Ed.
    change (Ok d ≫= ?k) with (k d). cbv beta zeta. rewrite Edf. reflexivity.
  - intros i shape Hi.
    assert (Hilt : (i < length cats)%nat) by (eapply lookup_lt_Some, Hi).
    rewrite list_lookup_insert_ne by lia. rewrite (Hcat i shape Hi).
    rewrite decide_True by (eapply list_elem_of_lookup_2, Hi). reflexivity.
Qed.

Lemma decision_totals_unfold (cats : list string) (stimuli : list Stimulus) :
  decision_totals cats stimuli
  = (st ← for_each (main_step cats) (main_init cats) stimuli;
     tables ← csv_class_values (main_shape_dict st) cats (shape_spec_dict st);
     calculate_totals cats tables).
Proof. reflexivity. Qed.

(** In a run over well-formed stimuli in which every category has a
    stimulus, the 'Total Number Stimuli' of a category in [totals.csv] is
    the number of its cue-conflict stimuli: the stimuli whose texture is
    the shape itself are not counted, every other stimulus is counted
    once. The two restricted counts add up to the same number. *)
Theorem decision_totals_cue_conflicts (cats : list string) (stimuli : list Stimulus) :
  NoDup cats -> ("totals"%string ∉ cats) ->
  Forall (stimulus_ok cats) stimuli -> Forall texture_spec_ok stimuli ->
  Forall (fun c => Exists (fun s => stim_shape s = c) stimuli) cats ->
  exists result_df,
    decision_totals cats stimuli = Ok result_df /\
    forall i shape, cats !! i = Some shape ->
      exists r, result_df !! i = Some (Some r) /\
        Shape_Category r = shape /\
        Total_Number_Stimuli r = Z.of_nat (length (cue_conflicts shape stimuli)) /\
        Number_Restricted_Shape_Decisions r + Number_Restricted_Texture_Decisions r
        = Total_Number_Stimuli r.
Proof.
  intros Hnd Htotals Hok Hspec Hall.
  destruct (main_loop_inv cats stimuli [] (main_init cats) (main_init_inv cats) Hok)
    as (st & Eloop & Hinv).
  rewrite app_nil_l in Hinv.
  destruct (csv_class_values_tables cats stimuli st Hinv Hok Hspec)
    as (tables & Etables & Htables).
  assert (Hrows : forall i c file, cats !! i = Some c -> tables !! i = Some file ->
            skipped file.1 = false /\ Forall (fun r => Shape r = c) file.2 /\
            Forall2 (fun s r => row_counts c (stim_texture s) r)
              (filter (fun s => stim_shape s = c) stimuli) file.2).
  { intros i c file Hi Hf.
    destruct (Forall2_lookup_lr _ _ _ _ _ _ Htables Hi Hf) as [Hname Hfile].
    split; [|split; [|exact Hfile]].
    - rewrite Hname. apply skipped_csv. intros ->. apply Htotals.
      eapply list_elem_of_lookup_2, Hi.
    - clear -Hfile. induction Hfile as [|s r ss rows [Hr _] _ IH]; constructor; assumption. }
  assert (Hwf : tables_of_categories cats tables).
  { apply Forall_forall. intros file Hin _.
    apply list_elem_of_lookup_1 in Hin as [i Hf].
    destruct (Forall2_lookup_r _ _ _ _ _ Htables Hf) as (c & Hi & _).
    destruct (Hrows i c file Hi Hf) as (_ & Hshapes & Hfile).
    assert (Hc : c ∈ cats) by (eapply list_elem_of_lookup_2, Hi).
    rewrite Forall_forall in Hall.
    destruct (proj1 (Exists_exists _ _) (Hall c Hc)) as (s & Hs & Hsc).
    assert (Hsf : s ∈ filter (fun s => stim_shape s = c) stimuli).
    { apply list_elem_of_filter. auto. }
    destruct Hfile as [|s0 r ss rows _ _]; [inversion Hsf|].
    exists r, rows. split; [reflexivity|].
    apply Forall_cons in Hshapes as [-> _]. exact Hc. }
  destruct (calculate_totals_counted cats tables Hnd Hwf) as (result_df & Edf & Hdf).
  exists result_df. split.
  { rewrite decision_totals_unfold, Eloop.
    change (Ok st ≫= ?k) with (k st). cbv beta. rewrite Etables. exact Edf. }
  intros i shape Hi. eexists. split; [apply (Hdf i shape Hi)|].
  split; [reflexivity|].
  assert (Hilt : (i < length tables)%nat).
  { rewrite <- (Forall2_length _ _ _ Htables). eapply lookup_lt_Some, Hi. }
  apply lookup_lt_is_Some in Hilt as [file Hf].
  destruct (Hrows i shape file Hi Hf) as (_ & _ & Hfile).
  assert (Hcounted : forall col,
            counted col shape (tagged_rows tables) = Zsum (col <$> counted_of file.2)).
  { intros col. apply (counted_tables cats tables col Hnd) with (i := i); [|exact Hi|exact Hf].
    apply Forall2_same_length_lookup_2; [apply (Forall2_length _ _ _ Htables)|].
    intros j c f Hj Hfj. destruct (Hrows j c f Hj Hfj) as (? & ? & _). auto. }
  destruct (counted_of_rows shape _ _ Hfile) as [H3 H2].
  rewrite cue_conflicts_filter in H3, H2.
  unfold row_of. simpl. rewrite !Hcounted. split; lia.
Qed.




Lemma decision_totals_cue_conflicts_witness :
  exists result_df,
    decision_totals sample_categories sample_stimuli = Ok result_df /\
    forall i shape, sample_categories !! i = Some shape ->
      exists r, result_df !! i = Some (Some r) /\
        Shape_Category r = shape /\
        Total_Number_Stimuli r = Z.of_nat (length (cue_conflicts shape sample_stimuli)) /\
        Number_Restricted_Shape_Decisions r + Number_Restricted_Texture_Decisions r
        = Total_Number_Stimuli r.
Proof.
  apply (decision_totals_cue_conflicts sample_categories sample_stimuli).
  - apply (bool_decide_unpack _). vm_compute. reflexivity.
  - apply (bool_decide_unpack _). vm_compute. reflexivity.
  - unfold sample_stimuli, stimulus_ok. simpl.
    repeat apply Forall_cons_2; try apply Forall_nil_2;
      apply (bool_decide_unpack _); vm_compute; reflexivity.
  - unfold sample_stimuli, texture_spec_ok.
    repeat apply Forall_cons_2; try apply Forall_nil_2; reflexivity.
  - apply (bool_decide_unpack _). vm_compute. reflexivity.
Defined.

Example decision_totals_sample :
  decision_totals sample_categories sample_stimuli
  = Ok [Some {| Shape_Category := "cat"; Number_Shape_Decisions := 1;
                Number_Texture_Decisions := 0; Number_Neither := 1;
                Number_Restricted_Shape_Decisions := 1;
                Number_Restricted_Texture_Decisions := 1;
                Total_Number_Stimuli := 2 |};
        Some {| Shape_Category := "dog"; Number_Shape_Decisions := 0;
                Number_Texture_Decisions := 0; Number_Neither := 1;
                Number_Restricted_Shape_Decisions := 0;
                Number_Restricted_Texture_Decisions := 1;
                Total_Number_Stimuli := 1 |};
        Some {| Shape_Category := "bird"; Number_Shape_Decisions := 0;
                Number_Texture_Decisions := 0; Number_Neither := 0;
                Number_Restricted_Shape_Decisions := 0;
                Number_Restricted_Texture_Decisions := 0;
                Total_Number_Stimuli := 0 |};
        Some {| Shape_Category := "total"; Number_Shape_Decisions := 1;
                Number_Texture_Decisions := 0; Number_Neither := 2;
                Number_Restricted_Shape_Decisions := 1;
                Number_Restricted_Texture_Decisions := 2;
                Total_Number_Stimuli := 3 |}]%string.
Proof. vm_compute. reflexivity. Qed.


(** A specific texture that is not a category followed by one character
    (a texture numbered with two digits, for instance) aborts the run:
    [csv_class_values] raises [ValueError] at its row. *)
Theorem decision_totals_texture_suffix (cats : list string) (stimuli : list Stimulus) :
  Forall (stimulus_ok cats) stimuli ->
  Exists (fun s => drop_last1 (stim_texture_spec s) ∉ cats) stimuli ->
  decision_totals cats stimuli = Raise ValueError.
Proof.
  intros Hok Hex.
  destruct (main_loop_inv cats stimuli [] (main_init cats) (main_init_inv cats) Hok)
    as (st & Eloop & Hinv).
  rewrite app_nil_l in Hinv.
  rewrite decision_totals_unfold, Eloop.
  change (Ok st ≫= ?k) with (k st). cbv beta.
  assert (Hrow : forall s, s ∈ stimuli ->
            (drop_last1 (stim_texture_spec s) ∈ cats ->
             exists r, csv_row cats (main_shape_dict st) (stim_shape s) (stim_texture_spec s)
                       = Ok r) /\
            ((drop_last1 (stim_texture_spec s) ∉ cats) ->
             csv_row cats (main_shape_dict st) (stim_shape s) (stim_texture_spec s)
             = Raise ValueError)).
  { intros s Hs. destruct (csv_row_stored cats stimuli st s Hinv Hok Hs) as [H1 H2].
    split; [|exact H2]. intros Htex.
    destruct (H1 Htex) as (s' & dr & _ & _ & _ & _ & E). eauto. }
  assert (Htable : forall c,
            Forall (fun s => (exists r, csv_row cats (main_shape_dict st) c
                                          (stim_texture_spec s) = Ok r)
                             \/ csv_row cats (main_shape_dict st) c (stim_texture_spec s)
                                = Raise ValueError)
              (filter (fun s => stim_shape s = c) stimuli)).
  { intros c. eapply Forall_impl; [apply filter_shape_elem_of|].
    intros s [Hs <-]. simpl. destruct (Hrow s Hs) as [H1 H2].
    destruct (decide (drop_last1 (stim_texture_spec s) ∈ cats)); auto. }
  enough (E : csv_class_values (main_shape_dict st) cats (shape_spec_dict st)
              = Raise ValueError) by (rewrite E; reflexivity).
  destruct Hinv as [Hspecs Hdict].
  rewrite csv_class_values_unfold. apply map_result_Raise.
  - apply Forall_forall. intros c Hc. unfold dict_get.
    rewrite (Hspecs c), decide_True by exact Hc.
    change (Ok ?x ≫= ?k) with (k x). cbv beta. rewrite map_result_fmap.
    destruct (map_result_Ok_or_Raise _ _ ValueError (Htable c)) as [[rows ->]| ->].
    + left. eexists. reflexivity.
    + right. reflexivity.
  - apply Exists_exists in Hex as (s & Hs & Htex).
    rewrite Forall_forall in Hok. destruct (Hok s Hs) as (Hshape & _).
    apply Exists_exists. exists (stim_shape s). split; [exact Hshape|].
    unfold dict_get. rewrite (Hspecs (stim_shape s)), decide_True by exact Hshape.
    change (Ok ?x ≫= ?k) with (k x). cbv beta. rewrite map_result_fmap.
    rewrite (map_result_Raise _ _ ValueError (Htable (stim_shape s))); [reflexivity|].
    apply Exists_exists. exists s. split.
    + apply list_elem_of_filter. auto.
    + apply (Hrow s Hs), Htex.
Qed.

Lemma decision_totals_texture_suffix_witness :
  decision_totals sample_categories
    (sample_stimuli ++ [sample_two_digits]) = Raise ValueError.
Proof.
  apply (decision_totals_texture_suffix sample_categories).
  - unfold sample_stimuli, sample_two_digits, stimulus_ok. simpl.
    repeat apply Forall_cons_2; try apply Forall_nil_2;
      apply (bool_decide_unpack _); vm_compute; reflexivity.
  - apply (bool_decide_unpack _). vm_compute. reflexivity.
Defined.

(** *** Which stimulus a row is made of *)

Lemma main_init_last (cats : list string) : main_last cats [] (main_init cats).
Proof.
  intros c inner k e Hc Hk. exfalso. unfold main_init in Hc. simpl in Hc.
  rewrite (fromkeys_lookup (shape_dict0 cats) cats ∅ c) in Hc.
  destruct (decide (c ∈ cats)); [|rewrite lookup_empty in Hc; discriminate].
  simplify_eq. exact (shape_dict0_lookup _ _ _ Hk).
Qed.

Lemma main_step_last (cats : list string) (done : list Stimulus) (st st' : main_state)
    (stim : Stimulus) :
  main_last cats done st -> main_step cats st stim = Ok st' ->
  main_last cats (done ++ [stim]) st'.
Proof.
  intros Hlast Hstep. rewrite main_step_unfold in Hstep.
  apply bind_Ok in Hstep as (dr & Edr & Hstep).
  apply bind_Ok in Hstep as (rcv & Ercv & Hstep).
  apply bind_Ok in Hstep as (inner0 & Einner & Hstep).
  apply bind_Ok in Hstep as (specs & Especs & Hstep).
  simplify_eq. unfold dict_get in Einner.
  destruct (main_shape_dict st !! stim_shape stim) as [inner1|] eqn:E1; [|discriminate].
  simplify_eq.
  intros c inner k e. simpl. rewrite filter_app.
  destruct (decide (c = stim_shape stim)) as [->|Hc].
  - rewrite lookup_insert_eq. intros [= <-].
    destruct (decide (k = stim_texture_spec stim +:+ "0")) as [->|Hk].
    + rewrite lookup_insert_eq. intros [= <-].
      rewrite filter_cons_True by (split; reflexivity).
      rewrite filter_nil, last_snoc. exists stim. split; [reflexivity|].
      split; [reflexivity|]. split; [reflexivity|]. split; [exact Edr|exact Ercv].
    + rewrite lookup_insert_ne by congruence. intros Hk0.
      rewrite filter_cons_False by (simpl; intros [_ ?]; congruence).
      rewrite filter_nil, app_nil_r. apply (Hlast _ _ _ _ E1 Hk0).
  - rewrite lookup_insert_ne by congruence. intros Hc0 Hk0.
    rewrite filter_cons_False by (simpl; intros [? _]; congruence).
    rewrite filter_nil, app_nil_r. apply (Hlast _ _ _ _ Hc0 Hk0).
Qed.

Lemma main_loop_last (cats : list string) (rest : list Stimulus) :
  forall done st st',
    main_last cats done st -> for_each (main_step cats) st rest = Ok st' ->
    main_last cats (done ++ rest) st'.
Proof.
  induction rest as [|stim rest IH]; intros done st st' Hlast Hloop.
  - simpl in Hloop. simplify_eq. rewrite app_nil_r. exact Hlast.
  - rewrite for_each_cons in Hloop. apply bind_Ok in Hloop as (st1 & E1 & Hloop).
    pose proof (IH _ _ _ (main_step_last _ _ _ _ _ Hlast E1) Hloop) as H.
    rewrite <- app_assoc in H. exact H.
Qed.

Lemma map_result_fmap_Ok {A B : Type} (f : A -> result B) (g : A -> B) (l : list A) :
  Forall (fun a => f a = Ok (g a)) l -> map_result f l = Ok (g <$> l).
Proof.
  induction 1 as [|a l Ha _ IH]; [reflexivity|].
  simpl. rewrite Ha. simpl. rewrite IH. reflexivity.
Qed.

Lemma filter_same_key (c t : string) (stimuli : list Stimulus) :
  filter (fun s => stim_shape s = c /\ stim_texture_spec s +:+ "0" = t +:+ "0") stimuli
  = filter (fun s => stim_shape s = c /\ stim_texture_spec s = t) stimuli.
Proof.
  apply list_filter_iff. intros s. split; intros [? H]; split; try assumption.
  - apply digit_key_inj, H.
  - rewrite H. reflexivity.
Qed.

(** The tables of a run: the table of a shape has one row per stimulus of
    the shape, in the order of the stimuli, and the row of a stimulus is
    made of the decisions of the last stimulus that has its shape and its
    specific texture: an earlier stimulus with the same two is
    overwritten in the dictionary, and its row repeats the later one. *)
Theorem main_tables_rows (cats : list string) (stimuli : list Stimulus) :
  Forall (stimulus_ok cats) stimuli ->
  Forall (fun s => drop_last1 (stim_texture_spec s) ∈ cats) stimuli ->
  main_tables cats stimuli
  = Ok ((fun c => (c +:+ ".csv",
                   stored_row cats stimuli <$> filter (fun s => stim_shape s = c) stimuli))
          <$> cats).
Proof.
  intros Hok Htex.
  destruct (main_loop_inv cats stimuli [] (main_init cats) (main_init_inv cats) Hok)
    as (st & Eloop & [Hspecs Hdict]).
  pose proof (main_loop_last cats stimuli [] _ _ (main_init_last cats) Eloop) as Hlast.
  rewrite app_nil_l in Hspecs, Hdict, Hlast.
  unfold main_tables. rewrite Eloop.
  change (Ok st ≫= ?k) with (k st). cbv beta.
  rewrite csv_class_values_unfold. apply map_result_fmap_Ok.
  apply Forall_forall. intros c Hc. unfold dict_get.
  rewrite (Hspecs c), decide_True by exact Hc.
  change (Ok ?x ≫= ?k) with (k x). cbv beta. rewrite map_result_fmap.
  rewrite (map_result_fmap_Ok _ (stored_row cats stimuli)); [reflexivity|].
  eapply Forall_impl; [apply filter_shape_elem_of|].
  intros s [Hs <-]. simpl.
  rewrite Forall_forall in Hok, Htex.
  destruct (Hok s Hs) as (Hshape & _).
  destruct (Hdict _ Hshape) as (inner & Einner & Hkeys & _).
  destruct (Hkeys s Hs eq_refl) as [e Ee].
  destruct (Hlast _ _ _ _ Einner Ee) as (s' & Hs' & He1 & He2 & He3 & He4).
  destruct (restricted_class_values_two _ _ _ _ _ He4) as (p & q & Hrcv).
  rewrite filter_same_key in Hs'.
  assert (Hin : s' ∈ stimuli).
  { apply last_Some in Hs' as [l' Hl'].
    assert (H : s' ∈ filter (fun x => stim_shape x = stim_shape s
                                      /\ stim_texture_spec x = stim_texture_spec s) stimuli).
    { rewrite Hl'. apply elem_of_app. right. left. }
    apply list_elem_of_filter in H as [_ H]. exact H. }
  destruct (Hok s' Hin) as (_ & _ & Hdecision' & Hlen').
  rewrite <- He1 in Hdecision'. rewrite <- He2 in Hlen'.
  destruct (csv_row_entry cats _ inner e _ _ p q Einner Ee Hshape Hdecision' Hlen' Hrcv)
    as [Hrow _].
  rewrite (Hrow (Htex s Hs)).
  unfold stored_row, stored_stimulus, restricted_of. rewrite Hs'. simpl.
  rewrite He3, He1. reflexivity.
Qed.

(** Two stimuli of the same shape and specific texture: the first was
    decided as its shape, but both rows of the table carry the decisions
    of the second. *)
Example main_tables_overwritten :
  main_tables sample_categories sample_overwritten
  = Ok [("cat.csv", [decision_row "cat" 0 0 1 0 1; decision_row "cat" 0 0 1 0 1]);
        ("dog.csv", []); ("bird.csv", [])]%string.
Proof. vm_compute. reflexivity. Qed.

Lemma main_tables_rows_witness :
  main_tables sample_categories sample_overwritten
  = Ok ((fun c => (c +:+ ".csv",
                   stored_row sample_categories sample_overwritten
                   <$> filter (fun s => stim_shape s = c) sample_overwritten))
          <$> sample_categories).
Proof.
  apply (main_tables_rows sample_categories sample_overwritten).
  - unfold sample_overwritten, stimulus_ok. simpl.
    repeat apply Forall_cons_2; try apply Forall_nil_2;
      apply (bool_decide_unpack _); vm_compute; reflexivity.
  - apply (bool_decide_unpack _). vm_compute. reflexivity.
Defined.
